(** * LinkedIn Job Saver: a verification development

    A shallow embedding of the scrape engine of the browser extension
    ([pages/content/src/linkedin-scraper.ts]) and of its persistence
    collaborator ([chrome-extension/src/background/index.ts]), together
    with the properties of the design document that were checked against it.

    Conventions of the embedding.
    - A JavaScript string is a list of code units; code units are the 8-bit
      characters of [Ascii.ascii] (the Latin-1 range of UTF-16).
    - A JavaScript number that the code only uses as an integer is a [Z];
      [NaN] is the [None] of an [option Z].  The numbers of the source are
      IEEE doubles, so an integer of the embedding is the number of the
      source only while the magnitudes stay below 2^53; the statements
      about numbers read from a document (results, offsets, page numbers)
      are made for magnitudes below 2^40, where also the quotients by 25
      are rounded exactly.
    - [null] / [undefined] results are [None].
    - A function that can throw returns a [completion]. *)

From Stdlib Require Import List ZArith Lia Bool Ascii String Arith.
From Stdlib Require Import DecimalString DecimalN DecimalPos.
Import ListNotations.

Open Scope list_scope.

(* ================================================================== *)
(** * JavaScript strings *)
(* ================================================================== *)

Module Js.

Definition str := list ascii.

(** String literals of the source are written [lit "..."]. *)
Definition lit (s : string) : str := list_ascii_of_string s.

Definition TAB   : ascii := "009"%char.
Definition LF    : ascii := "010"%char.
Definition VT    : ascii := "011"%char.
Definition FF    : ascii := "012"%char.
Definition CR    : ascii := "013"%char.
Definition SPACE : ascii := "032"%char.
Definition QUOTE : ascii := "034"%char.
Definition COMMA : ascii := "044"%char.
Definition NBSP  : ascii := "160"%char.

(** The regular-expression class [\s], which is also the set of characters
    removed by [String.prototype.trim]: within the 8-bit range these are
    TAB, LF, VT, FF, CR, SPACE and NBSP. *)
Definition is_space (c : ascii) : bool :=
  existsb (Ascii.eqb c) [TAB; LF; VT; FF; CR; SPACE; NBSP].

(** The class [\d]. *)
Definition is_digit (c : ascii) : bool :=
  let n := N_of_ascii c in ((48 <=? n) && (n <=? 57))%N.

Fixpoint dropWhile (p : ascii -> bool) (s : str) : str :=
  match s with
  | [] => []
  | c :: s' => if p c then dropWhile p s' else s
  end.

Definition trimStart (s : str) : str := dropWhile is_space s.
Definition trimEnd (s : str) : str := rev (dropWhile is_space (rev s)).

(** [s.trim()] *)
Definition trim (s : str) : str := trimEnd (trimStart s).

(** [s.replace(/\s+/g, ' ')]: every maximal run of white space becomes one
    space.  [in_run] records that the previous character belonged to the
    run that has already been replaced. *)
Fixpoint replace_ws_from (in_run : bool) (s : str) : str :=
  match s with
  | [] => []
  | c :: s' =>
      if is_space c
      then if in_run then replace_ws_from true s'
           else SPACE :: replace_ws_from true s'
      else c :: replace_ws_from false s'
  end.

Definition replace_ws_runs (s : str) : str := replace_ws_from false s.

(** [s.replace(/c+/g, ' ')] for a single character [c] (used by [cleanText]
    with [\n] and [\t]). *)
Fixpoint replace_char_runs_from (c : ascii) (in_run : bool) (s : str) : str :=
  match s with
  | [] => []
  | x :: s' =>
      if Ascii.eqb x c
      then if in_run then replace_char_runs_from c true s'
           else SPACE :: replace_char_runs_from c true s'
      else x :: replace_char_runs_from c false s'
  end.

Definition replace_char_runs (c : ascii) (s : str) : str :=
  replace_char_runs_from c false s.

(** [s.includes(c)] for a one-character needle. *)
Definition includes_char (c : ascii) (s : str) : bool :=
  existsb (Ascii.eqb c) s.

(** [s.startsWith(p)] *)
Fixpoint startsWith (p s : str) : bool :=
  match p, s with
  | [], _ => true
  | _ :: _, [] => false
  | a :: p', b :: s' => Ascii.eqb a b && startsWith p' s'
  end.

(** [s.includes(needle)] *)
Fixpoint includes (needle s : str) : bool :=
  startsWith needle s ||
  match s with
  | [] => false
  | _ :: s' => includes needle s'
  end.

(** [s.endsWith(p)] *)
Definition endsWith (p s : str) : bool := startsWith (rev p) (rev s).

(** [s.substring(0, n)] *)
Definition substring0 (n : nat) (s : str) : str := firstn n s.

(** [parts.join(sep)] *)
Fixpoint join (sep : str) (parts : list str) : str :=
  match parts with
  | [] => []
  | [p] => p
  | p :: rest => p ++ sep ++ join sep rest
  end.

(** Truthiness of a string: the empty string is falsy. *)
Definition truthy (s : str) : bool :=
  match s with [] => false | _ :: _ => true end.

(** [a || b] on strings. *)
Definition or_else (a b : str) : str := if truthy a then a else b.

(** [a || b] where [a] may be [undefined]. *)
Definition opt_or_else (a : option str) (b : str) : str :=
  match a with
  | Some s => or_else s b
  | None => b
  end.

(** The run-time values a field can hold.  TypeScript declares the fields
    as strings, but [escapeCsvField] tests the run-time type. *)
Inductive value :=
| VUndefined
| VNull
| VBool (b : bool)
| VNumber (n : option Z)
| VString (s : str)
| VObject.

(** Outcome of a call that may throw. *)
Inductive completion (A : Type) :=
| Returned (a : A)
| Thrown (e : str).
Arguments Returned {A} a.
Arguments Thrown {A} e.

End Js.

Import Js.

(* ================================================================== *)
(** * Regular expressions and numbers *)
(* ================================================================== *)

(** A backtracking matcher for the regular expressions of the source:
    greedy repetition, ordered alternatives, capturing groups, look-ahead
    and the end anchor, matched left to right as the language does. *)
Module Regex.

Inductive re :=
| Eps
| Cls (p : ascii -> bool)      (* one character of a class *)
| Seq (r1 r2 : re)
| Alt (r1 r2 : re)             (* r1|r2, r1 tried first *)
| Star (r : re)                (* r*, greedy *)
| Group (i : nat) (r : re)     (* the i-th capturing group *)
| Look (r : re)                (* (?=r) *)
| End.                         (* $ *)

(** Captures, most recent first. *)
Definition captures := list (nat * str).

(** Greedy repetition of [step], at most [n] times: one more round is
    tried first, and a round must consume input. *)
Fixpoint star_loop {A : Type}
  (step : str -> captures -> (str -> captures -> option A) -> option A)
  (k : str -> captures -> option A) (n : nat) (s : str) (c : captures)
  : option A :=
  match n with
  | O => k s c
  | S n' =>
      match step s c (fun s' c' =>
              if (List.length s' <? List.length s)%nat
              then star_loop step k n' s' c' else None) with
      | Some a => Some a
      | None => k s c
      end
  end.

(** [go r s c k]: match [r] at the front of [s], then continue with [k] on
    the rest; the first way that makes [k] succeed is taken. *)
Fixpoint go {A : Type} (r : re) (s : str) (c : captures)
  (k : str -> captures -> option A) : option A :=
  match r with
  | Eps => k s c
  | Cls p =>
      match s with
      | x :: s' => if p x then k s' c else None
      | [] => None
      end
  | Seq r1 r2 => go r1 s c (fun s' c' => go r2 s' c' k)
  | Alt r1 r2 =>
      match go r1 s c k with
      | Some a => Some a
      | None => go r2 s c k
      end
  | Star r1 => star_loop (go r1) k (List.length s) s c
  | Group i r1 =>
      go r1 s c (fun s' c' =>
        k s' ((i, firstn (List.length s - List.length s') s) :: c'))
  | Look r1 =>
      match go r1 s c (fun _ c' => Some c') with
      | Some c' => k s c'
      | None => None
      end
  | End =>
      match s with
      | [] => k s c
      | _ :: _ => None
      end
  end.

(** Derived forms. *)
Definition Plus (r : re) : re := Seq r (Star r).
Definition Opt (r : re) : re := Alt r Eps.
Definition Chr (c : ascii) : re := Cls (Ascii.eqb c).

(** Upper case of an ASCII letter; the canonical form used when the flag
    [i] is set (all patterns of the source are ASCII). *)
Definition upper (c : ascii) : ascii :=
  let n := N_of_ascii c in
  if ((97 <=? n) && (n <=? 122))%N then ascii_of_N (n - 32) else c.

Definition ChrI (c : ascii) : re := Cls (fun x => Ascii.eqb (upper x) (upper c)).

Fixpoint Lit_of (chr : ascii -> re) (s : str) : re :=
  match s with
  | [] => Eps
  | [c] => chr c
  | c :: s' => Seq (chr c) (Lit_of chr s')
  end.

Definition Lit (s : string) : re := Lit_of Chr (lit s).
Definition LitI (s : string) : re := Lit_of ChrI (lit s).

Definition digit : re := Cls is_digit.
Definition space : re := Cls is_space.

(** The result of a successful match. *)
Record Match := mkMatch {
  before : str;       (* the input in front of the match *)
  matched : str;
  after : str;
  groups : captures
}.

Definition group (i : nat) (m : Match) : option str :=
  match find (fun g => Nat.eqb (fst g) i) (groups m) with
  | Some g => Some (snd g)
  | None => None
  end.

(** [s.match(r)] without the flag [g]: the leftmost match. *)
Fixpoint exec_from (r : re) (rev_before : str) (s : str) : option Match :=
  match go r s [] (fun s' c => Some (s', c)) with
  | Some (s', c) =>
      Some {| before := rev rev_before;
              matched := firstn (List.length s - List.length s') s;
              after := s';
              groups := c |}
  | None =>
      match s with
      | [] => None
      | x :: s' => exec_from r (x :: rev_before) s'
      end
  end.

Definition exec (r : re) (s : str) : option Match := exec_from r [] s.

(** [s.replace(r, '')] without the flag [g]. *)
Definition remove_first (r : re) (s : str) : str :=
  match exec r s with
  | Some m => before m ++ after m
  | None => s
  end.

(** [s.split(r)[0]] for a pattern that never matches the empty string. *)
Definition split_head (r : re) (s : str) : str :=
  match exec r s with
  | Some m => before m
  | None => s
  end.

End Regex.

Module JsNumber.

Open Scope Z_scope.

(** A number: an integer, or [NaN].  The operations below are exact; those
    of the source round to doubles, and agree with them below 2^53. *)
Definition num := option Z.

Definition digit_val (c : ascii) : Z := Z.of_N (N_of_ascii c) - 48.

(** Value of the longest prefix of decimal digits, after [acc]. *)
Fixpoint digits_value (acc : Z) (s : str) : Z :=
  match s with
  | c :: s' => if is_digit c then digits_value (10 * acc + digit_val c) s' else acc
  | [] => acc
  end.

(** [parseInt(s, 10)]: leading white space, an optional sign, then as many
    digits as there are; [NaN] without a digit. *)
Definition parseInt (s : str) : num :=
  let s1 := trimStart s in
  let signed :=
    match s1 with
    | c :: t => if Ascii.eqb c "-" then (-1, t)
                else if Ascii.eqb c "+" then (1, t) else (1, s1)
    | [] => (1, s1)
    end in
  match snd signed with
  | c :: _ => if is_digit c then Some (fst signed * digits_value 0 (snd signed))
              else None
  | [] => None
  end.

(** [Math.floor(x / d)] and [Math.ceil(x / d)] for a positive integer [d]. *)
Definition floor_div (x : num) (d : Z) : num := option_map (fun z => z / d) x.
Definition ceil_quot (z d : Z) : Z := - ((- z) / d).

Definition add (x : num) (z : Z) : num := option_map (fun v => v + z) x.

(** Comparisons with [NaN] are false. *)
Definition leb (x y : num) : bool :=
  match x, y with
  | Some a, Some b => a <=? b
  | _, _ => false
  end.

Definition ltb (x y : num) : bool :=
  match x, y with
  | Some a, Some b => a <? b
  | _, _ => false
  end.

Definition geb (x y : num) : bool := leb y x.
Definition gtb (x y : num) : bool := ltb y x.

(** [Math.max], [Math.min]: [NaN] if an argument is. *)
Definition max (x y : num) : num :=
  match x, y with
  | Some a, Some b => Some (Z.max a b)
  | _, _ => None
  end.

Definition min (x y : num) : num :=
  match x, y with
  | Some a, Some b => Some (Z.min a b)
  | _, _ => None
  end.

End JsNumber.

(* ================================================================== *)
(** * JavaScript dates *)
(* ================================================================== *)

(** Time values and the [Date] methods used by the scraper, after the
    abstract operations of the language standard (Day, TimeWithinDay,
    MakeTime, MakeDay, MakeDate, TimeClip, LocalTime, UTC).  A time value is
    a number of milliseconds since 1970-01-01T00:00:00Z; an invalid date
    (time value [NaN]) is [None].  The local time zone is a constant offset
    [tza] from UTC, in milliseconds. *)
Module JsDate.

Open Scope Z_scope.

Definition msPerSecond : Z := 1000.
Definition msPerMinute : Z := 60000.
Definition msPerHour : Z := 3600000.
Definition msPerDay : Z := 86400000.
Definition maxTime : Z := 8640000000000000.

Definition Day (t : Z) : Z := t / msPerDay.
Definition TimeWithinDay (t : Z) : Z := t mod msPerDay.

Definition HourFromTime (t : Z) : Z := (t / msPerHour) mod 24.
Definition MinFromTime (t : Z) : Z := (t / msPerMinute) mod 60.
Definition SecFromTime (t : Z) : Z := (t / msPerSecond) mod 60.
Definition msFromTime (t : Z) : Z := t mod msPerSecond.

(** Calendar date of a day number: (year, month index 0..11, day of month).
    Years are counted in 400-year eras starting on 1 March. *)
Definition civil_of_day (day : Z) : Z * Z * Z :=
  let z := day + 719468 in
  let era := z / 146097 in
  let doe := z - era * 146097 in
  let yoe := (doe - doe / 1460 + doe / 36524 - doe / 146096) / 365 in
  let doy := doe - (365 * yoe + yoe / 4 - yoe / 100) in
  let mp := (5 * doy + 2) / 153 in
  let d := doy - (153 * mp + 2) / 5 + 1 in
  let m := if mp <? 10 then mp + 2 else mp - 10 in
  let y := yoe + era * 400 + (if m <=? 1 then 1 else 0) in
  (y, m, d).

(** Day number of the first day of month [m] (index 0..11) of year [y]. *)
Definition day_of_month_start (y m : Z) : Z :=
  let y' := y - (if m <=? 1 then 1 else 0) in
  let era := y' / 400 in
  let yoe := y' - era * 400 in
  let mp := if m <=? 1 then m + 10 else m - 2 in
  let doy := (153 * mp + 2) / 5 in
  let doe := yoe * 365 + yoe / 4 - yoe / 100 + doy in
  era * 146097 + doe - 719468.

Definition YearFromTime (t : Z) : Z := fst (fst (civil_of_day (Day t))).
Definition MonthFromTime (t : Z) : Z := snd (fst (civil_of_day (Day t))).
Definition DateFromTime (t : Z) : Z := snd (civil_of_day (Day t)).

Definition MakeTime (hour min sec ms : Z) : Z :=
  hour * msPerHour + min * msPerMinute + sec * msPerSecond + ms.

Definition MakeDay (year month date : Z) : Z :=
  let ym := year + month / 12 in
  let mn := month mod 12 in
  day_of_month_start ym mn + date - 1.

Definition MakeDate (day time : Z) : Z := day * msPerDay + time.

(** [TimeClip]: a time value outside the supported range is [NaN]. *)
Definition TimeClip (t : Z) : option Z :=
  if Z.abs t <=? maxTime then Some t else None.

Definition LocalTime (tza t : Z) : Z := t + tza.
Definition UTC (tza t : Z) : Z := t - tza.

(** The getters, on a valid date. *)
Definition getHours (tza t : Z) : Z := HourFromTime (LocalTime tza t).
Definition getDate (tza t : Z) : Z := DateFromTime (LocalTime tza t).
Definition getMonth (tza t : Z) : Z := MonthFromTime (LocalTime tza t).
Definition getFullYear (tza t : Z) : Z := YearFromTime (LocalTime tza t).

(** The setters, on a valid date; the result is the new time value. *)
Definition setHours (tza t hour : Z) : option Z :=
  let lt := LocalTime tza t in
  TimeClip (UTC tza (MakeDate (Day lt)
    (MakeTime hour (MinFromTime lt) (SecFromTime lt) (msFromTime lt)))).

Definition setDate (tza t date : Z) : option Z :=
  let lt := LocalTime tza t in
  TimeClip (UTC tza (MakeDate
    (MakeDay (YearFromTime lt) (MonthFromTime lt) date) (TimeWithinDay lt))).

Definition setMonth (tza t month : Z) : option Z :=
  let lt := LocalTime tza t in
  TimeClip (UTC tza (MakeDate
    (MakeDay (YearFromTime lt) month (DateFromTime lt)) (TimeWithinDay lt))).

Definition setFullYear (tza t year : Z) : option Z :=
  let lt := LocalTime tza t in
  TimeClip (UTC tza (MakeDate
    (MakeDay year (MonthFromTime lt) (DateFromTime lt)) (TimeWithinDay lt))).

(** Decimal digits, zero padded to a fixed width. *)
Definition digit (n : Z) : ascii := ascii_of_N (Z.to_N (48 + n mod 10)).

Fixpoint pad (width : nat) (n : Z) : str :=
  match width with
  | O => []
  | S w => pad w (n / 10) ++ [digit n]
  end.

(** [toISOString] of a valid time value, in UTC: [YYYY-MM-DDTHH:mm:ss.sssZ],
    with a sign and six digits for years outside 0..9999. *)
Definition iso_format (t : Z) : str :=
  let y := YearFromTime t in
  let year := if (0 <=? y) && (y <=? 9999) then pad 4 y
              else (if y <? 0 then lit "-" else lit "+") ++ pad 6 (Z.abs y) in
  year ++ lit "-" ++ pad 2 (MonthFromTime t + 1) ++ lit "-" ++
  pad 2 (DateFromTime t) ++ lit "T" ++ pad 2 (HourFromTime t) ++ lit ":" ++
  pad 2 (MinFromTime t) ++ lit ":" ++ pad 2 (SecFromTime t) ++ lit "." ++
  pad 3 (msFromTime t) ++ lit "Z".

(** [toISOString] throws a [RangeError] on an invalid date. *)
Definition toISOString (d : option Z) : completion str :=
  match d with
  | Some t => Returned (iso_format t)
  | None => Thrown (lit "Invalid time value")
  end.

End JsDate.

(* ================================================================== *)
(** * The record type shared by both scripts *)
(* ================================================================== *)

(** [interface JobData]; optional members are [option]s. *)
Record JobData := mkJob {
  title : str;
  company : str;
  location : str;
  description : str;
  salary : option str;
  jobType : option str;
  experience : option str;
  workplaceType : option str;
  applicantCount : option str;
  companySize : option str;
  linkedinEmployees : option str;
  industry : option str;
  followers : option str;
  hiringInsights : option str;
  benefits : option str;
  skills : option str;
  companyDescription : option str;
  companyCommitments : option str;
  url : str;
  postedDate : option str;
  postedDateISO : option str;
  scrapedAt : str
}.

Definition str_eqb (a b : str) : bool :=
  if list_eq_dec Ascii.ascii_dec a b then true else false.

(** The test both scripts use to recognise an already known listing:
    [a.title === b.title && a.company === b.company && a.url === b.url]. *)
Definition same_listing (a b : JobData) : bool :=
  str_eqb (title a) (title b) &&
  str_eqb (company a) (company b) &&
  str_eqb (url a) (url b).

(** The identity key of the design document. *)
Definition identity_key (j : JobData) : str * str * str :=
  (title j, company j, url j).

(** Assignment to one member: [job.member = v]. *)
Definition set_title (v : str) (j : JobData) : JobData :=
  {| title := v; company := company j; location := location j;
     description := description j; salary := salary j; jobType := jobType j;
     experience := experience j; workplaceType := workplaceType j;
     applicantCount := applicantCount j; companySize := companySize j;
     linkedinEmployees := linkedinEmployees j; industry := industry j;
     followers := followers j; hiringInsights := hiringInsights j;
     benefits := benefits j; skills := skills j;
     companyDescription := companyDescription j;
     companyCommitments := companyCommitments j; url := url j;
     postedDate := postedDate j; postedDateISO := postedDateISO j;
     scrapedAt := scrapedAt j |}.

Definition set_company (v : str) (j : JobData) : JobData :=
  {| title := title j; company := v; location := location j;
     description := description j; salary := salary j; jobType := jobType j;
     experience := experience j; workplaceType := workplaceType j;
     applicantCount := applicantCount j; companySize := companySize j;
     linkedinEmployees := linkedinEmployees j; industry := industry j;
     followers := followers j; hiringInsights := hiringInsights j;
     benefits := benefits j; skills := skills j;
     companyDescription := companyDescription j;
     companyCommitments := companyCommitments j; url := url j;
     postedDate := postedDate j; postedDateISO := postedDateISO j;
     scrapedAt := scrapedAt j |}.

Definition set_location (v : str) (j : JobData) : JobData :=
  {| title := title j; company := company j; location := v;
     description := description j; salary := salary j; jobType := jobType j;
     experience := experience j; workplaceType := workplaceType j;
     applicantCount := applicantCount j; companySize := companySize j;
     linkedinEmployees := linkedinEmployees j; industry := industry j;
     followers := followers j; hiringInsights := hiringInsights j;
     benefits := benefits j; skills := skills j;
     companyDescription := companyDescription j;
     companyCommitments := companyCommitments j; url := url j;
     postedDate := postedDate j; postedDateISO := postedDateISO j;
     scrapedAt := scrapedAt j |}.

Definition set_description (v : str) (j : JobData) : JobData :=
  {| title := title j; company := company j; location := location j;
     description := v; salary := salary j; jobType := jobType j;
     experience := experience j; workplaceType := workplaceType j;
     applicantCount := applicantCount j; companySize := companySize j;
     linkedinEmployees := linkedinEmployees j; industry := industry j;
     followers := followers j; hiringInsights := hiringInsights j;
     benefits := benefits j; skills := skills j;
     companyDescription := companyDescription j;
     companyCommitments := companyCommitments j; url := url j;
     postedDate := postedDate j; postedDateISO := postedDateISO j;
     scrapedAt := scrapedAt j |}.

Definition set_salary (v : option str) (j : JobData) : JobData :=
  {| title := title j; company := company j; location := location j;
     description := description j; salary := v; jobType := jobType j;
     experience := experience j; workplaceType := workplaceType j;
     applicantCount := applicantCount j; companySize := companySize j;
     linkedinEmployees := linkedinEmployees j; industry := industry j;
     followers := followers j; hiringInsights := hiringInsights j;
     benefits := benefits j; skills := skills j;
     companyDescription := companyDescription j;
     companyCommitments := companyCommitments j; url := url j;
     postedDate := postedDate j; postedDateISO := postedDateISO j;
     scrapedAt := scrapedAt j |}.

Definition set_jobType (v : option str) (j : JobData) : JobData :=
  {| title := title j; company := company j; location := location j;
     description := description j; salary := salary j; jobType := v;
     experience := experience j; workplaceType := workplaceType j;
     applicantCount := applicantCount j; companySize := companySize j;
     linkedinEmployees := linkedinEmployees j; industry := industry j;
     followers := followers j; hiringInsights := hiringInsights j;
     benefits := benefits j; skills := skills j;
     companyDescription := companyDescription j;
     companyCommitments := companyCommitments j; url := url j;
     postedDate := postedDate j; postedDateISO := postedDateISO j;
     scrapedAt := scrapedAt j |}.

Definition set_workplaceType (v : option str) (j : JobData) : JobData :=
  {| title := title j; company := company j; location := location j;
     description := description j; salary := salary j; jobType := jobType j;
     experience := experience j; workplaceType := v;
     applicantCount := applicantCount j; companySize := companySize j;
     linkedinEmployees := linkedinEmployees j; industry := industry j;
     followers := followers j; hiringInsights := hiringInsights j;
     benefits := benefits j; skills := skills j;
     companyDescription := companyDescription j;
     companyCommitments := companyCommitments j; url := url j;
     postedDate := postedDate j; postedDateISO := postedDateISO j;
     scrapedAt := scrapedAt j |}.

Definition set_applicantCount (v : option str) (j : JobData) : JobData :=
  {| title := title j; company := company j; location := location j;
     description := description j; salary := salary j; jobType := jobType j;
     experience := experience j; workplaceType := workplaceType j;
     applicantCount := v; companySize := companySize j;
     linkedinEmployees := linkedinEmployees j; industry := industry j;
     followers := followers j; hiringInsights := hiringInsights j;
     benefits := benefits j; skills := skills j;
     companyDescription := companyDescription j;
     companyCommitments := companyCommitments j; url := url j;
     postedDate := postedDate j; postedDateISO := postedDateISO j;
     scrapedAt := scrapedAt j |}.

Definition set_companySize (v : option str) (j : JobData) : JobData :=
  {| title := title j; company := company j; location := location j;
     description := description j; salary := salary j; jobType := jobType j;
     experience := experience j; workplaceType := workplaceType j;
     applicantCount := applicantCount j; companySize := v;
     linkedinEmployees := linkedinEmployees j; industry := industry j;
     followers := followers j; hiringInsights := hiringInsights j;
     benefits := benefits j; skills := skills j;
     companyDescription := companyDescription j;
     companyCommitments := companyCommitments j; url := url j;
     postedDate := postedDate j; postedDateISO := postedDateISO j;
     scrapedAt := scrapedAt j |}.

Definition set_linkedinEmployees (v : option str) (j : JobData) : JobData :=
  {| title := title j; company := company j; location := location j;
     description := description j; salary := salary j; jobType := jobType j;
     experience := experience j; workplaceType := workplaceType j;
     applicantCount := applicantCount j; companySize := companySize j;
     linkedinEmployees := v; industry := industry j;
     followers := followers j; hiringInsights := hiringInsights j;
     benefits := benefits j; skills := skills j;
     companyDescription := companyDescription j;
     companyCommitments := companyCommitments j; url := url j;
     postedDate := postedDate j; postedDateISO := postedDateISO j;
     scrapedAt := scrapedAt j |}.

Definition set_industry (v : option str) (j : JobData) : JobData :=
  {| title := title j; company := company j; location := location j;
     description := description j; salary := salary j; jobType := jobType j;
     experience := experience j; workplaceType := workplaceType j;
     applicantCount := applicantCount j; companySize := companySize j;
     linkedinEmployees := linkedinEmployees j; industry := v;
     followers := followers j; hiringInsights := hiringInsights j;
     benefits := benefits j; skills := skills j;
     companyDescription := companyDescription j;
     companyCommitments := companyCommitments j; url := url j;
     postedDate := postedDate j; postedDateISO := postedDateISO j;
     scrapedAt := scrapedAt j |}.

Definition set_followers (v : option str) (j : JobData) : JobData :=
  {| title := title j; company := company j; location := location j;
     description := description j; salary := salary j; jobType := jobType j;
     experience := experience j; workplaceType := workplaceType j;
     applicantCount := applicantCount j; companySize := companySize j;
     linkedinEmployees := linkedinEmployees j; industry := industry j;
     followers := v; hiringInsights := hiringInsights j;
     benefits := benefits j; skills := skills j;
     companyDescription := companyDescription j;
     companyCommitments := companyCommitments j; url := url j;
     postedDate := postedDate j; postedDateISO := postedDateISO j;
     scrapedAt := scrapedAt j |}.

Definition set_hiringInsights (v : option str) (j : JobData) : JobData :=
  {| title := title j; company := company j; location := location j;
     description := description j; salary := salary j; jobType := jobType j;
     experience := experience j; workplaceType := workplaceType j;
     applicantCount := applicantCount j; companySize := companySize j;
     linkedinEmployees := linkedinEmployees j; industry := industry j;
     followers := followers j; hiringInsights := v; benefits := benefits j;
     skills := skills j; companyDescription := companyDescription j;
     companyCommitments := companyCommitments j; url := url j;
     postedDate := postedDate j; postedDateISO := postedDateISO j;
     scrapedAt := scrapedAt j |}.

Definition set_skills (v : option str) (j : JobData) : JobData :=
  {| title := title j; company := company j; location := location j;
     description := description j; salary := salary j; jobType := jobType j;
     experience := experience j; workplaceType := workplaceType j;
     applicantCount := applicantCount j; companySize := companySize j;
     linkedinEmployees := linkedinEmployees j; industry := industry j;
     followers := followers j; hiringInsights := hiringInsights j;
     benefits := benefits j; skills := v;
     companyDescription := companyDescription j;
     companyCommitments := companyCommitments j; url := url j;
     postedDate := postedDate j; postedDateISO := postedDateISO j;
     scrapedAt := scrapedAt j |}.

Definition set_companyDescription (v : option str) (j : JobData) : JobData :=
  {| title := title j; company := company j; location := location j;
     description := description j; salary := salary j; jobType := jobType j;
     experience := experience j; workplaceType := workplaceType j;
     applicantCount := applicantCount j; companySize := companySize j;
     linkedinEmployees := linkedinEmployees j; industry := industry j;
     followers := followers j; hiringInsights := hiringInsights j;
     benefits := benefits j; skills := skills j; companyDescription := v;
     companyCommitments := companyCommitments j; url := url j;
     postedDate := postedDate j; postedDateISO := postedDateISO j;
     scrapedAt := scrapedAt j |}.

Definition set_companyCommitments (v : option str) (j : JobData) : JobData :=
  {| title := title j; company := company j; location := location j;
     description := description j; salary := salary j; jobType := jobType j;
     experience := experience j; workplaceType := workplaceType j;
     applicantCount := applicantCount j; companySize := companySize j;
     linkedinEmployees := linkedinEmployees j; industry := industry j;
     followers := followers j; hiringInsights := hiringInsights j;
     benefits := benefits j; skills := skills j;
     companyDescription := companyDescription j; companyCommitments := v;
     url := url j; postedDate := postedDate j;
     postedDateISO := postedDateISO j; scrapedAt := scrapedAt j |}.

Definition set_postedDate (v : option str) (j : JobData) : JobData :=
  {| title := title j; company := company j; location := location j;
     description := description j; salary := salary j; jobType := jobType j;
     experience := experience j; workplaceType := workplaceType j;
     applicantCount := applicantCount j; companySize := companySize j;
     linkedinEmployees := linkedinEmployees j; industry := industry j;
     followers := followers j; hiringInsights := hiringInsights j;
     benefits := benefits j; skills := skills j;
     companyDescription := companyDescription j;
     companyCommitments := companyCommitments j; url := url j;
     postedDate := v; postedDateISO := postedDateISO j;
     scrapedAt := scrapedAt j |}.

Definition set_postedDateISO (v : option str) (j : JobData) : JobData :=
  {| title := title j; company := company j; location := location j;
     description := description j; salary := salary j; jobType := jobType j;
     experience := experience j; workplaceType := workplaceType j;
     applicantCount := applicantCount j; companySize := companySize j;
     linkedinEmployees := linkedinEmployees j; industry := industry j;
     followers := followers j; hiringInsights := hiringInsights j;
     benefits := benefits j; skills := skills j;
     companyDescription := companyDescription j;
     companyCommitments := companyCommitments j; url := url j;
     postedDate := postedDate j; postedDateISO := v; scrapedAt := scrapedAt j |}.

(* ================================================================== *)
(** * The command bus *)
(* ================================================================== *)

Module Bus.

(** A request: [message.action] is any run-time value; [message.jobs] is
    [Some] when it is an array ([Array.isArray]). *)
Record Message := mkMessage {
  action : value;
  jobs : option (list JobData)
}.

(** A response object; a member that the responder does not set is [None]. *)
Record Response := mkResponse {
  success : option bool;
  error : option str;
  resp_jobs : option (list JobData);
  jobCount : option Z
}.

Definition request (name : string) : Message :=
  {| action := VString (lit name); jobs := None |}.

(** [switch (message.action)] and [message.action === '...'] compare with
    strict equality: only a string equal to the label matches. *)
Definition action_is (m : Message) (name : string) : bool :=
  match action m with
  | VString s => str_eqb s (lit name)
  | _ => false
  end.

End Bus.

(* ================================================================== *)
(** * Background script: persisted store and CSV export *)
(* ================================================================== *)

Module Background.

(** [escapeCsvField] *)
Definition clean_field (s : str) : str := replace_ws_runs (trim s).

Definition needs_quotes (cleanField : str) : bool :=
  includes_char COMMA cleanField || includes_char QUOTE cleanField ||
  includes_char LF cleanField || includes_char CR cleanField.

(** [cleanField.replace] of every double quote by two double quotes. *)
Definition double_quotes (s : str) : str :=
  flat_map (fun c => if Ascii.eqb c QUOTE then [QUOTE; QUOTE] else [c]) s.

Definition quoted (cleanField : str) : str :=
  QUOTE :: double_quotes cleanField ++ [QUOTE].

Definition escapeCsvField (field : value) : str :=
  match field with
  | VString s =>
      if truthy s
      then let cleanField := clean_field s in
           if needs_quotes cleanField then quoted cleanField else cleanField
      else []
  | _ => []
  end.

Definition headers : list str :=
  map lit
    ["Title"; "Company"; "Location"; "Description"; "Salary"; "Job Type";
     "Workplace Type"; "Experience"; "Applicant Count"; "Company Size";
     "LinkedIn Employees"; "Industry"; "Followers"; "Hiring Insights";
     "Skills"; "Company Description"; "Company Commitments"; "URL";
     "Posted Date"; "Posted Date ISO"; "Scraped At"]%string.

(** The 21 arguments passed to [escapeCsvField] for one job, in column
    order ([job.salary || ''] and the like for the optional members). *)
Definition row_values (job : JobData) : list value :=
  [ VString (title job);
    VString (company job);
    VString (location job);
    VString (description job);
    VString (opt_or_else (salary job) []);
    VString (opt_or_else (jobType job) []);
    VString (opt_or_else (workplaceType job) []);
    VString (opt_or_else (experience job) []);
    VString (opt_or_else (applicantCount job) []);
    VString (opt_or_else (companySize job) []);
    VString (opt_or_else (linkedinEmployees job) []);
    VString (opt_or_else (industry job) []);
    VString (opt_or_else (followers job) []);
    VString (opt_or_else (hiringInsights job) []);
    VString (opt_or_else (skills job) []);
    VString (opt_or_else (companyDescription job) []);
    VString (opt_or_else (companyCommitments job) []);
    VString (url job);
    VString (opt_or_else (postedDate job) []);
    VString (opt_or_else (postedDateISO job) []);
    VString (scrapedAt job) ].

Definition row_fields (job : JobData) : list str :=
  map escapeCsvField (row_values job).

Definition csvRows (jobs : list JobData) : list str :=
  join [COMMA] headers :: map (fun job => join [COMMA] (row_fields job)) jobs.

(** [convertJobsToCSV] *)
Definition convertJobsToCSV (jobs : list JobData) : str :=
  match jobs with
  | [] => lit "No jobs to export"
  | _ :: _ => join [LF] (csvRows jobs)
  end.

(** The script's state: the module variable [scrapedJobs] and the entry
    [linkedinJobs] of [chrome.storage.local] ([None]: the key is absent). *)
Record State := mkState {
  scrapedJobs : list JobData;
  linkedinJobs : option (list JobData)
}.

(** What the host runtime does with the calls of one handler. *)
Record Host := mkHost {
  storage_set : completion unit;     (* chrome.storage.local.set *)
  storage_remove : completion unit;  (* chrome.storage.local.remove *)
  download : completion unit;        (* chrome.downloads.download *)
  now : Z                            (* new Date() *)
}.

(** Start-up: [chrome.storage.local.get(['linkedinJobs'])]. *)
Definition load (stored : option (list JobData)) : State :=
  match stored with
  | Some l => {| scrapedJobs := l; linkedinJobs := stored |}
  | None => {| scrapedJobs := []; linkedinJobs := None |}
  end.

(** [jobsToAdd] of [handleSaveJobs]. *)
Definition jobsToAdd (scrapedJobs newJobs : list JobData) : list JobData :=
  filter (fun newJob =>
            negb (existsb (fun existingJob => same_listing existingJob newJob)
                          scrapedJobs))
         newJobs.

(** [handleSaveJobs]: the new state and whether the returned promise is
    fulfilled or rejected.  The push happens before the store is written. *)
Definition handleSaveJobs (h : Host) (st : State) (newJobs : option (list JobData))
  : State * completion unit :=
  match newJobs with
  | None => (st, Returned tt)
  | Some newJobs =>
      let merged := scrapedJobs st ++ jobsToAdd (scrapedJobs st) newJobs in
      match storage_set h with
      | Returned _ =>
          ({| scrapedJobs := merged; linkedinJobs := Some merged |}, Returned tt)
      | Thrown e =>
          ({| scrapedJobs := merged; linkedinJobs := linkedinJobs st |}, Thrown e)
      end
  end.

(** [handleClearJobs] *)
Definition handleClearJobs (h : Host) (st : State) : State * completion unit :=
  match storage_remove h with
  | Returned _ => ({| scrapedJobs := []; linkedinJobs := None |}, Returned tt)
  | Thrown e => ({| scrapedJobs := []; linkedinJobs := linkedinJobs st |}, Thrown e)
  end.



(** [handleExportCSV]: the download it asks for, file name and content,
    if any.  A failing download is caught inside the handler. *)


Definition reply_success : Bus.Response :=
  {| Bus.success := Some true; Bus.error := None;
     Bus.resp_jobs := None; Bus.jobCount := None |}.

Definition reply_failure (e : str) : Bus.Response :=
  {| Bus.success := Some false; Bus.error := Some e;
     Bus.resp_jobs := None; Bus.jobCount := None |}.

(** The [chrome.runtime.onMessage] listener: new state and response. *)
Definition onMessage (h : Host) (st : State) (message : Bus.Message)
  : State * Bus.Response :=
  if Bus.action_is message "SAVE_JOBS" then
    match handleSaveJobs h st (Bus.jobs message) with
    | (st', Returned _) =>
        (st', {| Bus.success := Some true; Bus.error := None;
                 Bus.resp_jobs := None;
                 Bus.jobCount := Some (Z.of_nat (List.length (scrapedJobs st'))) |})
    | (st', Thrown e) => (st', reply_failure e)
    end
  else if Bus.action_is message "GET_ALL_JOBS" then
    (st, {| Bus.success := None; Bus.error := None;
            Bus.resp_jobs := Some (scrapedJobs st); Bus.jobCount := None |})
  else if Bus.action_is message "EXPORT_CSV" then
    (st, reply_success)
  else if Bus.action_is message "CLEAR_JOBS" then
    match handleClearJobs h st with
    | (st', Returned _) => (st', reply_success)
    | (st', Thrown e) => (st', reply_failure e)
    end
  else
    (st, {| Bus.success := None; Bus.error := Some (lit "Unknown action");
            Bus.resp_jobs := None; Bus.jobCount := None |}).


End Background.

(* ================================================================== *)
(** * RFC 4180 field decoding (reference reader of the exported file) *)
(* ================================================================== *)

Module Rfc4180.

(** An unquoted field extends to the next comma or line break. *)
Definition is_delimiter (c : ascii) : bool :=
  Ascii.eqb c COMMA || Ascii.eqb c LF || Ascii.eqb c CR.

Fixpoint parse_unquoted (s : str) : str * str :=
  match s with
  | [] => ([], [])
  | c :: s' =>
      if is_delimiter c then ([], s)
      else let (f, r) := parse_unquoted s' in (c :: f, r)
  end.

(** Inside a quoted field two double quotes stand for one, a single double
    quote ends the field.  [None]: the closing quote is missing. *)
Fixpoint parse_quoted (s : str) : option (str * str) :=
  match s with
  | [] => None
  | c :: s' =>
      if Ascii.eqb c QUOTE
      then match s' with
           | d :: s'' =>
               if Ascii.eqb d QUOTE
               then match parse_quoted s'' with
                    | Some (f, r) => Some (QUOTE :: f, r)
                    | None => None
                    end
               else Some ([], s')
           | [] => Some ([], [])
           end
      else match parse_quoted s' with
           | Some (f, r) => Some (c :: f, r)
           | None => None
           end
  end.

(** Reads one field from the front of [s]; returns it with the rest. *)
Definition parse_field (s : str) : option (str * str) :=
  match s with
  | c :: s' => if Ascii.eqb c QUOTE then parse_quoted s'
               else Some (parse_unquoted s)
  | [] => Some ([], [])
  end.

(** What may follow a field in a file: nothing, a comma or a line break. *)
Definition field_end (rest : str) : Prop :=
  match rest with
  | [] => True
  | c :: _ => is_delimiter c = true
  end.

(** Reads one record: fields separated by commas, up to a line break or
    the end of the text.  [None]: a quoted field is not closed or is
    followed by text, or the fuel ran out. *)
Fixpoint parse_record (fuel : nat) (s : str) : option (list str * str) :=
  match fuel with
  | O => None
  | S fuel' =>
      match parse_field s with
      | None => None
      | Some (f, rest) =>
          match rest with
          | [] => Some ([f], [])
          | c :: rest' =>
              if Ascii.eqb c COMMA then
                match parse_record fuel' rest' with
                | Some (fs, r) => Some (f :: fs, r)
                | None => None
                end
              else if is_delimiter c then Some ([f], rest)
              else None
          end
      end
  end.

(** Reads a text of records separated by line feeds, as the export
    writes them. *)
Fixpoint parse_file (fuel : nat) (s : str) : option (list (list str)) :=
  match fuel with
  | O => None
  | S fuel' =>
      match parse_record (S (List.length s)) s with
      | None => None
      | Some (fs, rest) =>
          match rest with
          | [] => Some [fs]
          | c :: rest' =>
              if Ascii.eqb c LF then
                match parse_file fuel' rest' with
                | Some rs => Some (fs :: rs)
                | None => None
                end
              else None
          end
      end
  end.

End Rfc4180.


(* ================================================================== *)
(** * Objects and exceptions *)
(* ================================================================== *)

(** Job objects live in a store and are passed around by reference, so that
    an assignment to a member is visible through every reference to the
    object.  A computation transforms the store and returns or throws; the
    changes made before an exception was thrown persist. *)
Module Store.

Definition ref := nat.
Definition heap := list JobData.

Definition M (A : Type) : Type := heap -> completion A * heap.

Definition ret {A} (a : A) : M A := fun h => (Returned a, h).

Definition bind {A B} (m : M A) (f : A -> M B) : M B :=
  fun h =>
    match m h with
    | (Returned a, h') => f a h'
    | (Thrown e, h') => (Thrown e, h')
    end.

(** [try { body } catch (error) { handler }] *)
Definition try_catch {A} (body : M A) (handler : str -> M A) : M A :=
  fun h =>
    match body h with
    | (Returned a, h') => (Returned a, h')
    | (Thrown e, h') => handler e h'
    end.

(** A call into the document or the clock, which returns or throws. *)
Definition lift {A} (p : completion A) : M A := fun h => (p, h).

Fixpoint update (r : ref) (f : JobData -> JobData) (h : heap) : heap :=
  match h, r with
  | [], _ => []
  | j :: h', O => f j :: h'
  | j :: h', S r' => j :: update r' f h'
  end.

(** [obj.member = v], with [f] the assignment. *)
Definition assign (r : ref) (f : JobData -> JobData) : M unit :=
  fun h => (Returned tt, update r f h).

(** Reading the object behind a reference. *)
Definition deref (r : ref) : M JobData :=
  fun h =>
    match nth_error h r with
    | Some j => (Returned j, h)
    | None => (Thrown (lit "TypeError"), h)
    end.

(** [{ ...obj }]: a new object with the members of [obj]. *)
Definition spread (r : ref) : M ref :=
  fun h =>
    match nth_error h r with
    | Some j => (Returned (List.length h), h ++ [j])
    | None => (Thrown (lit "TypeError"), h)
    end.

Definition when (b : bool) (m : M unit) : M unit := if b then m else ret tt.

(** [items.forEach(f)] *)
Fixpoint for_each {A} (items : list A) (f : A -> M unit) : M unit :=
  match items with
  | [] => ret tt
  | x :: rest => bind (f x) (fun _ => for_each rest f)
  end.

Declare Scope store_scope.
Delimit Scope store_scope with store.
Notation "x <- c1 ;; c2" := (bind c1 (fun x => c2))
  (at level 61, c1 at next level, right associativity) : store_scope.
Notation "c1 ;; c2" := (bind c1 (fun _ => c2))
  (at level 61, right associativity) : store_scope.

End Store.

(* ================================================================== *)
(** * Content script: the scraper *)
(* ================================================================== *)

(** [class LinkedInJobScraper].  Console output, the floating button and the
    on-page notices are not modelled. *)
Module Scraper.

Import Regex JsNumber.

Definition JOBS_PER_PAGE : Z := 25.
Definition MAX_LOW_YIELD_PAGES : Z := 3.

(** The fields [jobs] and [isScrapingActive]. *)
Record State := mkState {
  jobs : list JobData;
  isScrapingActive : bool
}.

(** What the scraper reads from the current document outside of cards: the
    location, and the results of the [document.querySelector] probes (the
    text content of the element found, [None] when there is none). *)
Record Page := mkPage {
  pathname : str;                    (* window.location.pathname *)
  href : str;                        (* window.location.href *)
  startParam : option str;           (* URLSearchParams(search).get('start') *)
  jobs_search_results : bool;        (* '.jobs-search-results' exists *)
  results_list : bool;               (* 'ul[class*=nCeEmjy...]' exists *)
  job_details : bool;                (* '.job-details' exists *)
  resultsElement : option str;
  pageStateElement : option str;
  (* the stand-alone detail page *)
  titleElement : option str;
  companyElement : option str;
  locationElement : option str;
  descriptionElement : option str;
  salaryElement : option str
}.

(** The clock: [new Date()] and the offset of local time. *)
Record Clock := mkClock {
  now : Z;
  tza : Z
}.

(** ** Page classification *)

Definition isJobSearchPage (p : Page) : bool :=
  includes (lit "/jobs/search") (pathname p) ||
  jobs_search_results p || results_list p.

Definition isJobDetailPage (p : Page) : bool :=
  includes (lit "/jobs/view/") (pathname p) || job_details p.

(** ** Pagination *)

Record PaginationInfo := mkPagination {
  currentPage : num;
  totalPages : num;
  totalResults : num;
  calculatedPages : Z
}.

(** [el?.textContent?.trim() || ''] *)
Definition text_or_empty (el : option str) : str :=
  match el with
  | Some t => or_else (trim t) []
  | None => []
  end.

(** The pattern [( \d{1,3} (?: , \d{3} )* ) \s* results?] with flag [i]. *)
Definition results_re : re :=
  Seq (Group 1 (Seq digit (Seq (Opt digit) (Seq (Opt digit)
                 (Star (Seq (Chr ",") (Seq digit (Seq digit digit))))))))
      (Seq (Star space) (Seq (LitI "result") (Opt (ChrI "s")))).

(** [/Page\s+(\d+)\s+of\s+(\d+)/i] *)
Definition page_state_re : re :=
  Seq (LitI "Page") (Seq (Plus space) (Seq (Group 1 (Plus digit))
      (Seq (Plus space) (Seq (LitI "of") (Seq (Plus space)
           (Group 2 (Plus digit))))))).

(** [m[i]] of a successful match. *)
Definition nth_group (i : nat) (m : Match) : str :=
  match group i m with
  | Some s => s
  | None => []
  end.

(** [s.replace(/,/g, '')] *)
Definition remove_commas (s : str) : str :=
  filter (fun c => negb (Ascii.eqb c COMMA)) s.

(** [getPaginationInfo].  The arithmetic is exact; it is that of the
    source for numbers read from the document that are below 2^40 in
    magnitude. *)
Definition getPaginationInfo (p : Page) : PaginationInfo :=
  let resultsText := text_or_empty (resultsElement p) in
  let resultsMatch := exec results_re resultsText in
  let totalResults : num :=
    match resultsMatch with
    | Some m => parseInt (remove_commas (nth_group 1 m))
    | None => Some 0
    end in
  let calculatedPages : Z :=
    match totalResults with
    | Some n => if n >? 0 then ceil_quot n JOBS_PER_PAGE else 1
    | None => 1
    end in
  let currentPageFromUrl : num :=
    match startParam p with
    | Some s => if truthy s
                then add (floor_div (parseInt s) JOBS_PER_PAGE) 1
                else Some 1
    | None => Some 1
    end in
  let pageStateText := text_or_empty (pageStateElement p) in
  let pageMatch := exec page_state_re pageStateText in
  let displayedTotalPages : num :=
    match pageMatch with
    | Some m => parseInt (nth_group 2 m)
    | None => Some calculatedPages
    end in
  let currentPage := currentPageFromUrl in
  let totalPages := JsNumber.max (Some calculatedPages) displayedTotalPages in
  {| currentPage := currentPage;
     totalPages := totalPages;
     totalResults := totalResults;
     calculatedPages := calculatedPages |}.

(** ** Text cleaning and relative dates *)

(** [cleanText] *)
Definition cleanText (text : str) : str :=
  if truthy text
  then substring0 2000
         (replace_char_runs TAB
            (replace_char_runs LF (replace_ws_runs (trim text))))
  else [].

(** [s.toLowerCase()] on 8-bit code units. *)
Definition lower (c : ascii) : ascii :=
  let n := N_of_ascii c in
  if ((65 <=? n) && (n <=? 90) ||
      (192 <=? n) && (n <=? 222) && negb (n =? 215))%N
  then ascii_of_N (n + 32) else c.

Definition toLowerCase (s : str) : str := map lower s.

(** [/(\d+)\s*(hour|day|week|month|year)s?\s*ago/] *)
Definition relative_date_re : re :=
  Seq (Group 1 (Plus digit))
      (Seq (Star space)
           (Seq (Group 2 (Alt (Lit "hour") (Alt (Lit "day") (Alt (Lit "week")
                           (Alt (Lit "month") (Lit "year"))))))
                (Seq (Opt (Chr "s")) (Seq (Star space) (Lit "ago"))))).

(** The [switch (unit)] of [convertRelativeDateToISO]: the date moved back
    by [amount] units; [None] in the first component is the [default]
    branch.  A setter called with [NaN] invalidates the date. *)
Definition move_back (c : Clock) (unit : str) (amount : num)
  : option (option Z) :=
  let t := now c in
  let z := tza c in
  let set (f : Z -> option Z) : option (option Z) :=
    Some (match amount with Some a => f a | None => None end) in
  if str_eqb unit (lit "hour") then
    set (fun a => JsDate.setHours z t (JsDate.getHours z t - a))
  else if str_eqb unit (lit "day") then
    set (fun a => JsDate.setDate z t (JsDate.getDate z t - a))
  else if str_eqb unit (lit "week") then
    set (fun a => JsDate.setDate z t (JsDate.getDate z t - a * 7))
  else if str_eqb unit (lit "month") then
    set (fun a => JsDate.setMonth z t (JsDate.getMonth z t - a))
  else if str_eqb unit (lit "year") then
    set (fun a => JsDate.setFullYear z t (JsDate.getFullYear z t - a))
  else None.

(** [convertRelativeDateToISO]: [Returned None] is [undefined]. *)
Definition convertRelativeDateToISO (c : Clock) (relativeDate : str)
  : completion (option str) :=
  if truthy relativeDate then
    let lowerDate := trim (toLowerCase relativeDate) in
    match exec relative_date_re lowerDate with
    | None => Returned None
    | Some m =>
        let amount := parseInt (nth_group 1 m) in
        let unit := nth_group 2 m in
        match move_back c unit amount with
        | None => Returned None
        | Some targetDate =>
            match JsDate.toISOString targetDate with
            | Returned iso => Returned (Some iso)
            | Thrown e => Thrown e
            end
        end
    end
  else Returned None.

(** ** Extraction from a card *)

(** The link-like element carrying the title. *)
Record TitleElement := mkTitleElement {
  aria_label : option str;           (* getAttribute('aria-label') *)
  title_text : str                   (* textContent *)
}.

(** What [extractJobDataFromCard] and the detail protocol read from a card
    element: one field per probe, [None] when the probe finds nothing. *)
Record Card := mkCard {
  card_title : option TitleElement;
  card_company : option str;         (* textContent *)
  card_location : option str;
  card_link : option str;            (* href of a[href*=/jobs/view/] *)
  card_posted : option str;          (* datetime of time[datetime] *)
  card_insight : option str;
  data_job_id : option str;          (* getAttribute('data-job-id') *)
  occludable_job_id : option str;    (* attribute of the enclosing li *)
  jobLink : bool                     (* a clickable link exists *)
}.

(** [a || b] for attribute values that may be [null]. *)
Definition attr_or (a b : option str) : option str :=
  match a with
  | Some s => if truthy s then a else b
  | None => b
  end.

(** [/\/jobs\/view\/(\d+)/] *)
Definition job_view_re : re := Seq (Lit "/jobs/view/") (Group 1 (Plus digit)).

(** [/with verification$/] *)
Definition verification_re : re := Seq (Lit "with verification") End.

Definition job_view_url (id : str) : str :=
  lit "https://www.linkedin.com/jobs/view/" ++ id ++ lit "/".

Definition card_title_text (card : Card) : str :=
  match card_title card with
  | Some el =>
      or_else (match aria_label el with Some a => trim a | None => [] end)
              (or_else (replace_ws_runs (trim (title_text el))) [])
  | None => []
  end.

Definition card_url (p : Page) (card : Card) : str :=
  let dataJobId := attr_or (data_job_id card) (occludable_job_id card) in
  let url :=
    match card_link card with
    | Some link => link
    | None =>
        match dataJobId with
        | Some id =>
            if truthy id then job_view_url id
            else match exec job_view_re (href p) with
                 | Some m => job_view_url (nth_group 1 m)
                 | None => href p
                 end
        | None =>
            match exec job_view_re (href p) with
            | Some m => job_view_url (nth_group 1 m)
            | None => href p
            end
        end
    end in
  if negb (truthy url) ||
     (negb (includes (lit "linkedin.com") url) &&
      negb (startsWith (lit "https://") url))
  then href p else url.

Definition cleanTitle (card : Card) : str :=
  trim (remove_first verification_re (card_title_text card)).

(** [extractJobDataFromCard]; an exception inside is caught and gives
    [null]. *)
Definition extractJobDataFromCard (c : Clock) (p : Page) (card : Card)
  : option JobData :=
  let company := text_or_empty (card_company card) in
  let location := text_or_empty (card_location card) in
  let postedDate := opt_or_else (card_posted card) [] in
  let insight := text_or_empty (card_insight card) in
  let url := card_url p card in
  let cleanTitle := cleanTitle card in
  if negb (truthy cleanTitle) || negb (truthy company) then None
  else
    match convertRelativeDateToISO c postedDate with
    | Thrown _ => None
    | Returned iso =>
        Some {| title := cleanTitle;
                company := company;
                location := location;
                description := insight;
                salary := None; jobType := None; experience := None;
                workplaceType := None; applicantCount := None;
                companySize := None; linkedinEmployees := None;
                industry := None; followers := None; hiringInsights := None;
                benefits := None; skills := None; companyDescription := None;
                companyCommitments := None;
                url := url;
                postedDate := Some postedDate;
                postedDateISO := iso;
                scrapedAt := JsDate.iso_format (now c) |}
    end.

(** ** Extraction from the stand-alone detail page *)

Definition extractJobDataFromDetailPage (c : Clock) (p : Page)
  : option JobData :=
  let title := text_or_empty (titleElement p) in
  let company := text_or_empty (companyElement p) in
  let location := text_or_empty (locationElement p) in
  let description := text_or_empty (descriptionElement p) in
  let salary := text_or_empty (salaryElement p) in
  if negb (truthy title) || negb (truthy company) then None
  else
    Some {| title := title;
            company := company;
            location := location;
            description := description;
            salary := Some salary;
            jobType := None; experience := None;
            workplaceType := None; applicantCount := None;
            companySize := None; linkedinEmployees := None;
            industry := None; followers := None; hiringInsights := None;
            benefits := None; skills := None; companyDescription := None;
            companyCommitments := None;
            url := href p;
            postedDate := None;
            postedDateISO := None;
            scrapedAt := JsDate.iso_format (now c) |}.

(** ** The session record set *)

(** [isDuplicateJob] *)
Definition isDuplicateJob (jobs : list JobData) (newJob : JobData) : bool :=
  existsb (fun job => same_listing job newJob) jobs.

(** [scrapeJobDetail] *)
Definition scrapeJobDetail (c : Clock) (p : Page) (st : State) : State :=
  match extractJobDataFromDetailPage c p with
  | Some jobData =>
      if negb (isDuplicateJob (jobs st) jobData)
      then {| jobs := jobs st ++ [jobData];
              isScrapingActive := isScrapingActive st |}
      else st
  | None => st
  end.

(** [scrapeJobListings], the pass started by the change watcher: the cards
    of the document in order, without enrichment. *)
Definition scrapeJobListings (c : Clock) (p : Page) (jobCards : list Card)
  (st : State) : State :=
  fold_left
    (fun st card =>
       match extractJobDataFromCard c p card with
       | Some jobData =>
           if negb (isDuplicateJob (jobs st) jobData)
           then {| jobs := jobs st ++ [jobData];
                   isScrapingActive := isScrapingActive st |}
           else st
       | None => st
       end)
    jobCards st.

(** ** The detail protocol *)

Import Store.
Open Scope store_scope.

(** The "About the company" section of the detail panel. *)
Record CompanySection := mkCompanySection {
  company_name : completion (option str);
  company_followers : completion (option str);
  company_info : completion (option str);
  inline_information : completion (list str);
  company_description : completion (option (option str * str));
  alt_description : completion (option str);
  commitments : completion (option (list str * list str))
}.

(** The detail panel: the outcome of each probe of [extractDetailedJobInfo],
    in the order in which they are made.  A probe returns the text content
    of what it found, or throws. *)
Record DetailPanel := mkDetailPanel {
  detail_title : completion (option str);
  detail_company : completion (option str);
  tertiary_spans : completion (option (list str));
  preference_buttons : completion (option (list str));
  detail_description : completion (option str);
  company_section : completion (option CompanySection);
  insight_stats : completion (option (list (option str * option str)));
  detail_salary : completion (option str)
}.

(** What happens when the scraper acts on one card. *)
Record CardAction := mkCardAction {
  scrollIntoView : completion unit;
  click : completion unit;
  waitForJobDetails : completion unit;
  detailsContainer : completion (option DetailPanel)
}.

(** [if (el && el.textContent?.trim()) job.member = cleanText(el.textContent)] *)
Definition assign_clean (e : ref) (set : str -> JobData -> JobData)
  (el : option str) : M unit :=
  match el with
  | Some t => when (truthy (trim t)) (assign e (set (cleanText t)))
  | None => ret tt
  end.

Definition truthy_opt (v : option str) : bool :=
  match v with
  | Some s => truthy s
  | None => false
  end.

(** One caption fragment of the tertiary description. *)
Definition tertiary_span (c : Clock) (e : ref) (raw : str) : M unit :=
  let text := trim raw in
  when (truthy text)
    (when (includes (lit "Territory") text || includes (lit "State") text ||
           includes (lit "City") text ||
           (includes (lit ",") text && negb (includes (lit "ago") text) &&
            negb (includes (lit "applicant") text)))
       (assign e (set_location (cleanText text))) ;;
     when (includes (lit "ago") text)
       (assign e (set_postedDate (Some (cleanText text))) ;;
        iso <- lift (convertRelativeDateToISO c text) ;;
        assign e (set_postedDateISO iso)) ;;
     when (includes (lit "applicant") text)
       (assign e (set_applicantCount (Some (cleanText text))))).

Definition preference_button (e : ref) (raw : str) : M unit :=
  let text := trim raw in
  when (truthy text)
    (when (includes (lit "On-site") text || includes (lit "Remote") text ||
           includes (lit "Hybrid") text)
       (assign e (set_workplaceType (Some (cleanText text)))) ;;
     when (includes (lit "Full-time") text || includes (lit "Part-time") text ||
           includes (lit "Contract") text || includes (lit "Internship") text)
       (assign e (set_jobType (Some (cleanText text))))).

Definition skillsKeywords : list str :=
  map lit ["Skills:"; "Technologies:"; "Requirements:"; "Technical Skills:"]%string.

(** [s.substring(s.indexOf(needle))] when [needle] occurs in [s]. *)
Fixpoint suffix_from (needle s : str) : str :=
  if startsWith needle s then s
  else match s with
       | [] => []
       | _ :: s' => suffix_from needle s'
       end.

(** [s.split(c)] *)
Fixpoint split_on (c : ascii) (s : str) : list str :=
  match s with
  | [] => [[]]
  | x :: s' =>
      if Ascii.eqb x c then [] :: split_on c s'
      else match split_on c s' with
           | w :: ws => (x :: w) :: ws
           | [] => [[x]]
           end
  end.

Definition description_step (e : ref) (el : option str) : M unit :=
  match el with
  | Some t =>
      when (truthy (trim t))
        (let description := cleanText t in
         match find (fun keyword => includes keyword description) skillsKeywords with
         | Some keyword =>
             let skillsSection := firstn 500 (suffix_from keyword description) in
             let lines := firstn 3 (split_on LF skillsSection) in
             assign e (set_skills (Some (cleanText (join [SPACE] lines))))
         | None => ret tt
         end ;;
         assign e (set_description description))
  | None => ret tt
  end.

(** The pattern [\s+ (?= \d+-\d+\s+employees | \d+\s+employees )]. *)
Definition industry_re : re :=
  Seq (Plus space)
      (Look (Alt (Seq (Plus digit) (Seq (Chr "-") (Seq (Plus digit)
                   (Seq (Plus space) (Lit "employees")))))
                 (Seq (Plus digit) (Seq (Plus space) (Lit "employees"))))).

Fixpoint commitment_lines (types descs : list str) : list str :=
  match types with
  | [] => []
  | t :: ts =>
      let typeText := trim t in
      let descText := match descs with d :: _ => trim d | [] => [] end in
      (if truthy typeText
       then [if truthy descText then typeText ++ lit ": " ++ descText
             else typeText]
       else []) ++ commitment_lines ts (tl descs)
  end.

Definition insight_lines (stats : list (option str * option str)) : list str :=
  flat_map
    (fun stat =>
       match stat with
       | (Some percentage, Some description) =>
           let percentText := trim percentage in
           let descText := trim description in
           if truthy percentText && truthy descText
           then [percentText ++ lit " " ++ descText] else []
       | _ => []
       end)
    stats.

Definition nonempty {A} (l : list A) : bool :=
  match l with [] => false | _ :: _ => true end.

Definition company_step (e : ref) (s : CompanySection) : M unit :=
  name <- lift (company_name s) ;;
  assign_clean e set_company name ;;
  fol <- lift (company_followers s) ;;
  match fol with
  | Some t => when (includes (lit "followers") t)
                (assign e (set_followers (Some (cleanText t))))
  | None => ret tt
  end ;;
  info <- lift (company_info s) ;;
  match info with
  | Some t =>
      when (truthy (trim t))
        (let infoText := trim t in
         let industryMatch := split_head industry_re infoText in
         when (truthy industryMatch && truthy (trim industryMatch))
           (assign e (set_industry (Some (cleanText industryMatch)))) ;;
         spans <- lift (inline_information s) ;;
         match spans with
         | employeeSpan :: _ =>
             when (includes (lit "employees") employeeSpan)
               (assign e (set_companySize (Some (cleanText employeeSpan))))
         | [] => ret tt
         end ;;
         linkedinMembersSpans <- lift (inline_information s) ;;
         match linkedinMembersSpans with
         | _ :: second :: _ =>
             let linkedinMembersText := trim second in
             when (truthy linkedinMembersText &&
                   includes (lit "LinkedIn") linkedinMembersText)
               (assign e (set_linkedinEmployees
                            (Some (cleanText linkedinMembersText))))
         | _ => ret tt
         end)
  | None => ret tt
  end ;;
  descr <- lift (company_description s) ;;
  match descr with
  | Some (descriptionDiv, own) =>
      match descriptionDiv with
      | Some inner =>
          if truthy (trim inner)
          then assign e (set_companyDescription (Some (cleanText inner)))
          else when (truthy (trim own))
                 (assign e (set_companyDescription (Some (cleanText own))))
      | None =>
          when (truthy (trim own))
            (assign e (set_companyDescription (Some (cleanText own))))
      end
  | None => ret tt
  end ;;
  current <- deref e ;;
  when (negb (truthy_opt (companyDescription current)))
    (alt <- lift (alt_description s) ;;
     assign_clean e (fun v => set_companyDescription (Some v)) alt) ;;
  cm <- lift (commitments s) ;;
  match cm with
  | Some (types, descs) =>
      let lines := commitment_lines types descs in
      when (nonempty lines)
        (assign e (set_companyCommitments (Some (join (lit "; ") lines))))
  | None => ret tt
  end.

(** The body of the [try] of [extractDetailedJobInfo]. *)
Definition extractDetailedJobInfo_try (c : Clock) (a : CardAction)
  (basicData : ref) : M ref :=
  container <- lift (detailsContainer a) ;;
  match container with
  | None => ret basicData
  | Some d =>
      enhancedData <- spread basicData ;;
      t <- lift (detail_title d) ;;
      assign_clean enhancedData set_title t ;;
      co <- lift (detail_company d) ;;
      assign_clean enhancedData set_company co ;;
      tertiary <- lift (tertiary_spans d) ;;
      match tertiary with
      | Some spans => for_each spans (tertiary_span c enhancedData)
      | None => ret tt
      end ;;
      prefs <- lift (preference_buttons d) ;;
      match prefs with
      | Some buttons => for_each buttons (preference_button enhancedData)
      | None => ret tt
      end ;;
      descr <- lift (detail_description d) ;;
      description_step enhancedData descr ;;
      cs <- lift (company_section d) ;;
      match cs with
      | Some s => company_step enhancedData s
      | None => ret tt
      end ;;
      ins <- lift (insight_stats d) ;;
      match ins with
      | Some stats =>
          let insights := insight_lines stats in
          when (nonempty insights)
            (assign enhancedData
               (set_hiringInsights (Some (join (lit "; ") insights))))
      | None => ret tt
      end ;;
      sal <- lift (detail_salary d) ;;
      assign_clean enhancedData (fun v => set_salary (Some v)) sal ;;
      ret enhancedData
  end.

(** [extractDetailedJobInfo] *)
Definition extractDetailedJobInfo (c : Clock) (a : CardAction)
  (basicData : ref) : M ref :=
  try_catch (extractDetailedJobInfo_try c a basicData)
            (fun _ => ret basicData).

(** The body of the [try] of [clickAndExtractJobDetails]. *)
Definition clickAndExtractJobDetails_try (c : Clock) (card : Card)
  (a : CardAction) (basicData : ref) : M ref :=
  if jobLink card then
    lift (scrollIntoView a) ;;
    lift (click a) ;;
    lift (waitForJobDetails a) ;;
    extractDetailedJobInfo c a basicData
  else ret basicData.

(** [clickAndExtractJobDetails] *)
Definition clickAndExtractJobDetails (c : Clock) (card : Card)
  (a : CardAction) (basicData : ref) : M ref :=
  try_catch (clickAndExtractJobDetails_try c card a basicData)
            (fun _ => ret basicData).

(** The protocol applied to a freshly extracted basic record: the record
    behind the reference it returns; [None] stands for [null]. *)
Definition enrich (c : Clock) (card : Card) (a : CardAction)
  (basic : JobData) : option JobData :=
  match clickAndExtractJobDetails c card a 0%nat [basic] with
  | (Returned r, h) => nth_error h r
  | (Thrown _, _) => None
  end.

Close Scope store_scope.

(** ** Walking the cards of a page *)

(** One card as met by the walk: the value of [isScrapingActive] when its
    turn comes, the card, and what acting on it does. *)
Record CardVisit := mkCardVisit {
  active_at_card : bool;
  visit_card : Card;
  visit_action : CardAction
}.

(** [processJobCardDetailed]: the record set afterwards and the result,
    [true] (new), [false] (duplicate) or [null]. *)
Definition processJobCardDetailed (c : Clock) (p : Page) (v : CardVisit)
  (jobs : list JobData) : list JobData * option bool :=
  match extractJobDataFromCard c p (visit_card v) with
  | None => (jobs, None)
  | Some basicJobData =>
      if isDuplicateJob jobs basicJobData then (jobs, Some false)
      else
        match enrich c (visit_card v) (visit_action v) basicJobData with
        | Some detailedJobData => (jobs ++ [detailedJobData], Some true)
        | None => (jobs, None)
        end
  end.

Record CardCounts := mkCardCounts {
  newJobsFound : Z;
  duplicatesSkipped : Z
}.

Fixpoint card_loop (c : Clock) (p : Page) (visits : list CardVisit)
  (jobs : list JobData) (n : CardCounts) : list JobData * CardCounts :=
  match visits with
  | [] => (jobs, n)
  | v :: rest =>
      if active_at_card v then
        let (jobs', wasNewJob) := processJobCardDetailed c p v jobs in
        let n' :=
          match wasNewJob with
          | Some true => {| newJobsFound := newJobsFound n + 1;
                            duplicatesSkipped := duplicatesSkipped n |}
          | Some false => {| newJobsFound := newJobsFound n;
                             duplicatesSkipped := duplicatesSkipped n + 1 |}
          | None => n
          end in
        card_loop c p rest jobs' n'
      else (jobs, n)
  end.

(** [scrapeJobListingsDetailed], after the lazy loading: the cards then
    present are walked in document order. *)
Definition scrapeJobListingsDetailed (c : Clock) (p : Page)
  (visits : list CardVisit) (jobs : list JobData) : list JobData * CardCounts :=
  card_loop c p visits jobs {| newJobsFound := 0; duplicatesSkipped := 0 |}.

(** ** Lazy loading *)

(** What one turn of the scroll loop observes. *)
Record ScrollRead := mkScrollRead {
  scroll_active : bool;       (* isScrapingActive at the loop test *)
  currentJobCount : Z;        (* number of cards in the container *)
  pagination_reached : bool   (* the pagination control exists and its top
                                 is less than 100 px below the container *)
}.

Inductive ScrollExit :=
| AttemptsExhausted     (* scrollAttempts < maxScrollAttempts is false *)
| ScrollCancelled       (* isScrapingActive is false *)
| ReachedPagination
| CountStabilized
| ScrollFuel.           (* the model ran out of fuel *)

Definition maxScrollAttempts : nat := 20.

Record ScrollState := mkScrollState {
  scrollAttempts : nat;
  previousJobCount : Z;
  stableCount : Z
}.

(** The [while] loop of [triggerLazyLoadingOfAllJobs].  The turn that
    starts with [scrollAttempts = i] observes [reads i].  Result: the number
    of turns whose body was entered, and how the loop ended. *)
Fixpoint scroll_loop (fuel : nat) (reads : nat -> ScrollRead)
  (st : ScrollState) : nat * ScrollExit :=
  match fuel with
  | O => (scrollAttempts st, ScrollFuel)
  | S fuel' =>
      let r := reads (scrollAttempts st) in
      if (scrollAttempts st <? maxScrollAttempts)%nat then
        if scroll_active r then
          if pagination_reached r then (S (scrollAttempts st), ReachedPagination)
          else if currentJobCount r =? previousJobCount st then
            if stableCount st + 1 >=? 3
            then (S (scrollAttempts st), CountStabilized)
            else scroll_loop fuel' reads
                   {| scrollAttempts := S (scrollAttempts st);
                      previousJobCount := currentJobCount r;
                      stableCount := stableCount st + 1 |}
          else scroll_loop fuel' reads
                 {| scrollAttempts := S (scrollAttempts st);
                    previousJobCount := currentJobCount r;
                    stableCount := 0 |}
        else (scrollAttempts st, ScrollCancelled)
      else (scrollAttempts st, AttemptsExhausted)
  end.

(** [triggerLazyLoadingOfAllJobs]; [None]: no scrollable container was
    found and nothing is scrolled. *)
Definition triggerLazyLoadingOfAllJobs (container_found : bool)
  (reads : nat -> ScrollRead) : option (nat * ScrollExit) :=
  if container_found
  then Some (scroll_loop (S maxScrollAttempts) reads
               {| scrollAttempts := 0; previousJobCount := 0; stableCount := 0 |})
  else None.

(** ** Walking the pages *)

(** [navigateToNextPage]: refuses on the last page; an exception while the
    location is rewritten is caught and gives [false]. *)
Definition navigateToNextPage (p : Page) (location_throws : bool) : bool :=
  let info := getPaginationInfo p in
  if geb (currentPage info) (totalPages info) then false
  else negb location_throws.

(** What one turn of the page loop meets. *)
Record PageRound := mkPageRound {
  round_page : Page;               (* the document while cards are walked *)
  visits : list CardVisit;         (* the cards after lazy loading *)
  active_after_page : bool;        (* isScrapingActive at the navigation test *)
  page_at_navigation : Page;
  location_throws : bool;
  active_at_next_test : bool       (* isScrapingActive at the next loop test *)
}.

Inductive PagesExit :=
| LoopTestFailed        (* currentPage <= totalPages && active is false *)
| LowYieldAbort         (* MAX_LOW_YIELD_PAGES consecutive low-yield pages *)
| NavigationFailed
| NoNextPage            (* last page, or cancelled: the final [else] *)
| PagesFuel.            (* the model ran out of fuel *)

(** One line of the run's journal: the page, the number of records it
    added, and the counter after it. *)
Record PageLog := mkPageLog {
  log_page : Z;
  newJobsThisPage : Z;
  lowYieldAfter : Z
}.

(** The [while] loop of [scrapeAllPages]; turn [i] meets [rounds i].  The
    page number is advanced exactly, as the source does for page numbers
    below 2^53. *)
Fixpoint pages_loop (fuel : nat) (c : Clock) (rounds : nat -> PageRound)
  (i : nat) (totalPages : num) (currentPage : Z)
  (consecutiveLowYieldPages : Z) (jobs : list JobData) (active : bool)
  : list PageLog * PagesExit * list JobData :=
  match fuel with
  | O => ([], PagesFuel, jobs)
  | S fuel' =>
      if leb (Some currentPage) totalPages && active then
        let r := rounds i in
        let jobsBeforePage := Z.of_nat (List.length jobs) in
        let jobs' := fst (scrapeJobListingsDetailed c (round_page r) (visits r) jobs) in
        let newJobsThisPage := Z.of_nat (List.length jobs') - jobsBeforePage in
        let low := if newJobsThisPage <? 5
                   then consecutiveLowYieldPages + 1 else 0 in
        let entry := {| log_page := currentPage;
                        newJobsThisPage := newJobsThisPage;
                        lowYieldAfter := low |} in
        if (newJobsThisPage <? 5) && (low >=? MAX_LOW_YIELD_PAGES)
        then ([entry], LowYieldAbort, jobs')
        else if ltb (Some currentPage) totalPages && active_after_page r then
          if navigateToNextPage (page_at_navigation r) (location_throws r) then
            match pages_loop fuel' c rounds (S i) totalPages (currentPage + 1)
                             low jobs' (active_at_next_test r) with
            | (log, exit, final) => (entry :: log, exit, final)
            end
          else ([entry], NavigationFailed, jobs')
        else ([entry], NoNextPage, jobs')
      else ([], LoopTestFailed, jobs)
  end.

(** Enough fuel for the pages from [currentPage] to [totalPages]. *)
Definition pages_fuel (totalPages : num) (currentPage : Z) : nat :=
  match totalPages with
  | Some t => S (Z.to_nat (t + 1 - currentPage))
  | None => 1%nat
  end.

(** [scrapeAllPages], started on the document [p]. *)
Definition scrapeAllPages (c : Clock) (p : Page) (rounds : nat -> PageRound)
  (st : State) : list PageLog * PagesExit * list JobData :=
  let paginationInfo := getPaginationInfo p in
  match currentPage paginationInfo with
  | Some currentPage =>
      pages_loop (pages_fuel (totalPages paginationInfo) currentPage)
                 c rounds 0%nat (totalPages paginationInfo) currentPage 0
                 (jobs st) (isScrapingActive st)
  | None => ([], LoopTestFailed, jobs st)
  end.

(** ** Commands *)

(** The part of [startScraping] that runs before its first suspension: the
    session is reset; on a detail page the single extraction is done. *)
Definition startScraping (c : Clock) (p : Page) (st : State) : State :=
  let st1 := {| jobs := []; isScrapingActive := true |} in
  if isJobSearchPage p then st1
  else if isJobDetailPage p then scrapeJobDetail c p st1
  else st1.

(** [stopScraping]: the new state and the request sent to the background
    script, if any. *)
Definition stopScraping (st : State) : State * option Bus.Message :=
  ({| jobs := jobs st; isScrapingActive := false |},
   match jobs st with
   | [] => None
   | _ :: _ => Some {| Bus.action := VString (lit "SAVE_JOBS");
                       Bus.jobs := Some (jobs st) |}
   end).


(** The [chrome.runtime.onMessage] listener of [setupMessageListener]. *)
Definition onMessage (c : Clock) (p : Page) (st : State)
  (message : Bus.Message) : State * Bus.Response * option Bus.Message :=
  if Bus.action_is message "START_SCRAPING" then
    (startScraping c p st,
     {| Bus.success := Some true; Bus.error := None;
        Bus.resp_jobs := None; Bus.jobCount := None |}, None)
  else if Bus.action_is message "STOP_SCRAPING" then
    (fst (stopScraping st),
     {| Bus.success := Some true; Bus.error := None;
        Bus.resp_jobs := None; Bus.jobCount := None |},
     snd (stopScraping st))
  else if Bus.action_is message "GET_SCRAPED_JOBS" then
    (st,
     {| Bus.success := None; Bus.error := None;
        Bus.resp_jobs := Some (jobs st); Bus.jobCount := None |}, None)
  else
    (st,
     {| Bus.success := Some false; Bus.error := Some (lit "Unknown action");
        Bus.resp_jobs := None; Bus.jobCount := None |}, None).

(** ** Waiting for the document *)

(** The polling of [waitForPageLoad] and of [waitForJobDetails]:
    [ready k] is what the check number [k] finds, [elapsed] the time
    counted so far.  The result is the number of checks made and whether
    the last one found the document ready; the promise is resolved in both
    cases.  [None]: the model ran out of fuel. *)
Fixpoint poll (fuel : nat) (maxWaitTime checkInterval : Z)
  (ready : nat -> bool) (checks : nat) (elapsed : Z) : option (nat * bool) :=
  match fuel with
  | O => None
  | S fuel' =>
      if ready checks then Some (S checks, true)
      else
        let elapsed := (elapsed + checkInterval)%Z in
        if (elapsed >=? maxWaitTime)%Z then Some (S checks, false)
        else poll fuel' maxWaitTime checkInterval ready (S checks) elapsed
  end.

(** [waitForPageLoad]: ready when cards and the page indicator are there. *)
Definition waitForPageLoad_checks (fuel : nat) (ready : nat -> bool)
  : option (nat * bool) :=
  poll fuel 10000 500 ready 0 0.

(** [waitForJobDetails]: ready when a detail panel is there. *)
Definition waitForJobDetails_checks (fuel : nat) (ready : nat -> bool)
  : option (nat * bool) :=
  poll fuel 8000 300 ready 0 0.

(** ** The offset of the next page *)

(** [nextStartParam] of [navigateToNextPage]. *)
Definition nextStartParam (p : Page) : num :=
  let nextPage := add (currentPage (getPaginationInfo p)) 1 in
  option_map (fun n => (n - 1) * JOBS_PER_PAGE)%Z nextPage.

End Scraper.
(* ================================================================== *)
(** * Vocabulary of the statements *)
(* ================================================================== *)

(** The decimal numeral of a natural number, without leading zeros. *)
Definition decimal (n : N) : str :=
  lit (NilZero.string_of_uint (N.to_uint n)).

(** Shape of a normalised field: no white space at either end, every white
    space character is a plain space, and spaces never come in pairs. *)
Fixpoint single_spaced (s : str) : bool :=
  match s with
  | c :: (d :: _) as s' => negb (is_space c && is_space d) && single_spaced s'
  | _ => true
  end.

Definition only_plain_spaces (s : str) : bool :=
  forallb (fun c => negb (is_space c) || Ascii.eqb c SPACE) s.

Definition normalised (s : str) : bool :=
  negb (is_space (hd COMMA s)) && negb (is_space (last s COMMA)) &&
  only_plain_spaces s && single_spaced s.

(** The black (non white space) characters of a string, in order. *)
Definition black (s : str) : str := filter (fun c => negb (is_space c)) s.

(** The sample of the design document: a description with a comma, a double
    quote and a line break. *)
Definition C4_sample : str := lit "a,b" ++ [QUOTE; LF] ++ lit "c".


(** Two pushes of the same listing, differing in the description only. *)
Definition C1_job (description : string) : JobData :=
  {| title := lit "Engineer"; company := lit "Acme";
     location := lit "Berlin"; description := lit description;
     salary := None; jobType := None; experience := None;
     workplaceType := None; applicantCount := None; companySize := None;
     linkedinEmployees := None; industry := None; followers := None;
     hiringInsights := None; benefits := None; skills := None;
     companyDescription := None; companyCommitments := None;
     url := lit "https://www.linkedin.com/jobs/view/1/";
     postedDate := None; postedDateISO := None;
     scrapedAt := lit "2024-03-31T00:00:00.000Z" |}.

(** A host on which every call succeeds. *)
Definition quiet_host : Background.Host :=
  {| Background.storage_set := Returned tt;
     Background.storage_remove := Returned tt;
     Background.download := Returned tt;
     Background.now := 1711843200000 |}.

Definition empty_store : Background.State :=
  {| Background.scrapedJobs := []; Background.linkedinJobs := None |}.

(** No two records of a set share the identity key. *)
Definition distinct_keys (l : list JobData) : Prop :=
  NoDup (map identity_key l).

(** A document that differs from [p] in one probe. *)
Definition with_startParam (v : option str) (p : Scraper.Page) : Scraper.Page :=
  {| Scraper.pathname := Scraper.pathname p;
     Scraper.href := Scraper.href p;
     Scraper.startParam := v;
     Scraper.jobs_search_results := Scraper.jobs_search_results p;
     Scraper.results_list := Scraper.results_list p;
     Scraper.job_details := Scraper.job_details p;
     Scraper.resultsElement := Scraper.resultsElement p;
     Scraper.pageStateElement := Scraper.pageStateElement p;
     Scraper.titleElement := Scraper.titleElement p;
     Scraper.companyElement := Scraper.companyElement p;
     Scraper.locationElement := Scraper.locationElement p;
     Scraper.descriptionElement := Scraper.descriptionElement p;
     Scraper.salaryElement := Scraper.salaryElement p |}.



(** A search page showing "137 results" at offset 75, no page indicator. *)
Definition C2_page : Scraper.Page :=
  {| Scraper.pathname := lit "/jobs/search/";
     Scraper.href := lit "https://www.linkedin.com/jobs/search/?start=75";
     Scraper.startParam := Some (lit "75");
     Scraper.jobs_search_results := true;
     Scraper.results_list := false;
     Scraper.job_details := false;
     Scraper.resultsElement := Some (lit "137 results");
     Scraper.pageStateElement := None;
     Scraper.titleElement := None;
     Scraper.companyElement := None;
     Scraper.locationElement := None;
     Scraper.descriptionElement := None;
     Scraper.salaryElement := None |}.

(** ** The journal of a run over the pages *)

(** A page that added fewer than 5 records. *)
Definition low_yield (e : Scraper.PageLog) : bool :=
  (Scraper.newJobsThisPage e <? 5)%Z.

(** The counter follows the rule: one more after a low-yield page, zero
    after any other page. *)
Fixpoint counter_rule (before : Z) (log : list Scraper.PageLog) : Prop :=
  match log with
  | [] => True
  | e :: rest =>
      Scraper.lowYieldAfter e = (if low_yield e then before + 1 else 0)%Z /\
      counter_rule (Scraper.lowYieldAfter e) rest
  end.

Fixpoint final_entry (log : list Scraper.PageLog) : option Scraper.PageLog :=
  match log with
  | [] => None
  | e :: rest => match rest with [] => Some e | _ :: _ => final_entry rest end
  end.

(** Pages [k], [k+1] and [k+2] of the journal are low-yield pages. *)
Definition three_low_from (k : nat) (log : list Scraper.PageLog) : bool :=
  match skipn k log with
  | e1 :: e2 :: e3 :: _ => low_yield e1 && low_yield e2 && low_yield e3
  | _ => false
  end.

(** The clock and the session at the start of the sample runs. *)
Definition C3_clock : Scraper.Clock :=
  {| Scraper.now := 1711843200000; Scraper.tza := 0 |}.

Definition C3_start : Scraper.State :=
  {| Scraper.jobs := []; Scraper.isScrapingActive := true |}.

(** ** Observations of the scroll loop *)

(** The count the loop compares with on turn [k]: the count read on the
    turn before, and 0 on the first turn. *)
Definition previous_read (reads : nat -> Scraper.ScrollRead) (k : nat) : Z :=
  match k with
  | O => 0%Z
  | S j => Scraper.currentJobCount (reads j)
  end.

Definition unchanged_at (reads : nat -> Scraper.ScrollRead) (k : nat) : bool :=
  (Scraper.currentJobCount (reads k) =? previous_read reads k)%Z.

(** Up to turn [m] the run is not cancelled and the pagination control is
    not near. *)
Definition calm_until (reads : nat -> Scraper.ScrollRead) (m : nat) : bool :=
  forallb (fun j => Scraper.scroll_active (reads j) &&
                    negb (Scraper.pagination_reached (reads j)))
          (seq 0 (S m)).

(** Every read shows the same count; no cancellation, no pagination. *)
Definition steady (count : Z) (k : nat) : Scraper.ScrollRead :=
  {| Scraper.scroll_active := true;
     Scraper.currentJobCount := count;
     Scraper.pagination_reached := false |}.

(** ** The detail protocol *)

(** What an enriched record [d] keeps of the basic record [b] it comes
    from: the members the protocol never assigns, and a non-empty title and
    company. *)
Definition enriched_from (b d : JobData) : Prop :=
  url d = url b /\ scrapedAt d = scrapedAt b /\
  experience d = experience b /\ benefits d = benefits b /\
  (title b <> [] -> title d <> []) /\
  (company b <> [] -> company d <> []).

(** The store holds the basic record [b] at [r], untouched, and at [e] a
    copy under enrichment. *)
Definition enriching (r e : Store.ref) (b : JobData) (h : Store.heap) : Prop :=
  nth_error h r = Some b /\
  exists d, nth_error h e = Some d /\ enriched_from b d.

(** [m] keeps the invariant [I] of the store, whether it returns or throws,
    and a value it returns satisfies [Q]. *)
Definition keeps {A : Type} (I : Store.heap -> Prop) (m : Store.M A)
  (Q : A -> Prop) : Prop :=
  forall h, I h ->
    I (snd (m h)) /\
    match fst (m h) with
    | Returned a => Q a
    | Thrown _ => True
    end.

Definition anything {A : Type} (a : A) : Prop := True.

(** Acting on a card whose detail panel cannot be read: the probe for the
    container throws. *)
Definition broken_action : Scraper.CardAction :=
  {| Scraper.scrollIntoView := Returned tt;
     Scraper.click := Returned tt;
     Scraper.waitForJobDetails := Returned tt;
     Scraper.detailsContainer := Thrown (lit "boom") |}.

(** A card with a title, a company and a link. *)
Definition plain_card : Scraper.Card :=
  {| Scraper.card_title :=
       Some {| Scraper.aria_label := Some (lit "Engineer with verification");
               Scraper.title_text := lit "Engineer" |};
     Scraper.card_company := Some (lit " Acme ");
     Scraper.card_location := Some (lit "Berlin");
     Scraper.card_link := Some (lit "https://www.linkedin.com/jobs/view/1/");
     Scraper.card_posted := None;
     Scraper.card_insight := None;
     Scraper.data_job_id := None;
     Scraper.occludable_job_id := None;
     Scraper.jobLink := true |}.

(** The steps of [extractDetailedJobInfo] that follow the copy of the basic
    record, on the copy [e]. *)
Definition enrichment_steps (c : Scraper.Clock) (d : Scraper.DetailPanel)
  (e : Store.ref) : Store.M Store.ref :=
  Store.bind (Store.lift (Scraper.detail_title d)) (fun t =>
  Store.bind (Scraper.assign_clean e set_title t) (fun _ =>
  Store.bind (Store.lift (Scraper.detail_company d)) (fun co =>
  Store.bind (Scraper.assign_clean e set_company co) (fun _ =>
  Store.bind (Store.lift (Scraper.tertiary_spans d)) (fun tertiary =>
  Store.bind (match tertiary with
        | Some spans => Store.for_each spans (Scraper.tertiary_span c e)
        | None => Store.ret tt
        end) (fun _ =>
  Store.bind (Store.lift (Scraper.preference_buttons d)) (fun prefs =>
  Store.bind (match prefs with
        | Some buttons => Store.for_each buttons (Scraper.preference_button e)
        | None => Store.ret tt
        end) (fun _ =>
  Store.bind (Store.lift (Scraper.detail_description d)) (fun descr =>
  Store.bind (Scraper.description_step e descr) (fun _ =>
  Store.bind (Store.lift (Scraper.company_section d)) (fun cs =>
  Store.bind (match cs with
        | Some s => Scraper.company_step e s
        | None => Store.ret tt
        end) (fun _ =>
  Store.bind (Store.lift (Scraper.insight_stats d)) (fun ins =>
  Store.bind (match ins with
        | Some stats =>
            Store.when (Scraper.nonempty (Scraper.insight_lines stats))
              (Store.assign e (set_hiringInsights
                           (Some (join (lit "; ") (Scraper.insight_lines stats)))))
        | None => Store.ret tt
        end) (fun _ =>
  Store.bind (Store.lift (Scraper.detail_salary d)) (fun sal =>
  Store.bind (Scraper.assign_clean e (fun v => set_salary (Some v)) sal) (fun _ =>
  Store.ret e)))))))))))))))).

(** ** Accounting *)

(** A record that passed the validation gate. *)
Definition valid_record (j : JobData) : Prop :=
  title j <> [] /\ company j <> [].

Definition total_new (log : list Scraper.PageLog) : Z :=
  fold_right (fun e acc => (Scraper.newJobsThisPage e + acc)%Z) 0%Z log.

(** The pages [first], [first + 1], ... *)
Definition consecutive_pages (first : Z) (n : nat) : list Z :=
  map (fun k => (first + Z.of_nat k)%Z) (seq 0 n).

(** ** Relative dates *)

(** The units of a relative date. *)
Inductive lapse := Hours | Days | Weeks | Months | Years.

Definition lapse_word (u : lapse) : str :=
  match u with
  | Hours => lit "hour"
  | Days => lit "day"
  | Weeks => lit "week"
  | Months => lit "month"
  | Years => lit "year"
  end.

(** Length in milliseconds of the units that have one whatever the date. *)
Definition lapse_ms (u : lapse) : option Z :=
  match u with
  | Hours => Some 3600000
  | Days => Some 86400000
  | Weeks => Some 604800000
  | Months | Years => None
  end%Z.

(** Length in months of the units of the calendar. *)
Definition lapse_months (u : lapse) : option Z :=
  match u with
  | Months => Some 1
  | Years => Some 12
  | Hours | Days | Weeks => None
  end%Z.

(** A text that reads: a numeral, white space, a unit, an optional
    plural, white space, the word ago, between other text. *)
Definition relative_text (pre : str) (n : N) (ws1 : str) (u : lapse)
  (plural : bool) (ws2 rest : str) : str :=
  pre ++ decimal n ++ ws1 ++ lapse_word u ++
  (if plural then lit "s" else []) ++ ws2 ++ lit "ago" ++ rest.

(** ** Requests served one after the other *)

Definition serve (st : Background.State)
  (requests : list (Background.Host * Bus.Message)) : Background.State :=
  fold_left (fun st r => fst (Background.onMessage (fst r) st (snd r)))
            requests st.

Definition storage_works (h : Background.Host) : Prop :=
  Background.storage_set h = Returned tt /\
  Background.storage_remove h = Returned tt.

(** The records in memory are those a restart would load. *)
Definition in_step (st : Background.State) : Prop :=
  Background.load (Background.linkedinJobs st) = st.

(** The batch of a request to save has distinct keys. *)
Definition distinct_batch (m : Bus.Message) : Prop :=
  match Bus.jobs m with
  | Some l => distinct_keys l
  | None => True
  end.

Definition keys (l : list JobData) : list (str * str * str) :=
  map identity_key l.

(** ** Polling *)

(** The first of the checks [start], [start + 1], ..., [count] of them,
    that finds the document ready. *)
Fixpoint first_ready_from (ready : nat -> bool) (start count : nat) : option nat :=
  match count with
  | O => None
  | S count' =>
      if ready start then Some start
      else first_ready_from ready (S start) count'
  end.

(** What a polling loop that gives up after [limit] checks returns. *)
Definition polled (ready : nat -> bool) (limit : nat) : nat * bool :=
  match first_ready_from ready 0 limit with
  | Some k => (S k, true)
  | None => (limit, false)
  end.

(** ** Navigation *)

(** [n.toString()] of an integer. *)
Definition number_toString (x : JsNumber.num) : str :=
  match x with
  | Some z => if (z <? 0)%Z then lit "-" ++ decimal (Z.to_N (- z))
              else decimal (Z.to_N z)
  | None => lit "NaN"
  end.

(** The document reached by [navigateToNextPage]: the same location with
    the parameter [start] set. *)
Definition next_document (p : Scraper.Page) : Scraper.Page :=
  with_startParam (Some (number_toString (Scraper.nextStartParam p))) p.

(** ** Reading an export back *)

(** The cleaned values of the 21 columns of a job. *)
Definition cleaned_row (job : JobData) : list str :=
  map (fun v => match v with
                | VString s => Background.clean_field s
                | _ => []
                end)
      (Background.row_values job).

(** A written field that a reader takes for [r], whatever follows it. *)
Definition reads_as (w r : str) : Prop :=
  forall rest, Rfc4180.field_end rest ->
    Rfc4180.parse_field (w ++ rest) = Some (r, rest).

(** A text without comma, line break or double quote. *)
Definition plain_text (s : str) : bool :=
  forallb (fun x => negb (Rfc4180.is_delimiter x) && negb (Ascii.eqb x QUOTE)) s.

(** ** The name of an export *)


(** ** Skills *)

(** The part of a description from which the skills are taken: 500
    characters from the first of the keywords that occurs. *)
Definition skills_section (description : str) : option str :=
  option_map (fun keyword => firstn 500 (Scraper.suffix_from keyword description))
    (find (fun keyword => includes keyword description)
          (map lit ["Skills:"; "Technologies:"; "Requirements:"]%string)).

(** ** Predicates of the proofs *)

Section ProofVocabulary.

Import JsNumber Scraper.
Open Scope Z_scope.

(** The value of a numeral read digit by digit, after [acc]. *)
Fixpoint uint_value (d : Decimal.uint) (acc : Z) : Z :=
  match d with
  | Decimal.Nil => acc
  | Decimal.D0 l => uint_value l (10 * acc + 0)
  | Decimal.D1 l => uint_value l (10 * acc + 1)
  | Decimal.D2 l => uint_value l (10 * acc + 2)
  | Decimal.D3 l => uint_value l (10 * acc + 3)
  | Decimal.D4 l => uint_value l (10 * acc + 4)
  | Decimal.D5 l => uint_value l (10 * acc + 5)
  | Decimal.D6 l => uint_value l (10 * acc + 6)
  | Decimal.D7 l => uint_value l (10 * acc + 7)
  | Decimal.D8 l => uint_value l (10 * acc + 8)
  | Decimal.D9 l => uint_value l (10 * acc + 9)
  end.

Definition numeral (d : Decimal.uint) : str := lit (NilEmpty.string_of_uint d).

(** Every entry but the last leaves the counter below the limit. *)
Fixpoint below_limit_before_end (log : list PageLog) : Prop :=
  match log with
  | [] => True
  | e :: rest =>
      match rest with
      | [] => True
      | _ :: _ => lowYieldAfter e < 3 /\ below_limit_before_end rest
      end
  end.

Definition journal_ok (before : Z) (log : list PageLog) (exit : PagesExit) : Prop :=
  counter_rule before log /\
  below_limit_before_end log /\
  (exit = LowYieldAbort <->
   exists e, final_entry log = Some e /\ 3 <= lowYieldAfter e).

(** What the page loop has gathered when it ends. *)
Definition pages_summary (cur : Z) (total : num) (jobs : list JobData)
  (res : list PageLog * PagesExit * list JobData) : Prop :=
  exists added,
    snd res = jobs ++ added /\
    Z.of_nat (List.length added) = total_new (fst (fst res)) /\
    Forall valid_record added /\
    Forall (fun e => 0 <= newJobsThisPage e) (fst (fst res)) /\
    map log_page (fst (fst res))
      = consecutive_pages cur (List.length (fst (fst res))) /\
    match total with
    | Some t => Z.of_nat (List.length (fst (fst res))) <= Z.max 0 (t + 1 - cur)
    | None => fst (fst res) = []
    end.

End ProofVocabulary.

(** ** The number of results *)

(** A document that differs from [p] in the text of the results count. *)
Definition with_results (v : option str) (p : Scraper.Page) : Scraper.Page :=
  {| Scraper.pathname := Scraper.pathname p;
     Scraper.href := Scraper.href p;
     Scraper.startParam := Scraper.startParam p;
     Scraper.jobs_search_results := Scraper.jobs_search_results p;
     Scraper.results_list := Scraper.results_list p;
     Scraper.job_details := Scraper.job_details p;
     Scraper.resultsElement := v;
     Scraper.pageStateElement := Scraper.pageStateElement p;
     Scraper.titleElement := Scraper.titleElement p;
     Scraper.companyElement := Scraper.companyElement p;
     Scraper.locationElement := Scraper.locationElement p;
     Scraper.descriptionElement := Scraper.descriptionElement p;
     Scraper.salaryElement := Scraper.salaryElement p |}.

(** A number written with thousands separators: a first group of digits,
    then groups that each follow a comma. *)
Definition thousands (head : str) (groups : list str) : str :=
  head ++ List.concat (map (fun g => COMMA :: g) groups).

(** One to three digits. *)
Definition first_group (head : str) : Prop :=
  head <> [] /\ (List.length head <= 3)%nat /\
  Forall (fun x => is_digit x = true) head.

(** Exactly three digits. *)
Definition later_group (g : str) : Prop :=
  List.length g = 3%nat /\ Forall (fun x => is_digit x = true) g.

(** The part of the pattern for one later group: a comma and three digits. *)
Definition thousands_group : Regex.re :=
  Regex.Seq (Regex.Chr ",") (Regex.Seq Regex.digit (Regex.Seq Regex.digit Regex.digit)).

(** ** The range of exact arithmetic *)

(** The numbers of the source are IEEE doubles.  The integers of the
    embedding are those doubles as long as the numbers read from the
    document stay below 2^40 in magnitude: there the quotient by 25, its
    floor and its ceiling, the maximum and the increments by 1 are all
    exact.  The statements about page numbers assume it. *)
Definition in_exact_range (x : JsNumber.num) : Prop :=
  match x with
  | Some z => (Z.abs z < 2 ^ 40)%Z
  | None => True
  end.

Definition exact_pagination (p : Scraper.Page) : Prop :=
  in_exact_range (Scraper.totalResults (Scraper.getPaginationInfo p)) /\
  in_exact_range (Scraper.currentPage (Scraper.getPaginationInfo p)) /\
  in_exact_range (Scraper.totalPages (Scraper.getPaginationInfo p)).

(** ** The records accepted page after page *)

(** The session after [n] pages of a run whose first page meets
    [rounds start], from the session [jobs]. *)
Fixpoint jobs_after_pages (c : Scraper.Clock) (rounds : nat -> Scraper.PageRound)
  (start n : nat) (jobs : list JobData) : list JobData :=
  match n with
  | O => jobs
  | S n' =>
      jobs_after_pages c rounds (S start) n'
        (fst (Scraper.scrapeJobListingsDetailed c
                (Scraper.round_page (rounds start))
                (Scraper.visits (rounds start)) jobs))
  end.

(** The number of records that page [k] of the run added to the session. *)
Definition accepted_on_page (c : Scraper.Clock) (rounds : nat -> Scraper.PageRound)
  (start : nat) (jobs : list JobData) (k : nat) : Z :=
  (Z.of_nat (List.length (jobs_after_pages c rounds start (S k) jobs))
   - Z.of_nat (List.length (jobs_after_pages c rounds start k jobs)))%Z.

(** A sample run: a search with 1,000 results opened on its first page;
    page 1 shows no card, page 2 five new listings, page 3 the same five,
    page 4 one new listing and page 5 none.  The panels cannot be read, so
    every record is the basic one; the user never stops and the navigation
    always works. *)
Definition C3_page : Scraper.Page :=
  with_results (Some (lit "1,000 results")) (with_startParam None C2_page).

Definition C3_card (k : string) : Scraper.Card :=
  {| Scraper.card_title :=
       Some {| Scraper.aria_label := Some (lit (String.append "Engineer " k));
               Scraper.title_text := lit "Engineer" |};
     Scraper.card_company := Some (lit "Acme");
     Scraper.card_location := Some (lit "Berlin");
     Scraper.card_link :=
       Some (lit (String.append "https://www.linkedin.com/jobs/view/" k));
     Scraper.card_posted := None;
     Scraper.card_insight := None;
     Scraper.data_job_id := None;
     Scraper.occludable_job_id := None;
     Scraper.jobLink := true |}.

Definition C3_visit (k : string) : Scraper.CardVisit :=
  {| Scraper.active_at_card := true;
     Scraper.visit_card := C3_card k;
     Scraper.visit_action := broken_action |}.

Definition C3_five : list Scraper.CardVisit :=
  map C3_visit ["1"; "2"; "3"; "4"; "5"]%string.

Definition C3_rounds (i : nat) : Scraper.PageRound :=
  {| Scraper.round_page := C3_page;
     Scraper.visits :=
       match i with
       | 1%nat | 2%nat => C3_five
       | 3%nat => [C3_visit "6"]
       | _ => []
       end;
     Scraper.active_after_page := true;
     Scraper.page_at_navigation := C3_page;
     Scraper.location_throws := false;
     Scraper.active_at_next_test := true |}.

Definition C3_journal : list Scraper.PageLog :=
  [ {| Scraper.log_page := 1; Scraper.newJobsThisPage := 0;
       Scraper.lowYieldAfter := 1 |};
    {| Scraper.log_page := 2; Scraper.newJobsThisPage := 5;
       Scraper.lowYieldAfter := 0 |};
    {| Scraper.log_page := 3; Scraper.newJobsThisPage := 0;
       Scraper.lowYieldAfter := 1 |};
    {| Scraper.log_page := 4; Scraper.newJobsThisPage := 1;
       Scraper.lowYieldAfter := 2 |};
    {| Scraper.log_page := 5; Scraper.newJobsThisPage := 0;
       Scraper.lowYieldAfter := 3 |} ].

(** The records that the sample run gathers. *)
Definition C3_final : list JobData :=
  jobs_after_pages C3_clock C3_rounds 0 5 [].
(* ================================================================== *)
(** * Properties *)
(* ================================================================== *)

(** ** Strings *)

Section StringFacts.

Lemma is_space_cases c :
  is_space c = true <->
  c = TAB \/ c = LF \/ c = VT \/ c = FF \/ c = CR \/ c = SPACE \/ c = NBSP.
Proof.
  unfold is_space; simpl.
  rewrite !orb_true_iff, !Ascii.eqb_eq. intuition discriminate.
Qed.

Lemma space_is_space : is_space SPACE = true.
Proof. reflexivity. Qed.

Lemma includes_char_true c s : includes_char c s = true <-> In c s.
Proof.
  unfold includes_char. rewrite existsb_exists. split.
  - intros [x [Hin Heq]]. apply Ascii.eqb_eq in Heq. now subst.
  - intros Hin. exists c. split; [assumption | apply Ascii.eqb_refl].
Qed.

Lemma includes_char_false c s : includes_char c s = false <-> ~ In c s.
Proof.
  rewrite <- includes_char_true. destruct (includes_char c s); intuition congruence.
Qed.

Lemma includes_char_app c s t :
  includes_char c (s ++ t) = includes_char c s || includes_char c t.
Proof. unfold includes_char. apply existsb_app. Qed.

Lemma includes_char_ext c s t :
  (In c s <-> In c t) -> includes_char c s = includes_char c t.
Proof.
  intros H. destruct (includes_char c t) eqn:E.
  - apply includes_char_true, H, includes_char_true, E.
  - apply includes_char_false. rewrite H. now apply includes_char_false.
Qed.

(** [dropWhile] only removes characters satisfying the predicate. *)
Lemma dropWhile_split p s :
  exists l, s = l ++ dropWhile p s /\ Forall (fun c => p c = true) l.
Proof.
  induction s as [|c s IH]; simpl.
  - exists []. split; [reflexivity | constructor].
  - destruct (p c) eqn:E.
    + destruct IH as [l [Hs Hl]]. exists (c :: l). split.
      * simpl. now f_equal.
      * now constructor.
    + exists []. split; [reflexivity | constructor].
Qed.

Lemma dropWhile_head p s c t : dropWhile p s = c :: t -> p c = false.
Proof.
  induction s as [|x s IH]; simpl; [discriminate|].
  destruct (p x) eqn:E; [assumption|].
  intros H. injection H as -> _. exact E.
Qed.

(** [trim] removes white space on both sides and nothing else. *)
Lemma trim_split s :
  exists l r, s = l ++ trim s ++ r /\
              Forall (fun c => is_space c = true) l /\
              Forall (fun c => is_space c = true) r.
Proof.
  unfold trim, trimEnd, trimStart.
  destruct (dropWhile_split is_space s) as [l [Hs Hl]].
  destruct (dropWhile_split is_space (rev (dropWhile is_space s))) as [r [Hr Hrs]].
  exists l, (rev r). repeat split.
  - rewrite <- rev_app_distr, <- Hr, rev_involutive. exact Hs.
  - exact Hl.
  - apply Forall_rev. exact Hrs.
Qed.

Lemma trim_head s c t : trim s = c :: t -> is_space c = false.
Proof.
  unfold trim, trimEnd. intros H.
  destruct (dropWhile_split is_space (rev (trimStart s))) as [r [Hr Hrs]].
  remember (dropWhile is_space (rev (trimStart s))) as d eqn:Hd.
  assert (Hts : trimStart s = rev d ++ rev r).
  { rewrite <- rev_app_distr, <- Hr, rev_involutive. reflexivity. }
  rewrite H in Hts. simpl in Hts.
  unfold trimStart in Hts.
  eapply dropWhile_head. exact Hts.
Qed.

Lemma trim_last s : trim s <> [] -> is_space (last (trim s) SPACE) = false.
Proof.
  unfold trim, trimEnd. intros Hne.
  destruct (dropWhile is_space (rev (trimStart s))) as [|c d] eqn:Hd.
  - now elim Hne.
  - simpl. rewrite last_last. eapply dropWhile_head. exact Hd.
Qed.

Lemma in_trim c s : is_space c = false -> (In c (trim s) <-> In c s).
Proof.
  intros Hc. destruct (trim_split s) as [l [r [Hs [Hl Hr]]]].
  rewrite Hs at 2. rewrite !in_app_iff. split; [tauto|].
  rewrite Forall_forall in Hl, Hr.
  intros [H | [H | H]]; [ | assumption | ].
  - apply Hl in H. congruence.
  - apply Hr in H. congruence.
Qed.

Lemma in_trim_inv c s : In c (trim s) -> In c s.
Proof.
  destruct (trim_split s) as [l [r [Hs _]]].
  intros H. rewrite Hs, !in_app_iff. tauto.
Qed.

(** Characters of a collapsed string: a space, or a character of the input
    that is not white space. *)
Lemma in_replace_ws_from c b s :
  In c (replace_ws_from b s) -> c = SPACE \/ (is_space c = false /\ In c s).
Proof.
  revert b. induction s as [|x s IH]; simpl; intros b H; [contradiction|].
  destruct (is_space x) eqn:Ex.
  - destruct b; simpl in H.
    + apply IH in H. tauto.
    + destruct H as [H | H]; [now left |]. apply IH in H. tauto.
  - destruct H as [H | H].
    + subst. right. split; [assumption | now left].
    + apply IH in H. tauto.
Qed.

Lemma in_replace_ws_from_keep c b s :
  is_space c = false -> In c s -> In c (replace_ws_from b s).
Proof.
  intros Hc. revert b. induction s as [|x s IH]; simpl; intros b H; [contradiction|].
  destruct H as [H | H].
  - subst. rewrite Hc. now left.
  - destruct (is_space x); [destruct b|]; simpl; auto.
Qed.

(** White space is never a comma or a double quote. *)
Lemma comma_not_space : is_space COMMA = false.
Proof. reflexivity. Qed.

Lemma quote_not_space : is_space QUOTE = false.
Proof. reflexivity. Qed.

End StringFacts.

(** ** Field normalisation of the CSV export *)

Section CleanField.

Import Background.

Lemma single_spaced_cons c s :
  single_spaced (c :: s) =
  negb (is_space c && is_space (hd COMMA s)) && single_spaced s.
Proof.
  destruct s as [|d s]; [|reflexivity].
  simpl hd. rewrite comma_not_space, andb_false_r. reflexivity.
Qed.

Lemma replace_ws_from_shape b s :
  single_spaced (replace_ws_from b s) = true /\
  only_plain_spaces (replace_ws_from b s) = true /\
  (b = true -> is_space (hd COMMA (replace_ws_from b s)) = false).
Proof.
  revert b. induction s as [|x s IH]; intros b.
  - repeat split.
  - simpl replace_ws_from. destruct (is_space x) eqn:Ex.
    + destruct b.
      * apply IH.
      * destruct (IH true) as [H1 [H2 H3]]. repeat split.
        -- rewrite single_spaced_cons, (H3 eq_refl), andb_false_r. exact H1.
        -- simpl. exact H2.
        -- discriminate.
    + destruct (IH false) as [H1 [H2 H3]]. repeat split.
      * rewrite single_spaced_cons, Ex. exact H1.
      * simpl. rewrite Ex. exact H2.
      * intros _. exact Ex.
Qed.

Lemma replace_ws_from_hd b s c t :
  s = c :: t -> is_space c = false ->
  hd COMMA (replace_ws_from b s) = c.
Proof. intros -> Hc. simpl. now rewrite Hc. Qed.

Lemma replace_ws_from_last b s :
  s <> [] -> is_space (last s SPACE) = false ->
  replace_ws_from b s <> [] /\
  last (replace_ws_from b s) SPACE = last s SPACE.
Proof.
  revert b. induction s as [|x s IH]; intros b Hne Hl; [now elim Hne|].
  destruct s as [|y s].
  - simpl in *. rewrite Hl. split; [discriminate | reflexivity].
  - assert (Hne' : y :: s <> []) by discriminate.
    assert (Hl' : is_space (last (y :: s) SPACE) = false) by exact Hl.
    change (replace_ws_from b (x :: y :: s)) with
      (if is_space x
       then if b then replace_ws_from true (y :: s)
            else SPACE :: replace_ws_from true (y :: s)
       else x :: replace_ws_from false (y :: s)).
    change (last (x :: y :: s) SPACE) with (last (y :: s) SPACE).
    destruct (is_space x); [destruct b|].
    + apply IH; assumption.
    + destruct (IH true Hne' Hl') as [Hn He]. split; [discriminate|].
      destruct (replace_ws_from true (y :: s)) eqn:E; [now elim Hn|].
      exact He.
    + destruct (IH false Hne' Hl') as [Hn He]. split; [discriminate|].
      destruct (replace_ws_from false (y :: s)) eqn:E; [now elim Hn|].
      exact He.
Qed.

Lemma last_default_irrelevant (s : str) d d' : s <> [] -> last s d = last s d'.
Proof.
  induction s as [|x s IH]; intros Hne; [now elim Hne|].
  destruct s as [|y s]; [reflexivity|].
  change (last (y :: s) d = last (y :: s) d'). apply IH. discriminate.
Qed.

(** The cleaned field has the normalised shape. *)
Lemma clean_field_normalised s : normalised (clean_field s) = true.
Proof.
  unfold normalised, clean_field, replace_ws_runs.
  destruct (replace_ws_from_shape false (trim s)) as [H1 [H2 _]].
  rewrite H1, H2, !andb_true_r.
  destruct (trim s) as [|c t] eqn:Et; [reflexivity|].
  assert (Hc : is_space c = false) by (eapply trim_head; exact Et).
  assert (Hne : trim s <> []) by (rewrite Et; discriminate).
  pose proof (trim_last s Hne) as Hl. rewrite Et in Hl.
  destruct (replace_ws_from_last false (c :: t)) as [Hn He];
    [discriminate | exact Hl |].
  rewrite (replace_ws_from_hd false (c :: t) c t eq_refl Hc), Hc.
  rewrite (last_default_irrelevant _ COMMA SPACE Hn), He, Hl.
  reflexivity.
Qed.

Lemma black_replace_ws_from b s : black (replace_ws_from b s) = black s.
Proof.
  revert b. induction s as [|x s IH]; intros b; simpl; [reflexivity|].
  destruct (is_space x) eqn:Ex; simpl.
  - destruct b; simpl; apply IH.
  - rewrite Ex. simpl. f_equal. apply IH.
Qed.

Lemma black_all_space l :
  Forall (fun c => is_space c = true) l -> black l = [].
Proof.
  induction 1 as [|x l Hx _ IH]; simpl; [reflexivity|].
  rewrite Hx. simpl. exact IH.
Qed.

(** Cleaning keeps the black characters and their order. *)
Lemma black_clean_field s : black (clean_field s) = black s.
Proof.
  unfold clean_field, replace_ws_runs. rewrite black_replace_ws_from.
  destruct (trim_split s) as [l [r [Hs [Hl Hr]]]].
  rewrite Hs at 2. unfold black. rewrite !filter_app.
  fold (black l) (black r) (black (trim s)).
  rewrite (black_all_space l Hl), (black_all_space r Hr), app_nil_r.
  reflexivity.
Qed.

Lemma in_clean_field c s :
  is_space c = false -> (In c (clean_field s) <-> In c s).
Proof.
  intros Hc. unfold clean_field, replace_ws_runs. split.
  - intros H. apply in_replace_ws_from in H. destruct H as [-> | [_ H]].
    + discriminate.
    + now apply in_trim_inv.
  - intros H. apply in_replace_ws_from_keep; [assumption|].
    now apply in_trim.
Qed.

Lemma clean_field_no_line_break s :
  ~ In LF (clean_field s) /\ ~ In CR (clean_field s).
Proof.
  unfold clean_field, replace_ws_runs.
  split; intros H; apply in_replace_ws_from in H;
    destruct H as [H | [H _]]; discriminate.
Qed.

(** The quoting decision only depends on commas and double quotes. *)
Lemma needs_quotes_spec s :
  needs_quotes (clean_field s) = includes_char COMMA s || includes_char QUOTE s.
Proof.
  unfold needs_quotes.
  destruct (clean_field_no_line_break s) as [Hlf Hcr].
  apply includes_char_false in Hlf, Hcr. rewrite Hlf, Hcr, !orb_false_r.
  f_equal; apply includes_char_ext, in_clean_field; reflexivity.
Qed.

(** A normalised string is a fixed point of the cleaning. *)
Lemma dropWhile_id p s : p (hd COMMA s) = false -> s <> [] -> dropWhile p s = s.
Proof. destruct s; simpl; [congruence|]. now intros ->. Qed.

Lemma trim_fixed s :
  is_space (hd COMMA s) = false -> is_space (last s COMMA) = false -> trim s = s.
Proof.
  intros Hh Hl. destruct s as [|c t] eqn:Es; [reflexivity|]. rewrite <- Es in *.
  assert (Hne : s <> []) by (rewrite Es; discriminate).
  unfold trim, trimStart, trimEnd.
  rewrite (dropWhile_id is_space s Hh Hne).
  assert (Hr : exists x u, s = u ++ [x]).
  { destruct (exists_last Hne) as [u [x Hx]]. now exists x, u. }
  destruct Hr as [x [u Hx]]. rewrite Hx in *. rewrite last_last in Hl.
  rewrite rev_app_distr. simpl. rewrite Hl. simpl. now rewrite rev_involutive.
Qed.

Lemma replace_ws_from_fixed b s :
  only_plain_spaces s = true -> single_spaced s = true ->
  (b = true -> is_space (hd COMMA s) = false) ->
  replace_ws_from b s = s.
Proof.
  revert b. induction s as [|x s IH]; intros b Hp Hs Hb; [reflexivity|].
  simpl in Hp. apply andb_true_iff in Hp. destruct Hp as [Hx Hp].
  assert (Hs' : single_spaced s = true).
  { destruct s; [reflexivity|]. simpl in Hs. apply andb_true_iff in Hs. apply Hs. }
  simpl. destruct (is_space x) eqn:Ex.
  - simpl in Hx. apply Ascii.eqb_eq in Hx. subst x.
    destruct b; [specialize (Hb eq_refl); simpl in Hb; congruence|].
    f_equal. apply IH; try assumption.
    intros _. destruct s as [|y s]; [reflexivity|].
    simpl in Hs. apply andb_true_iff in Hs. destruct Hs as [Hs _].
    simpl. now apply negb_true_iff.
  - f_equal. apply IH; try assumption. discriminate.
Qed.

Lemma clean_field_fixed s : normalised s = true -> clean_field s = s.
Proof.
  unfold normalised. rewrite !andb_true_iff, !negb_true_iff.
  intros [[[Hh Hl] Hp] Hs]. unfold clean_field, replace_ws_runs.
  rewrite (trim_fixed s Hh Hl). apply replace_ws_from_fixed; try assumption.
  discriminate.
Qed.

End CleanField.

(** ** Reading back an exported field *)

Section CsvRoundTrip.

Import Background Rfc4180.

Lemma parse_unquoted_app c rest :
  (forall x, In x c -> is_delimiter x = false) -> field_end rest ->
  parse_unquoted (c ++ rest) = (c, rest).
Proof.
  intros Hc Hrest. induction c as [|x c IH]; simpl.
  - destruct rest as [|y rest]; [reflexivity|].
    simpl in Hrest. simpl. now rewrite Hrest.
  - rewrite (Hc x (or_introl eq_refl)), IH; [reflexivity|].
    intros y Hy. apply Hc. now right.
Qed.

Lemma field_end_not_quote rest :
  field_end rest -> match rest with d :: _ => Ascii.eqb d QUOTE = false | [] => True end.
Proof.
  destruct rest as [|d rest]; [trivial|]. simpl. unfold is_delimiter.
  rewrite !orb_true_iff, !Ascii.eqb_eq. intros [[-> | ->] | ->]; reflexivity.
Qed.

Lemma parse_quoted_double_quotes c rest :
  field_end rest ->
  parse_quoted (double_quotes c ++ QUOTE :: rest) = Some (c, rest).
Proof.
  intros Hrest. induction c as [|x c IH].
  - simpl double_quotes. simpl app.
    change (parse_quoted (QUOTE :: rest)) with
      (match rest with
       | d :: s'' =>
           if Ascii.eqb d QUOTE
           then match parse_quoted s'' with
                | Some (f, r) => Some (QUOTE :: f, r)
                | None => None
                end
           else Some ([], rest)
       | [] => Some ([], [])
       end).
    apply field_end_not_quote in Hrest.
    destruct rest as [|d rest]; [reflexivity|]. now rewrite Hrest.
  - unfold double_quotes in *. simpl flat_map.
    destruct (Ascii.eqb x QUOTE) eqn:Ex.
    + apply Ascii.eqb_eq in Ex. subst x. simpl app.
      change (parse_quoted (QUOTE :: QUOTE :: ?t)) with
        (match parse_quoted t with
         | Some (f, r) => Some (QUOTE :: f, r)
         | None => None
         end).
      now rewrite IH.
    + simpl app. simpl parse_quoted. rewrite Ex. now rewrite IH.
Qed.

Lemma clean_unquoted_no_delimiter s :
  needs_quotes (clean_field s) = false ->
  forall x, In x (clean_field s) -> is_delimiter x = false.
Proof.
  unfold needs_quotes. rewrite !orb_false_iff, !includes_char_false.
  intros [[[Hc Hq] Hl] Hr] x Hx. unfold is_delimiter.
  rewrite !orb_false_iff. repeat split;
    apply Ascii.eqb_neq; intros ->; contradiction.
Qed.

(** Reading back what [escapeCsvField] wrote yields the cleaned field. *)
Lemma parse_escapeCsvField s rest :
  field_end rest ->
  parse_field (escapeCsvField (VString s) ++ rest) = Some (clean_field s, rest).
Proof.
  intros Hrest. unfold escapeCsvField.
  destruct s as [|c0 s0] eqn:Es.
  - simpl. destruct rest as [|d rest]; [reflexivity|].
    pose proof (field_end_not_quote _ Hrest) as Hq. simpl in Hq.
    unfold parse_field. rewrite Hq.
    change (d :: rest) with ([] ++ d :: rest).
    rewrite parse_unquoted_app; [reflexivity | intros x [] | exact Hrest].
  - rewrite <- Es. replace (truthy s) with true by (now rewrite Es).
    cbv zeta. destruct (needs_quotes (clean_field s)) eqn:En.
    + unfold quoted. simpl. rewrite <- app_assoc. simpl.
      change (Ascii.eqb QUOTE QUOTE) with true. cbv iota.
      now apply parse_quoted_double_quotes.
    + pose proof (clean_unquoted_no_delimiter s En) as Hd.
      destruct (clean_field s ++ rest) as [|x t] eqn:Ea.
      * apply app_eq_nil in Ea. destruct Ea as [-> ->]. reflexivity.
      * unfold parse_field. rewrite <- Ea.
        assert (Hx : Ascii.eqb x QUOTE = false).
        { destruct (clean_field s) as [|y u] eqn:Ec.
          - simpl in Ea. subst rest.
            apply (field_end_not_quote _ Hrest).
          - simpl in Ea. injection Ea as <- _.
            unfold needs_quotes in En. rewrite !orb_false_iff in En.
            destruct En as [[[_ Hq] _] _].
            apply includes_char_false in Hq. apply Ascii.eqb_neq.
            intros ->. apply Hq. now left. }
        rewrite Hx. now rewrite parse_unquoted_app.
Qed.

Lemma quoted_longer c : quoted c <> c.
Proof.
  intros H. apply (f_equal (@List.length ascii)) in H.
  unfold quoted, double_quotes in H. simpl in H.
  rewrite length_app in H. simpl in H.
  assert (Hlen : List.length c <=
                 List.length (flat_map (fun c0 => if Ascii.eqb c0 QUOTE
                                                  then [QUOTE; QUOTE] else [c0]) c)).
  { clear H. induction c as [|x c IH]; simpl; [lia|].
    destruct (Ascii.eqb x QUOTE); simpl; rewrite ?length_app; simpl; lia. }
  lia.
Qed.

End CsvRoundTrip.

(** ** Line structure of the exported file *)

Section CsvLines.

Import Background.

Lemma escapeCsvField_as_clean s :
  escapeCsvField (VString s) =
  if needs_quotes (clean_field s) then quoted (clean_field s) else clean_field s.
Proof. destruct s; reflexivity. Qed.

Lemma in_double_quotes x c : In x (double_quotes c) -> In x c.
Proof.
  unfold double_quotes. rewrite in_flat_map. intros [y [Hy Hx]].
  destruct (Ascii.eqb y QUOTE) eqn:E.
  - apply Ascii.eqb_eq in E. subst y.
    destruct Hx as [<- | [<- | []]]; assumption.
  - destruct Hx as [<- | []]. assumption.
Qed.

Lemma escapeCsvField_no_line_break v :
  ~ In LF (escapeCsvField v) /\ ~ In CR (escapeCsvField v).
Proof.
  destruct v as [ | | b | n | s | ]; try (split; intros []).
  rewrite escapeCsvField_as_clean.
  destruct (clean_field_no_line_break s) as [Hlf Hcr].
  destruct (needs_quotes (clean_field s)); [|tauto].
  unfold quoted. split; intros [H | H]; try discriminate;
    apply in_app_or in H; destruct H as [H | [H | []]]; try discriminate;
    apply in_double_quotes in H; contradiction.
Qed.

Lemma count_occ_join x sep parts :
  count_occ ascii_dec sep x = 0%nat ->
  Forall (fun p => count_occ ascii_dec p x = 0%nat) parts ->
  count_occ ascii_dec (join sep parts) x = 0%nat.
Proof.
  intros Hsep. induction 1 as [|p ps Hp Hps IH]; [reflexivity|].
  destruct ps as [|q ps]; [exact Hp|].
  change (join sep (p :: q :: ps)) with (p ++ sep ++ join sep (q :: ps)).
  rewrite !count_occ_app, Hp, Hsep, IH. reflexivity.
Qed.

Lemma count_occ_join_lines rows :
  Forall (fun r => count_occ ascii_dec r LF = 0%nat) rows ->
  count_occ ascii_dec (join [LF] rows) LF = pred (List.length rows).
Proof.
  induction 1 as [|r rs Hr Hrs IH]; [reflexivity|].
  destruct rs as [|q rs]; [exact Hr|].
  change (join [LF] (r :: q :: rs)) with (r ++ [LF] ++ join [LF] (q :: rs)).
  rewrite !count_occ_app, Hr, IH. reflexivity.
Qed.

Lemma row_fields_no_line_break job :
  Forall (fun f => ~ In LF f /\ ~ In CR f) (row_fields job).
Proof.
  unfold row_fields. apply Forall_map, Forall_forall.
  intros v _. apply escapeCsvField_no_line_break.
Qed.

Lemma row_no_char x job :
  x = LF \/ x = CR ->
  count_occ ascii_dec (join [COMMA] (row_fields job)) x = 0%nat.
Proof.
  intros Hx. apply count_occ_join.
  - destruct Hx as [-> | ->]; reflexivity.
  - eapply Forall_impl; [|apply row_fields_no_line_break].
    intros f [Hlf Hcr]. apply count_occ_not_In.
    destruct Hx as [-> | ->]; assumption.
Qed.

Lemma csvRows_no_char x jobs :
  x = LF \/ x = CR ->
  Forall (fun r => count_occ ascii_dec r x = 0%nat) (csvRows jobs).
Proof.
  intros Hx. unfold csvRows. constructor.
  - destruct Hx as [-> | ->]; vm_compute; reflexivity.
  - apply Forall_map, Forall_forall. intros job _. now apply row_no_char.
Qed.

End CsvLines.

(** C10. [escapeCsvField] decides about quoting on the cleaned value: the
    field trimmed and with every run of white space (spaces, tabs, line
    feeds, carriage returns, ...) collapsed to one space, so that the cleaned
    value has the normalised shape and the same black characters as the
    input.  A value that is not a string, and the empty string, serialise as
    the empty string.  No serialised field contains a line feed or a carriage
    return; hence an export of [n] jobs has exactly [n] line feeds (a header
    line and one line per job) and no carriage return. *)
Theorem C10_csv_fields_are_normalised :
  (forall s : str,
      Background.escapeCsvField (VString s) =
        (if Background.needs_quotes (Background.clean_field s)
         then Background.quoted (Background.clean_field s)
         else Background.clean_field s)
      /\ Background.clean_field s = replace_ws_runs (trim s)
      /\ normalised (Background.clean_field s) = true
      /\ black (Background.clean_field s) = black s)
  /\ (forall v : value,
         match v with
         | VString (_ :: _) => True
         | _ => Background.escapeCsvField v = []
         end)
  /\ (forall v : value,
         ~ In LF (Background.escapeCsvField v) /\
         ~ In CR (Background.escapeCsvField v))
  /\ (forall job : JobData,
         List.length (Background.row_fields job) = 21%nat /\
         Forall (fun f => ~ In LF f /\ ~ In CR f) (Background.row_fields job))
  /\ (forall (job : JobData) (jobs : list JobData),
         count_occ ascii_dec (Background.convertJobsToCSV (job :: jobs)) LF
           = S (List.length jobs) /\
         count_occ ascii_dec (Background.convertJobsToCSV (job :: jobs)) CR
           = 0%nat).
Proof.
  split; [|split; [|split; [|split]]].
  - intros s. repeat split.
    + apply escapeCsvField_as_clean.
    + apply clean_field_normalised.
    + apply black_clean_field.
  - intros [ | | b | n | [|c s] | ]; trivial.
  - apply escapeCsvField_no_line_break.
  - intros job. split; [reflexivity | apply row_fields_no_line_break].
  - intros job jobs. unfold Background.convertJobsToCSV. split.
    + rewrite count_occ_join_lines by (apply csvRows_no_char; now left).
      unfold Background.csvRows. simpl List.length. now rewrite length_map.
    + apply count_occ_join; [reflexivity | apply csvRows_no_char; now right].
Qed.

(** C4, as stated, fails.  The sample field contains a comma, a double quote
    and a line feed; it is exported quoted, but with the line feed turned
    into a space, so reading it back does not return the original.  And a
    field whose only special character is a line feed is exported
    unquoted. *)
Lemma C4_round_trip_loses_line_breaks :
  (In COMMA C4_sample /\ In QUOTE C4_sample /\ In LF C4_sample) /\
  Background.escapeCsvField (VString C4_sample)
    = [QUOTE] ++ lit "a,b" ++ [QUOTE; QUOTE] ++ lit " c" ++ [QUOTE] /\
  Rfc4180.parse_field (Background.escapeCsvField (VString C4_sample))
    = Some (lit "a,b" ++ [QUOTE] ++ lit " c", []) /\
  Rfc4180.parse_field (Background.escapeCsvField (VString C4_sample))
    <> Some (C4_sample, []) /\
  In LF (lit "a" ++ [LF] ++ lit "b") /\
  Background.escapeCsvField (VString (lit "a" ++ [LF] ++ lit "b")) = lit "a b".
Proof.
  repeat split; try (vm_compute; tauto); try reflexivity.
  vm_compute. discriminate.
Qed.

(** C4 (amended).  [escapeCsvField] first cleans the field (trims it and
    collapses every run of white space, line breaks included, to one space).
    The cleaned field is wrapped in double quotes, with its double quotes
    doubled, if and only if the field contains a comma or a double quote.
    Reading the serialised field back under RFC 4180, in front of any field
    end (end of input, comma or line break), returns the cleaned field, and
    therefore the original string whenever that string is already
    normalised. *)
Theorem C4_csv_field_round_trip (s rest : str) :
  Rfc4180.field_end rest ->
  (Background.escapeCsvField (VString s)
     = Background.quoted (Background.clean_field s)
   <-> In COMMA s \/ In QUOTE s)
  /\ Rfc4180.parse_field (Background.escapeCsvField (VString s) ++ rest)
     = Some (Background.clean_field s, rest)
  /\ (normalised s = true ->
      Rfc4180.parse_field (Background.escapeCsvField (VString s) ++ rest)
      = Some (s, rest)).
Proof.
  intros Hrest. split; [|split].
  - rewrite escapeCsvField_as_clean, needs_quotes_spec.
    rewrite <- !includes_char_true, <- orb_true_iff.
    destruct (includes_char COMMA s || includes_char QUOTE s).
    + tauto.
    + split; [|discriminate]. intros H. symmetry in H.
      now apply quoted_longer in H.
  - now apply parse_escapeCsvField.
  - intros Hn. rewrite parse_escapeCsvField by assumption.
    now rewrite clean_field_fixed.
Qed.

Lemma C4_csv_field_round_trip_witness :
  Rfc4180.parse_field
    (Background.escapeCsvField (VString (lit "Senior, Staff")) ++ lit ",x")
  = Some (lit "Senior, Staff", lit ",x").
Proof.
  refine (proj2 (proj2 (C4_csv_field_round_trip (lit "Senior, Staff") (lit ",x") _)) _);
    reflexivity.
Defined.

(** ** The record sets *)

Section RecordSets.

Lemma str_eqb_eq a b : str_eqb a b = true <-> a = b.
Proof.
  unfold str_eqb. destruct (list_eq_dec ascii_dec a b); split; congruence.
Qed.

Lemma str_eqb_refl a : str_eqb a a = true.
Proof. now apply str_eqb_eq. Qed.

Lemma same_listing_key a b :
  same_listing a b = true <-> identity_key a = identity_key b.
Proof.
  unfold same_listing, identity_key.
  rewrite !andb_true_iff, !str_eqb_eq. split.
  - intros [[-> ->] ->]. reflexivity.
  - intros H. injection H as -> -> ->. auto.
Qed.

Lemma isDuplicateJob_key jobs newJob :
  Scraper.isDuplicateJob jobs newJob = true <->
  In (identity_key newJob) (map identity_key jobs).
Proof.
  unfold Scraper.isDuplicateJob. rewrite existsb_exists, in_map_iff.
  split; intros [j [H1 H2]]; exists j.
  - apply same_listing_key in H2. auto.
  - split; [tauto|]. apply same_listing_key. tauto.
Qed.

Lemma known_key scrapedJobs newJob :
  existsb (fun existingJob => same_listing existingJob newJob) scrapedJobs = true
  <-> In (identity_key newJob) (map identity_key scrapedJobs).
Proof. apply isDuplicateJob_key. Qed.

(** A job whose key is already stored is not added by the merge. *)
Lemma jobsToAdd_known scrapedJobs newJob :
  In (identity_key newJob) (map identity_key scrapedJobs) ->
  Background.jobsToAdd scrapedJobs [newJob] = [].
Proof.
  intros H. apply known_key in H. unfold Background.jobsToAdd. simpl.
  now rewrite H.
Qed.

(** The merge keeps the keys distinct when those of the batch are. *)
Lemma jobsToAdd_distinct scrapedJobs newJobs :
  distinct_keys scrapedJobs -> distinct_keys newJobs ->
  distinct_keys (scrapedJobs ++ Background.jobsToAdd scrapedJobs newJobs).
Proof.
  unfold distinct_keys. intros Hs Hn. rewrite map_app.
  assert (Hsub : forall k, In k (map identity_key (Background.jobsToAdd scrapedJobs newJobs)) ->
                           In k (map identity_key newJobs) /\
                           ~ In k (map identity_key scrapedJobs)).
  { intros k Hk. apply in_map_iff in Hk. destruct Hk as [j [<- Hj]].
    unfold Background.jobsToAdd in Hj. apply filter_In in Hj.
    destruct Hj as [Hj Hf]. split; [now apply in_map|].
    apply negb_true_iff in Hf. intros Hin. apply known_key in Hin. congruence. }
  assert (Hadd : NoDup (map identity_key (Background.jobsToAdd scrapedJobs newJobs))).
  { clear Hsub. unfold Background.jobsToAdd.
    induction newJobs as [|j l IH]; simpl; [constructor|].
    simpl in Hn. inversion Hn as [|k ks Hk Hks]; subst.
    destruct (negb _); [|now apply IH].
    simpl. constructor; [|now apply IH].
    intros Hin. apply Hk. apply in_map_iff in Hin.
    destruct Hin as [j' [He Hj']]. apply filter_In in Hj'.
    rewrite <- He. apply in_map. tauto. }
  apply NoDup_app; [exact Hs | exact Hadd |].
  intros k Hk Hk'. apply Hsub in Hk'. tauto.
Qed.

End RecordSets.

(** C1, evaluated where it fails.  One [SAVE_JOBS] request carrying two
    records with the same (title, company, url) and different descriptions,
    sent to an empty store: both are stored, because [handleSaveJobs]
    compares each new record with the records stored before the request
    only.  The store then holds two records with one identity key. *)
Theorem C1_save_jobs_keeps_duplicates_of_a_batch :
  identity_key (C1_job "first") = identity_key (C1_job "second") /\
  Background.scrapedJobs
    (fst (Background.handleSaveJobs quiet_host empty_store
            (Some [C1_job "first"; C1_job "second"])))
  = [C1_job "first"; C1_job "second"] /\
  Bus.jobCount
    (snd (Background.onMessage quiet_host empty_store
            {| Bus.action := VString (lit "SAVE_JOBS");
               Bus.jobs := Some [C1_job "first"; C1_job "second"] |}))
  = Some 2%Z /\
  ~ distinct_keys
      (Background.scrapedJobs
         (fst (Background.handleSaveJobs quiet_host empty_store
                 (Some [C1_job "first"; C1_job "second"])))).
Proof.
  split; [reflexivity|]. split; [reflexivity|]. split; [reflexivity|].
  unfold distinct_keys. intros H. simpl in H.
  inversion H as [|k ks Hk _]; subst. apply Hk. now left.
Qed.

(** C8, evaluated where it fails.  The background listener answers a
    request with an unknown action with an object that has the member
    [error] but no member [success]; the record state is unchanged. *)
Theorem C8_background_unknown_action_omits_success :
  forall (h : Background.Host) (st : Background.State),
    Background.onMessage h st (Bus.request "PING")
    = (st, {| Bus.success := None;
              Bus.error := Some (lit "Unknown action");
              Bus.resp_jobs := None;
              Bus.jobCount := None |}).
Proof. reflexivity. Qed.

(** ** Decimal numerals *)

Section Decimal.

Import JsNumber.
Open Scope Z_scope.

Lemma numeral_digits d : Forall (fun c => is_digit c = true) (numeral d).
Proof.
  unfold numeral, lit. induction d; simpl; constructor; auto.
Qed.

Lemma digits_value_numeral d acc rest :
  match rest with c :: _ => is_digit c = false | [] => True end ->
  digits_value acc (numeral d ++ rest) = uint_value d acc.
Proof.
  intros Hrest. unfold numeral, lit. revert acc.
  induction d; intros acc; simpl; try apply IHd.
  destruct rest as [|c rest]; simpl; [reflexivity|]. now rewrite Hrest.
Qed.

Lemma uint_value_pos d acc :
  uint_value d (Z.pos acc) = Z.pos (Pos.of_uint_acc d acc).
Proof.
  revert acc. induction d; intros acc; cbn [uint_value Pos.of_uint_acc];
    try reflexivity; rewrite <- IHd; f_equal; lia.
Qed.

Lemma uint_value_zero d : uint_value d 0 = Z.of_N (N.of_uint d).
Proof.
  unfold N.of_uint. induction d; cbn [uint_value Pos.of_uint Z.of_N];
    try reflexivity; try exact IHd;
    rewrite <- uint_value_pos; reflexivity.
Qed.

Lemma decimal_numeral n :
  decimal n = numeral (N.to_uint n) /\ numeral (N.to_uint n) <> [].
Proof.
  unfold decimal, numeral, NilZero.string_of_uint.
  destruct (N.to_uint n) eqn:E; try (split; [reflexivity | discriminate]).
  exfalso. destruct n as [|p]; [discriminate|].
  apply (f_equal N.of_uint) in E. rewrite DecimalN.Unsigned.of_to in E.
  discriminate.
Qed.

(** A numeral is a non-empty string of digits. *)
Lemma decimal_digits n :
  Forall (fun c => is_digit c = true) (decimal n) /\ decimal n <> [].
Proof.
  destruct (decimal_numeral n) as [-> Hne]. split; [apply numeral_digits | exact Hne].
Qed.

(** Reading the digits of a numeral gives the number back. *)
Lemma digits_value_decimal n rest :
  match rest with c :: _ => is_digit c = false | [] => True end ->
  digits_value 0 (decimal n ++ rest) = Z.of_N n.
Proof.
  intros Hrest. destruct (decimal_numeral n) as [-> _].
  rewrite digits_value_numeral by assumption.
  now rewrite uint_value_zero, DecimalN.Unsigned.of_to.
Qed.

Lemma digit_not_space c : is_digit c = true -> is_space c = false.
Proof.
  intros Hd. destruct (is_space c) eqn:Es; [|reflexivity].
  apply is_space_cases in Es.
  destruct Es as [-> | [-> | [-> | [-> | [-> | [-> | ->]]]]]]; discriminate.
Qed.

Lemma parseInt_digits c s :
  is_digit c = true -> parseInt (c :: s) = Some (digits_value 0 (c :: s)).
Proof.
  intros Hd. unfold parseInt, trimStart. simpl dropWhile.
  rewrite (digit_not_space c Hd).
  assert (Hm : Ascii.eqb c "-" = false).
  { apply Ascii.eqb_neq. intros ->. discriminate. }
  assert (Hp : Ascii.eqb c "+" = false).
  { apply Ascii.eqb_neq. intros ->. discriminate. }
  rewrite Hm, Hp. cbn [fst snd]. rewrite Hd.
  f_equal. destruct (digits_value 0 (c :: s)); reflexivity.
Qed.

(** [parseInt] reads a numeral, whatever follows it. *)
Lemma parseInt_decimal n rest :
  match rest with c :: _ => is_digit c = false | [] => True end ->
  parseInt (decimal n ++ rest) = Some (Z.of_N n).
Proof.
  intros Hrest. destruct (decimal_digits n) as [Hd Hne].
  destruct (decimal n) as [|c s] eqn:E; [now elim Hne|].
  simpl app. rewrite parseInt_digits by (now inversion Hd).
  change (c :: s ++ rest) with ((c :: s) ++ rest). rewrite <- E.
  now rewrite digits_value_decimal.
Qed.

End Decimal.

(** ** Matching *)

Section RegexFacts.

Import Regex.

Context {A : Type}.
Implicit Types (k : str -> captures -> option A) (c : captures).

(** A greedy repetition of a class swallows a run of the class that is
    followed by something else, when the continuation accepts the rest. *)
Lemma star_loop_class p k l rest c n a :
  Forall (fun x => p x = true) l ->
  match rest with x :: _ => p x = false | [] => True end ->
  (List.length (l ++ rest) <= n)%nat ->
  k rest c = Some a ->
  star_loop (go (Cls p)) k n (l ++ rest) c = Some a.
Proof.
  intros Hl Hrest Hn Hk. revert n Hn.
  induction Hl as [|x l Hx Hl IH]; intros n Hn.
  - simpl app. destruct n as [|n]; simpl; [exact Hk|].
    destruct rest as [|y rest]; [exact Hk|]. now rewrite Hrest.
  - destruct n as [|n]; [simpl in Hn; lia|].
    simpl. rewrite Hx.
    rewrite IH by (simpl in Hn; lia).
    replace (List.length (l ++ rest) <? S (List.length (l ++ rest)))%nat with true
      by (symmetry; apply Nat.ltb_lt; lia).
    reflexivity.
Qed.

Lemma go_star_class p k l rest c a :
  Forall (fun x => p x = true) l ->
  match rest with x :: _ => p x = false | [] => True end ->
  k rest c = Some a ->
  go (Star (Cls p)) (l ++ rest) c k = Some a.
Proof.
  intros. simpl. apply star_loop_class; auto.
Qed.

Lemma go_plus_class p k l rest c a :
  l <> [] ->
  Forall (fun x => p x = true) l ->
  match rest with x :: _ => p x = false | [] => True end ->
  k rest c = Some a ->
  go (Plus (Cls p)) (l ++ rest) c k = Some a.
Proof.
  intros Hne Hl Hrest Hk. destruct l as [|x l]; [now elim Hne|].
  inversion Hl as [|? ? Hx Hl']; subst.
  unfold Plus. cbn [go app]. rewrite Hx.
  apply star_loop_class; auto.
Qed.

Lemma firstn_app_rest (l rest : str) :
  firstn (List.length (l ++ rest) - List.length rest) (l ++ rest) = l.
Proof.
  rewrite length_app, Nat.add_sub. rewrite firstn_app, Nat.sub_diag.
  simpl. now rewrite firstn_all, app_nil_r.
Qed.

Lemma go_group_plus_class i p k l rest c a :
  l <> [] ->
  Forall (fun x => p x = true) l ->
  match rest with x :: _ => p x = false | [] => True end ->
  k rest ((i, l) :: c) = Some a ->
  go (Group i (Plus (Cls p))) (l ++ rest) c k = Some a.
Proof.
  intros Hne Hl Hrest Hk. cbn [go].
  apply go_plus_class; auto. now rewrite firstn_app_rest.
Qed.

(** A literal at the front of the input is consumed. *)
Lemma go_Lit_of_Chr w rest c k :
  w <> [] -> go (Lit_of Chr w) (w ++ rest) c k = k rest c.
Proof.
  intros Hne. revert c. induction w as [|x w IH]; intros c; [now elim Hne|].
  destruct w as [|y w].
  - simpl. now rewrite Ascii.eqb_refl.
  - change (Lit_of Chr (x :: y :: w)) with (Seq (Chr x) (Lit_of Chr (y :: w))).
    cbn [go Chr app]. rewrite Ascii.eqb_refl. apply IH. discriminate.
Qed.

Lemma go_Lit_of_ChrI w s rest c k :
  w <> [] -> map upper s = map upper w ->
  go (Lit_of ChrI w) (s ++ rest) c k = k rest c.
Proof.
  intros Hne. revert s c. induction w as [|x w IH]; intros s c Hs; [now elim Hne|].
  destruct s as [|z s]; [discriminate|]. simpl in Hs. injection Hs as Hz Hs.
  destruct w as [|y w].
  - destruct s; [|discriminate]. simpl. rewrite Hz. now rewrite Ascii.eqb_refl.
  - change (Lit_of ChrI (x :: y :: w)) with (Seq (ChrI x) (Lit_of ChrI (y :: w))).
    cbn [go ChrI app]. rewrite Hz, Ascii.eqb_refl. apply IH; [discriminate | exact Hs].
Qed.

End RegexFacts.

Section ExecFacts.

Import Regex.



Lemma decimal_cons n :
  exists c s, decimal n = c :: s /\ is_digit c = true.
Proof.
  destruct (decimal_digits n) as [Hd Hne].
  destruct (decimal n) as [|c s]; [now elim Hne|].
  exists c, s. split; [reflexivity | now inversion Hd].
Qed.

End ExecFacts.

(** ** Pagination *)

Section Pagination.

Import Regex JsNumber Scraper.
Open Scope Z_scope.

Lemma ceil_quot_spec n d :
  0 < d -> d * (ceil_quot n d - 1) < n <= d * ceil_quot n d.
Proof.
  intros Hd. unfold ceil_quot.
  pose proof (Z.div_mod (- n) d ltac:(lia)) as E.
  pose proof (Z.mod_pos_bound (- n) d Hd) as B.
  nia.
Qed.

Lemma digit_start_trim c s :
  is_digit c = true -> is_space (hd COMMA (c :: s)) = false.
Proof. intros H. simpl. now apply digit_not_space. Qed.





Lemma currentPage_offset p offset :
  currentPage (getPaginationInfo (with_startParam (Some (decimal offset)) p))
  = Some (Z.of_N offset / JOBS_PER_PAGE + 1).
Proof.
  unfold getPaginationInfo. cbn [currentPage with_startParam startParam].
  destruct (decimal_cons offset) as [c [s [E _]]].
  replace (truthy (decimal offset)) with true by (now rewrite E).
  rewrite <- (app_nil_r (decimal offset)), parseInt_decimal by exact I.
  reflexivity.
Qed.

End Pagination.



(** ** The page loop *)

Section PageLoop.

Import JsNumber Scraper.
Open Scope Z_scope.

Lemma pages_loop_journal fuel c rounds :
  forall i total cur before jobs active log exit final,
    pages_loop fuel c rounds i total cur before jobs active = (log, exit, final) ->
    0 <= before < 3 ->
    journal_ok before log exit.
Proof.
  induction fuel as [|fuel IH]; intros i total cur before jobs active log exit final H Hb.
  - simpl in H. injection H as <- <- <-. repeat split; try exact I.
    + discriminate.
    + intros [e [He _]]. discriminate.
  - cbn [pages_loop] in H.
    destruct (leb (Some cur) total && active).
    2:{ injection H as <- <- <-. repeat split; try exact I.
        - discriminate.
        - intros [e [He _]]. discriminate. }
    set (r := rounds i) in *.
    set (jobs' := fst (scrapeJobListingsDetailed c (round_page r) (visits r) jobs)) in *.
    set (new := Z.of_nat (List.length jobs') - Z.of_nat (List.length jobs)) in *.
    set (low := if new <? 5 then before + 1 else 0) in *.
    set (entry := {| log_page := cur; newJobsThisPage := new; lowYieldAfter := low |}) in *.
    assert (Hrule : lowYieldAfter entry = if low_yield entry then before + 1 else 0)
      by reflexivity.
    unfold MAX_LOW_YIELD_PAGES in H.
    destruct ((new <? 5) && (low >=? 3)) eqn:Eab.
    + injection H as <- <- <-. apply andb_true_iff in Eab. destruct Eab as [_ Hge].
      repeat split; try exact I; try exact Hrule.
      * intros _. exists entry. split; [reflexivity|]. simpl. lia.
    + assert (Hlow : 0 <= low < 3).
      { subst low. destruct (new <? 5) eqn:En; [|lia].
        simpl in Eab. lia. }
      assert (Hstop : forall x, x <> LowYieldAbort ->
                journal_ok before [entry] x).
      { intros x Hx. repeat split; try exact I; try exact Hrule.
        - intros ->. now elim Hx.
        - intros [e [He Hge]]. simpl in He. injection He as <-. simpl in Hge. lia. }
      destruct (ltb (Some cur) total && active_after_page r).
      2:{ injection H as <- <- <-. apply Hstop. discriminate. }
      destruct (navigateToNextPage (page_at_navigation r) (location_throws r)).
      2:{ injection H as <- <- <-. apply Hstop. discriminate. }
      destruct (pages_loop fuel c rounds (S i) total (cur + 1) low jobs'
                  (active_at_next_test r)) as [[log' exit'] final'] eqn:El.
      injection H as <- <- <-.
      destruct (IH _ _ _ _ _ _ _ _ _ El Hlow) as [H1 [H2 H3]].
      split; [|split; [|split]].
      * split; [exact Hrule | exact H1].
      * destruct log' as [|e' log']; [exact I|]. split; [simpl; lia | exact H2].
      * intros Hx. apply H3 in Hx. destruct Hx as [e [He Hge]].
        exists e. split; [|exact Hge].
        destruct log' as [|e' log']; [discriminate|]. exact He.
      * intros [e [He Hge]]. apply H3.
        destruct log' as [|e' log'].
        -- simpl in He. injection He as <-. simpl in Hge. lia.
        -- exists e. split; [exact He | exact Hge].
Qed.

(** The loop ends within its fuel. *)
Lemma pages_loop_terminates fuel c rounds :
  forall i t cur before jobs active,
    (S (Z.to_nat (t + 1 - cur)) <= fuel)%nat ->
    snd (fst (pages_loop fuel c rounds i (Some t) cur before jobs active))
    <> PagesFuel.
Proof.
  induction fuel as [|fuel IH]; intros i t cur before jobs active Hf; [lia|].
  cbn [pages_loop].
  destruct (leb (Some cur) (Some t) && active) eqn:Et; [|simpl; discriminate].
  apply andb_true_iff in Et. destruct Et as [Et _]. simpl in Et.
  apply Z.leb_le in Et.
  destruct (_ && (_ >=? MAX_LOW_YIELD_PAGES)); [simpl; discriminate|].
  destruct (ltb (Some cur) (Some t) && _); [|simpl; discriminate].
  destruct (navigateToNextPage _ _); [|simpl; discriminate].
  match goal with
  | |- context [pages_loop fuel c rounds ?i' ?t' ?cur' ?b' ?j' ?a'] =>
      specialize (IH i' t cur' b' j' a');
      destruct (pages_loop fuel c rounds i' t' cur' b' j' a') as [[l x] f]
  end.
  simpl in *. apply IH. lia.
Qed.

Lemma counter_nonneg before log :
  counter_rule before log -> 0 <= before ->
  forall k e, nth_error log k = Some e -> 0 <= lowYieldAfter e.
Proof.
  revert before. induction log as [|x log IH]; intros before Hr Hb k e Hk.
  - destruct k; discriminate.
  - destruct Hr as [Hx Hr].
    assert (Hx0 : 0 <= lowYieldAfter x) by (rewrite Hx; destruct (low_yield x); lia).
    destruct k as [|k].
    + simpl in Hk. now injection Hk as <-.
    + simpl in Hk. eapply IH; eassumption.
Qed.

(** Three low-yield pages in a row bring the counter to the limit. *)
Lemma three_low_reach_limit before log k :
  counter_rule before log -> 0 <= before ->
  three_low_from k log = true ->
  exists e, nth_error log (k + 2) = Some e /\ 3 <= lowYieldAfter e.
Proof.
  revert before log. induction k as [|k IH]; intros before log Hr Hb H3.
  - unfold three_low_from in H3. simpl in H3.
    destruct log as [|e1 [|e2 [|e3 log]]]; try discriminate.
    apply andb_true_iff in H3. destruct H3 as [H3 L3].
    apply andb_true_iff in H3. destruct H3 as [L1 L2].
    destruct Hr as [R1 [R2 [R3 _]]]. rewrite L1 in R1. rewrite L2 in R2.
    rewrite L3 in R3. exists e3. split; [reflexivity | lia].
  - destruct log as [|x log]; [discriminate|]. destruct Hr as [Hx Hr].
    assert (Hx0 : 0 <= lowYieldAfter x) by (rewrite Hx; destruct (low_yield x); lia).
    destruct (IH _ _ Hr Hx0 H3) as [e [He Hge]]. exists e. split; assumption.
Qed.

Lemma below_limit_nth log :
  below_limit_before_end log ->
  forall k e, nth_error log k = Some e -> (S k < List.length log)%nat ->
              lowYieldAfter e < 3.
Proof.
  induction log as [|x log IH]; intros Hb k e Hk Hlen; [destruct k; discriminate|].
  destruct log as [|y log]; [simpl in Hlen; lia|].
  destruct Hb as [Hx Hb]. destruct k as [|k].
  - simpl in Hk. now injection Hk as <-.
  - simpl in Hk. apply (IH Hb k e Hk). simpl in *. lia.
Qed.

Lemma final_entry_nth log :
  final_entry log = nth_error log (List.length log - 1).
Proof.
  induction log as [|x log IH]; [reflexivity|].
  destruct log as [|y log]; [reflexivity|].
  change (final_entry (x :: y :: log)) with (final_entry (y :: log)).
  rewrite IH. simpl. now rewrite Nat.sub_0_r.
Qed.

(** When the counter reaches the limit at the end of a journal that starts
    from [before], the last pages were low-yield pages: the last three, or
    all of them if the journal is shorter. *)
Lemma limit_needs_low_pages log :
  forall before e,
    counter_rule before log -> 0 <= before ->
    below_limit_before_end log ->
    final_entry log = Some e -> 3 <= lowYieldAfter e ->
    ((3 <= List.length log)%nat /\
     three_low_from (List.length log - 3) log = true) \/
    ((List.length log < 3)%nat /\ forallb low_yield log = true /\
     3 <= before + Z.of_nat (List.length log)).
Proof.
  induction log as [|x log IH]; intros before e Hr Hb Hbl Hf Hge; [discriminate|].
  destruct Hr as [Hx Hr].
  destruct log as [|y log].
  - simpl in Hf. injection Hf as <-. right.
    destruct (low_yield x) eqn:Lx; [|lia].
    simpl. rewrite Lx. repeat split; lia.
  - destruct Hbl as [Hx3 Hbl].
    assert (Hx0 : 0 <= lowYieldAfter x) by (rewrite Hx; destruct (low_yield x); lia).
    change (final_entry (x :: y :: log)) with (final_entry (y :: log)) in Hf.
    destruct (IH _ _ Hr Hx0 Hbl Hf Hge) as [[Hlen H3] | [Hlen [Hall Hsum]]].
    + left. split; [simpl in *; lia|].
      replace (List.length (x :: y :: log) - 3)%nat
        with (S (List.length (y :: log) - 3)) by (simpl in *; lia).
      exact H3.
    + assert (Lx : low_yield x = true).
      { destruct (low_yield x); [reflexivity|]. simpl in *. lia. }
      rewrite Lx in Hx.
      destruct log as [|z log].
      * right. simpl. simpl in Hall. rewrite Lx, Hall.
        repeat split; simpl in *; lia.
      * destruct log as [|w log]; [|simpl in Hlen; lia].
        left. split; [simpl; lia|].
        simpl in Hall. apply andb_true_iff in Hall. destruct Hall as [Ly Hz].
        apply andb_true_iff in Hz. destruct Hz as [Lz _].
        unfold three_low_from. simpl. now rewrite Lx, Ly, Lz.
Qed.

End PageLoop.

Section PageLoopEnd.

Import JsNumber Scraper.
Open Scope Z_scope.

Lemma final_entry_at_most_limit log :
  forall before e,
    counter_rule before log -> before < 3 -> below_limit_before_end log ->
    final_entry log = Some e -> lowYieldAfter e <= 3.
Proof.
  induction log as [|x log IH]; intros before e Hr Hb Hbl Hf; [discriminate|].
  destruct Hr as [Hx Hr]. destruct log as [|y log].
  - simpl in Hf. injection Hf as <-. rewrite Hx. destruct (low_yield x); lia.
  - destruct Hbl as [Hx3 Hbl].
    change (final_entry (x :: y :: log)) with (final_entry (y :: log)) in Hf.
    eapply IH; eassumption.
Qed.

Lemma three_low_from_length k log :
  three_low_from k log = true -> (k + 3 <= List.length log)%nat.
Proof.
  unfold three_low_from. intros H.
  destruct (skipn k log) as [|e1 [|e2 [|e3 l]]] eqn:E; try discriminate.
  apply (f_equal (@List.length _)) in E. rewrite length_skipn in E.
  simpl in E. lia.
Qed.

Lemma scrapeAllPages_journal c p rounds st log exit final :
  scrapeAllPages c p rounds st = (log, exit, final) ->
  journal_ok 0 log exit /\ exit <> PagesFuel.
Proof.
  unfold scrapeAllPages. intros H.
  destruct (currentPage (getPaginationInfo p)) as [cur|].
  - split; [eapply pages_loop_journal; [exact H | lia]|].
    destruct (totalPages (getPaginationInfo p)) as [t|].
    + pose proof (pages_loop_terminates (pages_fuel (Some t) cur) c rounds
                    0%nat t cur 0 (jobs st) (isScrapingActive st)) as Ht.
      rewrite H in Ht. apply Ht. simpl. lia.
    + simpl in H. injection H as <- <- <-. discriminate.
  - injection H as <- <- <-. split; [|discriminate].
    repeat split; try exact I.
    + discriminate.
    + intros [e [He _]]. discriminate.
Qed.

End PageLoopEnd.

Section PageLoopRecords.

Import JsNumber Scraper.
Open Scope Z_scope.

Lemma accepted_on_page_next c rounds i jobs k :
  accepted_on_page c rounds i jobs (S k)
  = accepted_on_page c rounds (S i)
      (fst (scrapeJobListingsDetailed c (round_page (rounds i))
              (visits (rounds i)) jobs)) k.
Proof. reflexivity. Qed.

Lemma accepted_pages_cons c rounds i jobs n :
  map (accepted_on_page c rounds i jobs) (seq 0 (S n))
  = accepted_on_page c rounds i jobs 0
    :: map (accepted_on_page c rounds (S i)
              (fst (scrapeJobListingsDetailed c (round_page (rounds i))
                      (visits (rounds i)) jobs)))
           (seq 0 n).
Proof.
  cbn [seq map]. f_equal. rewrite <- seq_shift, map_map.
  apply map_ext. intros k. apply accepted_on_page_next.
Qed.

(** The journal records, page by page, the number of records that the
    walk over the cards of the page added to the session. *)
Lemma pages_loop_records fuel c rounds :
  forall i total cur low jobs active log exit final,
    pages_loop fuel c rounds i total cur low jobs active = (log, exit, final) ->
    map newJobsThisPage log
      = map (accepted_on_page c rounds i jobs) (seq 0 (List.length log)) /\
    final = jobs_after_pages c rounds i (List.length log) jobs.
Proof.
  induction fuel as [|fuel IH];
    intros i total cur low jobs active log exit final H.
  - cbn [pages_loop] in H. injection H as <- <- <-. split; reflexivity.
  - cbn [pages_loop] in H.
    destruct (leb (Some cur) total && active).
    2:{ injection H as <- <- <-. split; reflexivity. }
    set (r := rounds i) in *.
    set (jobs' := fst (scrapeJobListingsDetailed c (round_page r) (visits r) jobs)) in *.
    set (new := Z.of_nat (List.length jobs') - Z.of_nat (List.length jobs)) in *.
    set (low' := if new <? 5 then low + 1 else 0) in *.
    set (entry := {| log_page := cur; newJobsThisPage := new;
                     lowYieldAfter := low' |}) in *.
    assert (Hone : map newJobsThisPage [entry]
                   = map (accepted_on_page c rounds i jobs) (seq 0 1) /\
                   jobs' = jobs_after_pages c rounds i 1 jobs)
      by (split; reflexivity).
    destruct ((new <? 5) && (low' >=? MAX_LOW_YIELD_PAGES)).
    { injection H as <- <- <-. exact Hone. }
    destruct (ltb (Some cur) total && active_after_page r).
    2:{ injection H as <- <- <-. exact Hone. }
    destruct (navigateToNextPage (page_at_navigation r) (location_throws r)).
    2:{ injection H as <- <- <-. exact Hone. }
    destruct (pages_loop fuel c rounds (S i) total (cur + 1) low' jobs'
                (active_at_next_test r)) as [[log' exit'] final'] eqn:El.
    injection H as <- <- <-.
    destruct (IH _ _ _ _ _ _ _ _ _ El) as [H1 H2].
    split.
    + cbn [List.length]. rewrite accepted_pages_cons.
      cbn [map newJobsThisPage entry]. f_equal. exact H1.
    + exact H2.
Qed.

Lemma scrapeAllPages_records c p rounds st log exit final :
  scrapeAllPages c p rounds st = (log, exit, final) ->
  map newJobsThisPage log
    = map (accepted_on_page c rounds 0 (jobs st)) (seq 0 (List.length log)) /\
  final = jobs_after_pages c rounds 0 (List.length log) (jobs st).
Proof.
  unfold scrapeAllPages. cbv zeta. intros H.
  destruct (currentPage (getPaginationInfo p)) as [cur|].
  - eapply pages_loop_records. exact H.
  - injection H as <- <- <-. split; reflexivity.
Qed.

End PageLoopRecords.

(** C3.  In a run over the pages, on a document whose page numbers are in
    the range of exact arithmetic, the journal holds for every page the
    number of records that the walk over its cards added to the session, and
    the session at the end is the one those walks built.  The counter of
    consecutive low-yield pages is incremented after every page that added
    fewer than 5 records and reset to 0 after every other page; the run ends
    as aborted exactly when the counter reaches 3 after a page.  So three
    low-yield pages in a row always abort the run, with the third of them,
    and a run that is aborted has seen at least three pages and its last
    three pages were low-yield pages.  The loop itself always ends. *)
Theorem C3_low_yield_abort
  (c : Scraper.Clock) (p : Scraper.Page) (rounds : nat -> Scraper.PageRound)
  (st : Scraper.State) (log : list Scraper.PageLog) (exit : Scraper.PagesExit)
  (final : list JobData) :
  exact_pagination p ->
  Scraper.scrapeAllPages c p rounds st = (log, exit, final) ->
  map Scraper.newJobsThisPage log
    = map (accepted_on_page c rounds 0 (Scraper.jobs st))
          (seq 0 (List.length log))
  /\ final = jobs_after_pages c rounds 0 (List.length log) (Scraper.jobs st)
  /\ counter_rule 0 log
  /\ exit <> Scraper.PagesFuel
  /\ (exit = Scraper.LowYieldAbort <->
      exists e, final_entry log = Some e /\ Scraper.lowYieldAfter e = 3%Z)
  /\ (forall k, three_low_from k log = true ->
                exit = Scraper.LowYieldAbort /\ List.length log = (k + 3)%nat)
  /\ (exit = Scraper.LowYieldAbort ->
      (3 <= List.length log)%nat /\
      three_low_from (List.length log - 3) log = true).
Proof.
  intros _ H.
  destruct (scrapeAllPages_records _ _ _ _ _ _ _ H) as [Hnew Hfinal].
  destruct (scrapeAllPages_journal _ _ _ _ _ _ _ H) as [[Hr [Hbl Hab]] Hfuel].
  split; [exact Hnew|]. split; [exact Hfinal|].
  split; [exact Hr|]. split; [exact Hfuel|].
  split; [|split].
  - rewrite Hab. split; intros [e [He Hge]]; exists e; split; try assumption.
    + pose proof (final_entry_at_most_limit log 0%Z e Hr ltac:(lia) Hbl He). lia.
    + lia.
  - intros k H3.
    destruct (three_low_reach_limit 0%Z log k Hr ltac:(lia) H3) as [e [He Hge]].
    pose proof (three_low_from_length k log H3) as Hlen.
    assert (Hk : List.length log = (k + 3)%nat).
    { destruct (Nat.eq_dec (List.length log) (k + 3)) as [|Hne]; [assumption|].
      pose proof (below_limit_nth log Hbl (k + 2)%nat e He ltac:(lia)). lia. }
    split; [|exact Hk]. apply Hab. exists e. split; [|exact Hge].
    rewrite final_entry_nth, Hk. now replace (k + 3 - 1)%nat with (k + 2)%nat by lia.
  - intros Hx. apply Hab in Hx. destruct Hx as [e [He Hge]].
    destruct (limit_needs_low_pages log 0%Z e Hr ltac:(lia) Hbl He Hge)
      as [Hyes | [Hlen [_ Hno]]]; [exact Hyes | lia].
Qed.

Lemma C3_low_yield_abort_witness :
  map Scraper.newJobsThisPage C3_journal
    = map (accepted_on_page C3_clock C3_rounds 0 (Scraper.jobs C3_start))
          (seq 0 (List.length C3_journal))
  /\ C3_final
     = jobs_after_pages C3_clock C3_rounds 0 (List.length C3_journal)
         (Scraper.jobs C3_start)
  /\ counter_rule 0 C3_journal
  /\ Scraper.LowYieldAbort <> Scraper.PagesFuel
  /\ (Scraper.LowYieldAbort = Scraper.LowYieldAbort <->
      exists e, final_entry C3_journal = Some e /\ Scraper.lowYieldAfter e = 3%Z)
  /\ (forall k, three_low_from k C3_journal = true ->
                Scraper.LowYieldAbort = Scraper.LowYieldAbort /\
                List.length C3_journal = (k + 3)%nat)
  /\ (Scraper.LowYieldAbort = Scraper.LowYieldAbort ->
      (3 <= List.length C3_journal)%nat /\
      three_low_from (List.length C3_journal - 3) C3_journal = true).
Proof.
  apply (C3_low_yield_abort C3_clock C3_page C3_rounds C3_start
           C3_journal Scraper.LowYieldAbort C3_final).
  - vm_compute. split; [reflexivity|]. split; reflexivity.
  - vm_compute. reflexivity.
Defined.

(** ** The scroll loop *)

Section ScrollLoop.

Import Scraper.
Open Scope Z_scope.

Lemma scroll_loop_bound fuel reads :
  forall st, (scrollAttempts st <= maxScrollAttempts)%nat ->
             (fst (scroll_loop fuel reads st) <= maxScrollAttempts)%nat.
Proof.
  induction fuel as [|fuel IH]; intros st Hst; [exact Hst|].
  cbn [scroll_loop].
  destruct (scrollAttempts st <? maxScrollAttempts)%nat eqn:Et; [|exact Hst].
  apply Nat.ltb_lt in Et.
  destruct (scroll_active _); [|exact Hst].
  destruct (pagination_reached _); [exact Et|].
  destruct (_ =? _).
  - destruct (_ >=? 3); [exact Et|]. apply IH. exact Et.
  - apply IH. exact Et.
Qed.

Lemma scroll_loop_terminates fuel reads :
  forall st, (S (maxScrollAttempts - scrollAttempts st) <= fuel)%nat ->
             snd (scroll_loop fuel reads st) <> ScrollFuel.
Proof.
  induction fuel as [|fuel IH]; intros st Hf; [lia|].
  cbn [scroll_loop].
  destruct (scrollAttempts st <? maxScrollAttempts)%nat eqn:Et; [|discriminate].
  apply Nat.ltb_lt in Et.
  destruct (scroll_active _); [|discriminate].
  destruct (pagination_reached _); [discriminate|].
  destruct (_ =? _).
  - destruct (_ >=? 3); [discriminate|]. apply IH. cbn [scrollAttempts]. lia.
  - apply IH. cbn [scrollAttempts]. lia.
Qed.

Lemma calm_until_at reads m j :
  calm_until reads m = true -> (j <= m)%nat ->
  scroll_active (reads j) = true /\ pagination_reached (reads j) = false.
Proof.
  unfold calm_until. rewrite forallb_forall. intros H Hj.
  specialize (H j). rewrite in_seq in H.
  specialize (H ltac:(lia)). apply andb_true_iff in H.
  destruct H as [H1 H2]. apply negb_true_iff in H2. tauto.
Qed.

(** From any turn up to [k], three unchanged reads on the turns [k], [k+1]
    and [k+2] end the loop by stability on turn [k+2] at the latest. *)
Lemma scroll_loop_stabilizes reads k :
  (k + 2 < maxScrollAttempts)%nat ->
  calm_until reads (k + 2) = true ->
  unchanged_at reads k = true ->
  unchanged_at reads (k + 1) = true ->
  unchanged_at reads (k + 2) = true ->
  forall fuel st,
    (scrollAttempts st <= k + 2)%nat ->
    (k + 3 - scrollAttempts st <= fuel)%nat ->
    previousJobCount st = previous_read reads (scrollAttempts st) ->
    Z.of_nat (scrollAttempts st) - Z.of_nat k <= stableCount st ->
    0 <= stableCount st ->
    snd (scroll_loop fuel reads st) = CountStabilized /\
    (fst (scroll_loop fuel reads st) <= k + 3)%nat.
Proof.
  intros Hk Hcalm U0 U1 U2.
  induction fuel as [|fuel IH]; intros st Ha Hf Hp Hs Hs0; [lia|].
  cbn [scroll_loop].
  replace (scrollAttempts st <? maxScrollAttempts)%nat with true
    by (symmetry; apply Nat.ltb_lt; lia).
  destruct (calm_until_at reads (k + 2) (scrollAttempts st) Hcalm Ha) as [-> ->].
  assert (Hnext : previous_read reads (S (scrollAttempts st))
                  = currentJobCount (reads (scrollAttempts st))) by reflexivity.
  destruct (currentJobCount (reads (scrollAttempts st)) =? previousJobCount st) eqn:Ec.
  - destruct (stableCount st + 1 >=? 3) eqn:E3; [simpl; split; [reflexivity | lia]|].
    assert (Hlt : (scrollAttempts st < k + 2)%nat).
    { destruct (Nat.eq_dec (scrollAttempts st) (k + 2)) as [Heq|]; [|lia].
      rewrite Heq in Hs. lia. }
    apply IH; cbn [scrollAttempts previousJobCount stableCount];
      [lia | lia | symmetry; exact Hnext | lia | lia].
  - assert (Hlt : (scrollAttempts st < k)%nat).
    { rewrite Hp in Ec. unfold unchanged_at in U0, U1, U2.
      destruct (Nat.eq_dec (scrollAttempts st) k) as [Heq|]; [congruence|].
      destruct (Nat.eq_dec (scrollAttempts st) (k + 1)) as [Heq|]; [congruence|].
      destruct (Nat.eq_dec (scrollAttempts st) (k + 2)) as [Heq|]; [congruence|].
      lia. }
    apply IH; cbn [scrollAttempts previousJobCount stableCount];
      [lia | lia | symmetry; exact Hnext | lia | lia].
Qed.

(** One turn of the loop, by cases. *)
Lemma scroll_turn_changed fuel reads st :
  (scrollAttempts st <? maxScrollAttempts)%nat = true ->
  scroll_active (reads (scrollAttempts st)) = true ->
  pagination_reached (reads (scrollAttempts st)) = false ->
  (currentJobCount (reads (scrollAttempts st)) =? previousJobCount st) = false ->
  scroll_loop (S fuel) reads st
  = scroll_loop fuel reads
      {| scrollAttempts := S (scrollAttempts st);
         previousJobCount := currentJobCount (reads (scrollAttempts st));
         stableCount := 0 |}.
Proof. intros H1 H2 H3 H4. cbn [scroll_loop]. now rewrite H1, H2, H3, H4. Qed.

Lemma scroll_turn_same fuel reads st :
  (scrollAttempts st <? maxScrollAttempts)%nat = true ->
  scroll_active (reads (scrollAttempts st)) = true ->
  pagination_reached (reads (scrollAttempts st)) = false ->
  (currentJobCount (reads (scrollAttempts st)) =? previousJobCount st) = true ->
  (stableCount st + 1 >=? 3) = false ->
  scroll_loop (S fuel) reads st
  = scroll_loop fuel reads
      {| scrollAttempts := S (scrollAttempts st);
         previousJobCount := currentJobCount (reads (scrollAttempts st));
         stableCount := stableCount st + 1 |}.
Proof. intros H1 H2 H3 H4 H5. cbn [scroll_loop]. now rewrite H1, H2, H3, H4, H5. Qed.

Lemma scroll_turn_stable fuel reads st :
  (scrollAttempts st <? maxScrollAttempts)%nat = true ->
  scroll_active (reads (scrollAttempts st)) = true ->
  pagination_reached (reads (scrollAttempts st)) = false ->
  (currentJobCount (reads (scrollAttempts st)) =? previousJobCount st) = true ->
  (stableCount st + 1 >=? 3) = true ->
  scroll_loop (S fuel) reads st = (S (scrollAttempts st), CountStabilized).
Proof. intros H1 H2 H3 H4 H5. cbn [scroll_loop]. now rewrite H1, H2, H3, H4, H5. Qed.

(** A count that is not 0 and never changes: four turns. *)
Lemma scroll_loop_steady (count : positive) :
  scroll_loop (S maxScrollAttempts) (steady (Z.pos count))
    {| scrollAttempts := 0; previousJobCount := 0; stableCount := 0 |}
  = (4%nat, CountStabilized).
Proof.
  unfold maxScrollAttempts.
  rewrite scroll_turn_changed by reflexivity.
  rewrite scroll_turn_same by (reflexivity || apply Z.eqb_refl).
  rewrite scroll_turn_same by (reflexivity || apply Z.eqb_refl).
  rewrite scroll_turn_stable by (reflexivity || apply Z.eqb_refl).
  reflexivity.
Qed.

End ScrollLoop.

(** C7, as stated, fails in its last part.  A container whose count is 0
    at every read (the count never changes after the first read) leaves the
    loop on the third turn, not on the fourth: the first read is compared
    with the initial value 0 of [previousJobCount] and already counts as
    unchanged. *)
Lemma C7_zero_count_exits_on_third_turn :
  Scraper.triggerLazyLoadingOfAllJobs true (steady 0)
  = Some (3%nat, Scraper.CountStabilized).
Proof. reflexivity. Qed.



(** C7 (amended).  For every sequence of observations the scroll loop
    enters its body at most 20 times and always ends.  If, while the run
    is not cancelled and the pagination control is not near, the count
    equals the count of the turn before on three consecutive turns [k],
    [k+1], [k+2] below the cap (on the first turn: equals the initial
    value 0), the loop ends by the stability condition after at most
    [k+3] turns.  A count that never changes exits on the fourth turn when
    it is not 0, and on the third turn when it is 0. *)
Theorem C7_scroll_loop_exits (reads : nat -> Scraper.ScrollRead) (k : nat) :
  (k + 2 < Scraper.maxScrollAttempts)%nat ->
  calm_until reads (k + 2) = true ->
  unchanged_at reads k = true ->
  unchanged_at reads (k + 1) = true ->
  unchanged_at reads (k + 2) = true ->
  (exists n, Scraper.triggerLazyLoadingOfAllJobs true reads
             = Some (n, Scraper.CountStabilized) /\
             (n <= k + 3)%nat /\ (n <= Scraper.maxScrollAttempts)%nat)
  /\ (forall (any : nat -> Scraper.ScrollRead) (found : bool),
         match Scraper.triggerLazyLoadingOfAllJobs found any with
         | Some (n, exit) =>
             (n <= Scraper.maxScrollAttempts)%nat /\ exit <> Scraper.ScrollFuel
         | None => found = false
         end)
  /\ (forall count : positive,
         Scraper.triggerLazyLoadingOfAllJobs true (steady (Z.pos count))
         = Some (4%nat, Scraper.CountStabilized))
  /\ Scraper.triggerLazyLoadingOfAllJobs true (steady 0)
     = Some (3%nat, Scraper.CountStabilized).
Proof.
  intros Hk Hcalm U0 U1 U2. split; [|split; [|split]].
  - unfold Scraper.triggerLazyLoadingOfAllJobs.
    assert (Hstab :
      snd (Scraper.scroll_loop (S Scraper.maxScrollAttempts) reads
             {| Scraper.scrollAttempts := 0;
                Scraper.previousJobCount := 0;
                Scraper.stableCount := 0 |}) = Scraper.CountStabilized /\
      (fst (Scraper.scroll_loop (S Scraper.maxScrollAttempts) reads
              {| Scraper.scrollAttempts := 0;
                 Scraper.previousJobCount := 0;
                 Scraper.stableCount := 0 |}) <= k + 3)%nat).
    { apply (scroll_loop_stabilizes reads k Hk Hcalm U0 U1 U2);
        cbn [Scraper.scrollAttempts Scraper.previousJobCount
             Scraper.stableCount previous_read];
        unfold Scraper.maxScrollAttempts in *; try reflexivity; lia. }
    destruct Hstab as [He Hn].
    destruct (Scraper.scroll_loop _ _ _) as [n exit].
    cbn [fst snd] in He, Hn. subst exit.
    exists n. split; [reflexivity|]. split; [exact Hn|].
    unfold Scraper.maxScrollAttempts in *. lia.
  - intros any [|]; [|reflexivity]. unfold Scraper.triggerLazyLoadingOfAllJobs.
    pose proof (scroll_loop_bound (S Scraper.maxScrollAttempts) any
                  {| Scraper.scrollAttempts := 0;
                     Scraper.previousJobCount := 0;
                     Scraper.stableCount := 0 |}) as Hb.
    pose proof (scroll_loop_terminates (S Scraper.maxScrollAttempts) any
                  {| Scraper.scrollAttempts := 0;
                     Scraper.previousJobCount := 0;
                     Scraper.stableCount := 0 |}) as Ht.
    destruct (Scraper.scroll_loop _ _ _) as [n exit].
    cbn [fst snd Scraper.scrollAttempts] in Hb, Ht.
    split; [apply Hb; lia | apply Ht; lia].
  - intros count. unfold Scraper.triggerLazyLoadingOfAllJobs.
    now rewrite scroll_loop_steady.
  - reflexivity.
Qed.

Lemma C7_scroll_loop_exits_witness :
  exists n, Scraper.triggerLazyLoadingOfAllJobs true (steady 7)
            = Some (n, Scraper.CountStabilized) /\
            (n <= 1 + 3)%nat /\ (n <= Scraper.maxScrollAttempts)%nat.
Proof.
  apply (C7_scroll_loop_exits (steady 7) 1); reflexivity || (vm_compute; lia).
Defined.

(** ** The validation gate of the extractors *)

Section Extraction.

Import Scraper.

Lemma truthy_false s : truthy s = false <-> s = [].
Proof. destruct s; simpl; split; congruence. Qed.

Lemma truthy_true s : truthy s = true <-> s <> [].
Proof. destruct s; simpl; split; congruence. Qed.

Lemma trim_idempotent s : trim (trim s) = trim s.
Proof.
  destruct (trim s) as [|c t] eqn:E; [reflexivity|]. rewrite <- E.
  apply trim_fixed.
  - rewrite E. simpl. eapply trim_head. exact E.
  - assert (Hne : trim s <> []) by (rewrite E; discriminate).
    rewrite (last_default_irrelevant _ COMMA SPACE Hne). now apply trim_last.
Qed.

End Extraction.

Lemma extractJobDataFromCard_cases
  (c : Scraper.Clock) (p : Scraper.Page) (card : Scraper.Card) :
  match Scraper.extractJobDataFromCard c p card with
  | Some j =>
      title j = Scraper.cleanTitle card /\ title j <> [] /\
      trim (title j) = title j /\
      company j = Scraper.text_or_empty (Scraper.card_company card) /\
      company j <> [] /\
      url j = Scraper.card_url p card /\
      postedDate j = Some (opt_or_else (Scraper.card_posted card) []) /\
      Scraper.convertRelativeDateToISO c (opt_or_else (Scraper.card_posted card) [])
        = Returned (postedDateISO j) /\
      salary j = None /\ skills j = None /\ applicantCount j = None
  | None =>
      Scraper.cleanTitle card = [] \/
      Scraper.text_or_empty (Scraper.card_company card) = [] \/
      exists e,
        Scraper.convertRelativeDateToISO c (opt_or_else (Scraper.card_posted card) [])
        = Thrown e
  end.
Proof.
  unfold Scraper.extractJobDataFromCard.
  destruct (truthy (Scraper.cleanTitle card)) eqn:Et.
  2:{ left. now apply truthy_false. }
  destruct (truthy (Scraper.text_or_empty (Scraper.card_company card))) eqn:Ec.
  2:{ right. left. now apply truthy_false. }
  cbn [negb orb].
  destruct (Scraper.convertRelativeDateToISO c _) as [iso|e] eqn:Ed.
  - cbn [title company url postedDate postedDateISO salary skills applicantCount].
    apply truthy_true in Et, Ec. repeat split; try assumption.
    unfold Scraper.cleanTitle. apply trim_idempotent.
  - right. right. now exists e.
Qed.

(** X1. [extractJobDataFromCard] returns a record exactly when the cleaned title
    and the company are both non-empty and the conversion of the card's
    posted date does not throw.  The record carries the cleaned title (which
    has no white space at either end), the company, the resolved URL and the
    raw posted date, and none of the enrichment fields. *)
Theorem extractJobDataFromCard_gate
  (c : Scraper.Clock) (p : Scraper.Page) (card : Scraper.Card) :
  match Scraper.extractJobDataFromCard c p card with
  | Some j =>
      title j = Scraper.cleanTitle card /\ title j <> [] /\
      trim (title j) = title j /\
      company j = Scraper.text_or_empty (Scraper.card_company card) /\
      company j <> [] /\
      url j = Scraper.card_url p card /\
      postedDate j = Some (opt_or_else (Scraper.card_posted card) []) /\
      Scraper.convertRelativeDateToISO c (opt_or_else (Scraper.card_posted card) [])
        = Returned (postedDateISO j) /\
      salary j = None /\ skills j = None /\ applicantCount j = None
  | None =>
      Scraper.cleanTitle card = [] \/
      Scraper.text_or_empty (Scraper.card_company card) = [] \/
      exists e,
        Scraper.convertRelativeDateToISO c (opt_or_else (Scraper.card_posted card) [])
        = Thrown e
  end.
Proof. exact (extractJobDataFromCard_cases c p card). Qed.

(** X2. [extractJobDataFromDetailPage] returns a record exactly when the trimmed
    title and company texts are both non-empty; its URL is the location of
    the page and it has no posted date. *)
Theorem extractJobDataFromDetailPage_gate (c : Scraper.Clock) (p : Scraper.Page) :
  match Scraper.extractJobDataFromDetailPage c p with
  | Some j =>
      title j = Scraper.text_or_empty (Scraper.titleElement p) /\ title j <> [] /\
      company j = Scraper.text_or_empty (Scraper.companyElement p) /\
      company j <> [] /\
      url j = Scraper.href p /\ postedDate j = None /\ postedDateISO j = None
  | None =>
      Scraper.text_or_empty (Scraper.titleElement p) = [] \/
      Scraper.text_or_empty (Scraper.companyElement p) = []
  end.
Proof.
  unfold Scraper.extractJobDataFromDetailPage.
  destruct (truthy (Scraper.text_or_empty (Scraper.titleElement p))) eqn:Et.
  2:{ left. now apply truthy_false. }
  destruct (truthy (Scraper.text_or_empty (Scraper.companyElement p))) eqn:Ec.
  2:{ right. now apply truthy_false. }
  cbn [negb orb title company url postedDate postedDateISO].
  apply truthy_true in Et, Ec. repeat split; assumption.
Qed.

(** ** The store *)

Section StoreFacts.

Import Store.

Lemma nth_error_update_other r e f h :
  r <> e -> nth_error (update e f h) r = nth_error h r.
Proof.
  revert r e. induction h as [|j h IH]; intros r e Hne; [destruct e; reflexivity|].
  destruct e as [|e]; destruct r as [|r]; simpl; try reflexivity.
  - now elim Hne.
  - apply IH. congruence.
Qed.

Lemma nth_error_update_same e f h :
  nth_error (update e f h) e = option_map f (nth_error h e).
Proof.
  revert e. induction h as [|j h IH]; intros e; [destruct e; reflexivity|].
  destruct e as [|e]; simpl; [reflexivity | apply IH].
Qed.

Context {A B : Type} (I : heap -> Prop).

Lemma keeps_ret (a : A) (Q : A -> Prop) : Q a -> keeps I (ret a) Q.
Proof. intros Hq h Hh. split; assumption. Qed.

Lemma keeps_lift (p : completion A) : keeps I (lift p) anything.
Proof. intros h Hh. split; [assumption|]. simpl. destruct p; exact Logic.I. Qed.

Lemma keeps_deref r : keeps I (deref r) anything.
Proof.
  intros h Hh. unfold deref. destruct (nth_error h r); split; simpl; auto; exact Logic.I.
Qed.

Lemma keeps_bind (m : M A) (f : A -> M B) (Q : A -> Prop) (R : B -> Prop) :
  keeps I m Q -> (forall a, Q a -> keeps I (f a) R) -> keeps I (bind m f) R.
Proof.
  intros Hm Hf h Hh. unfold bind. destruct (Hm h Hh) as [H1 H2].
  destruct (m h) as [[a|e] h']; simpl in *.
  - apply (Hf a H2 h' H1).
  - split; [assumption | exact Logic.I].
Qed.

Lemma keeps_weaken (m : M A) (Q : A -> Prop) : keeps I m Q -> keeps I m anything.
Proof.
  intros Hm h Hh. destruct (Hm h Hh) as [H1 _]. split; [assumption|].
  destruct (fst (m h)); exact Logic.I.
Qed.

End StoreFacts.

Section StoreLoops.

Import Store.

Context (I : heap -> Prop).

Lemma keeps_when b (m : M unit) :
  (b = true -> keeps I m anything) -> keeps I (when b m) anything.
Proof.
  intros Hm. destruct b; simpl; [now apply Hm|].
  intros h Hh. split; [assumption | exact Logic.I].
Qed.

Lemma keeps_for_each {A} (items : list A) (f : A -> M unit) :
  (forall x, keeps I (f x) anything) -> keeps I (for_each items f) anything.
Proof.
  intros Hf. induction items as [|x items IH]; simpl.
  - intros h Hh. split; [assumption | exact Logic.I].
  - eapply keeps_bind; [apply Hf | intros _ _; exact IH].
Qed.

Lemma keeps_try_catch {A} (body : M A) (handler : str -> M A) (Q : A -> Prop) :
  keeps I body Q -> (forall e, keeps I (handler e) Q) ->
  keeps I (try_catch body handler) Q.
Proof.
  intros Hb Hh h Hi. unfold try_catch. destruct (Hb h Hi) as [H1 H2].
  destruct (body h) as [[a|e] h']; simpl in *.
  - split; assumption.
  - apply (Hh e h' H1).
Qed.

End StoreLoops.

Section Enriching.

Import Store Scraper.

Context (r e : ref) (b : JobData) (Hre : r <> e).

(** An assignment to the copy that respects what is kept of the basic
    record keeps the invariant. *)
Lemma keeps_assign (f : JobData -> JobData) :
  (forall d, enriched_from b d -> enriched_from b (f d)) ->
  keeps (enriching r e b) (assign e f) anything.
Proof.
  intros Hf h [Hr [d [Hd Hp]]]. split; [|exact Logic.I]. simpl. split.
  - now rewrite nth_error_update_other.
  - exists (f d). split; [|now apply Hf].
    now rewrite nth_error_update_same, Hd.
Qed.

End Enriching.

Section CleanText.

Import Scraper.

Lemma replace_char_runs_head c x t :
  x <> c ->
  replace_char_runs c (x :: t) = x :: replace_char_runs_from c false t.
Proof.
  intros Hx. unfold replace_char_runs. simpl.
  now rewrite (proj2 (Ascii.eqb_neq x c) Hx).
Qed.

(** A text that is not blank is cleaned to a non-empty text. *)
Lemma cleanText_nonempty t : truthy (trim t) = true -> cleanText t <> [].
Proof.
  intros Ht. unfold cleanText.
  destruct (trim t) as [|x u] eqn:E; [discriminate|].
  assert (Hx : is_space x = false) by (eapply trim_head; exact E).
  destruct t as [|y t]; [discriminate|]. cbn [truthy].
  unfold replace_ws_runs. simpl replace_ws_from. rewrite Hx.
  rewrite replace_char_runs_head by (intros ->; discriminate).
  rewrite replace_char_runs_head by (intros ->; discriminate).
  discriminate.
Qed.

End CleanText.

Section ProtocolSteps.

Import Store Scraper.

Context (r e : ref) (b : JobData) (Hre : r <> e).

Ltac keep_step :=
  match goal with
  | |- keeps _ (bind _ _) _ => eapply keeps_bind; [ | intros ? _ ]
  | |- keeps _ (when _ _) _ => apply keeps_when; intros ?
  | |- keeps _ (for_each _ _) _ => apply keeps_for_each; intros ?
  | |- keeps _ (lift _) _ => apply keeps_lift
  | |- keeps _ (deref _) _ => apply keeps_deref
  | |- keeps _ (ret _) _ => apply keeps_ret; exact Logic.I
  | |- keeps _ (assign _ _) _ =>
      apply keeps_assign; [assumption | intros ? Hkept; exact Hkept]
  | |- keeps _ (match ?x with _ => _ end) _ => destruct x
  end.

Lemma keeps_assign_clean (set : str -> JobData -> JobData) el :
  (forall v d, v <> [] -> enriched_from b d -> enriched_from b (set v d)) ->
  keeps (enriching r e b) (assign_clean e set el) anything.
Proof.
  intros Hset. unfold assign_clean. destruct el as [t|].
  - apply keeps_when. intros Ht. apply keeps_assign; [assumption|].
    intros d. apply Hset. now apply cleanText_nonempty.
  - apply keeps_ret. exact Logic.I.
Qed.

Lemma set_title_kept v d :
  v <> [] -> enriched_from b d -> enriched_from b (set_title v d).
Proof.
  intros Hv (H1 & H2 & H3 & H4 & H5 & H6). repeat split; try assumption.
  intros _. exact Hv.
Qed.

Lemma set_company_kept v d :
  v <> [] -> enriched_from b d -> enriched_from b (set_company v d).
Proof.
  intros Hv (H1 & H2 & H3 & H4 & H5 & H6). repeat split; try assumption.
  intros _. exact Hv.
Qed.

Lemma keeps_tertiary_span c raw :
  keeps (enriching r e b) (tertiary_span c e raw) anything.
Proof. unfold tertiary_span. cbv zeta. repeat keep_step. Qed.

Lemma keeps_preference_button raw :
  keeps (enriching r e b) (preference_button e raw) anything.
Proof. unfold preference_button. cbv zeta. repeat keep_step. Qed.

Lemma keeps_description_step el :
  keeps (enriching r e b) (description_step e el) anything.
Proof. unfold description_step. cbv zeta. repeat keep_step. Qed.

Lemma keeps_company_step s :
  keeps (enriching r e b) (company_step e s) anything.
Proof.
  unfold company_step. cbv zeta.
  eapply keeps_bind; [apply keeps_lift | intros name _].
  eapply keeps_bind;
    [apply keeps_assign_clean; intros; now apply set_company_kept | intros _ _].
  repeat keep_step.
  all: try (apply keeps_ret; exact Logic.I).
  apply keeps_assign_clean. intros v d _ Hd. exact Hd.
Qed.

(** The steps that follow the copy of the basic record. *)
Lemma keeps_enrichment_steps c d :
  keeps (enriching r e b) (enrichment_steps c d e) (eq e).
Proof.
  unfold enrichment_steps.
  eapply keeps_bind; [apply keeps_lift | intros t _].
  eapply keeps_bind;
    [apply keeps_assign_clean; intros; now apply set_title_kept | intros _ _].
  eapply keeps_bind; [apply keeps_lift | intros co _].
  eapply keeps_bind;
    [apply keeps_assign_clean; intros; now apply set_company_kept | intros _ _].
  eapply keeps_bind; [apply keeps_lift | intros tertiary _].
  eapply keeps_bind.
  { destruct tertiary; [apply keeps_for_each; intros; apply keeps_tertiary_span
                       | apply keeps_ret; exact Logic.I]. }
  intros _ _.
  eapply keeps_bind; [apply keeps_lift | intros prefs _].
  eapply keeps_bind.
  { destruct prefs; [apply keeps_for_each; intros; apply keeps_preference_button
                    | apply keeps_ret; exact Logic.I]. }
  intros _ _.
  eapply keeps_bind; [apply keeps_lift | intros descr _].
  eapply keeps_bind; [apply keeps_description_step | intros _ _].
  eapply keeps_bind; [apply keeps_lift | intros cs _].
  eapply keeps_bind.
  { destruct cs; [apply keeps_company_step | apply keeps_ret; exact Logic.I]. }
  intros _ _.
  eapply keeps_bind; [apply keeps_lift | intros ins _].
  eapply keeps_bind.
  { destruct ins; repeat keep_step. }
  intros _ _.
  eapply keeps_bind; [apply keeps_lift | intros sal _].
  eapply keeps_bind;
    [apply keeps_assign_clean; intros v d0 _ Hd; exact Hd | intros _ _].
  apply keeps_ret. reflexivity.
Qed.

End ProtocolSteps.

Section Protocol.

Import Store Scraper.

Lemma nth_error_some_lt {X} (l : list X) n x : nth_error l n = Some x -> (n < List.length l)%nat.
Proof. intros H. apply nth_error_Some. congruence. Qed.

Lemma extractDetailedJobInfo_try_steps c a r :
  extractDetailedJobInfo_try c a r
  = bind (lift (detailsContainer a)) (fun container =>
      match container with
      | None => ret r
      | Some d => bind (spread r) (enrichment_steps c d)
      end).
Proof. reflexivity. Qed.

Lemma extract_try_spec c a r h b :
  nth_error h r = Some b ->
  nth_error (snd (extractDetailedJobInfo_try c a r h)) r = Some b /\
  match fst (extractDetailedJobInfo_try c a r h) with
  | Returned r' =>
      exists d, nth_error (snd (extractDetailedJobInfo_try c a r h)) r' = Some d /\
                enriched_from b d
  | Thrown _ => True
  end.
Proof.
  intros Hr. rewrite extractDetailedJobInfo_try_steps.
  match goal with
  | |- context [bind ?m ?f h] => destruct (bind m f h) as [res h'] eqn:E
  end.
  unfold bind at 1, lift at 1 in E. cbn [fst snd].
  destruct (detailsContainer a) as [[d|]|err].
  - unfold bind at 1, spread at 1 in E. rewrite Hr in E.
    pose proof (nth_error_some_lt _ _ _ Hr) as Hlt.
    assert (Hne : r <> List.length h) by lia.
    assert (Hi : enriching r (List.length h) b (h ++ [b])).
    { split.
      - rewrite nth_error_app1 by assumption. exact Hr.
      - exists b. split.
        + rewrite nth_error_app2 by lia. now rewrite Nat.sub_diag.
        + unfold enriched_from. tauto. }
    destruct (keeps_enrichment_steps r (List.length h) b Hne c d (h ++ [b]) Hi)
      as [[Hb [d' [Hd' Hk]]] Hq].
    rewrite E in Hb, Hd', Hq. cbn [fst snd] in Hb, Hd', Hq.
    split; [exact Hb|].
    destruct res as [r'|]; [|exact Logic.I].
    subst r'. exists d'. split; assumption.
  - cbn [ret] in E. injection E as <- <-. split; [exact Hr|].
    exists b. split; [exact Hr|]. unfold enriched_from. tauto.
  - injection E as <- <-. split; [exact Hr | exact Logic.I].
Qed.

End Protocol.

Lemma extractDetailedJobInfo_result
  (c : Scraper.Clock) (a : Scraper.CardAction) (r : Store.ref)
  (h : Store.heap) (b : JobData) :
  nth_error h r = Some b ->
  exists r' h' d,
    Scraper.extractDetailedJobInfo c a r h = (Returned r', h') /\
    nth_error h' r' = Some d /\ enriched_from b d /\
    nth_error h' r = Some b /\
    (forall e hx, Scraper.extractDetailedJobInfo_try c a r h = (Thrown e, hx) ->
                  r' = r /\ d = b).
Proof.
  intros Hr. destruct (extract_try_spec c a r h b Hr) as [Hb Hq].
  unfold Scraper.extractDetailedJobInfo, Store.try_catch.
  destruct (Scraper.extractDetailedJobInfo_try c a r h) as [[r'|err] h'];
    cbn [fst snd] in *.
  - destruct Hq as [d [Hd Hk]]. exists r', h', d.
    split; [reflexivity|]. split; [exact Hd|]. split; [exact Hk|].
    split; [exact Hb|]. intros e hx Hx. discriminate Hx.
  - exists r, h', b. cbn [Store.ret].
    split; [reflexivity|]. split; [exact Hb|].
    split; [unfold enriched_from; tauto|]. split; [exact Hb|]. tauto.
Qed.

(** X4. [extractDetailedJobInfo] always returns a record: either the basic
    object itself or an enriched copy that has the URL, the capture time and
    a non-empty title and company like the basic record.  The basic object is
    never modified, and when anything throws inside the function the result
    is the basic object. *)
Theorem extractDetailedJobInfo_falls_back
  (c : Scraper.Clock) (a : Scraper.CardAction) (r : Store.ref)
  (h : Store.heap) (b : JobData) :
  nth_error h r = Some b ->
  exists r' h' d,
    Scraper.extractDetailedJobInfo c a r h = (Returned r', h') /\
    nth_error h' r' = Some d /\ enriched_from b d /\
    nth_error h' r = Some b /\
    (forall e hx, Scraper.extractDetailedJobInfo_try c a r h = (Thrown e, hx) ->
                  r' = r /\ d = b).
Proof. exact (extractDetailedJobInfo_result c a r h b). Qed.

Lemma extractDetailedJobInfo_falls_back_witness :
  exists r' h' d,
    Scraper.extractDetailedJobInfo C3_clock broken_action 0%nat [C1_job "first"]
      = (Returned r', h') /\
    nth_error h' r' = Some d /\ enriched_from (C1_job "first") d /\
    nth_error h' 0%nat = Some (C1_job "first") /\
    (forall e hx,
        Scraper.extractDetailedJobInfo_try C3_clock broken_action 0%nat
          [C1_job "first"] = (Thrown e, hx) ->
        r' = 0%nat /\ d = C1_job "first").
Proof.
  apply (extractDetailedJobInfo_falls_back C3_clock broken_action 0%nat
           [C1_job "first"] (C1_job "first")).
  reflexivity.
Defined.

Lemma clickAndExtractJobDetails_result
  (c : Scraper.Clock) (card : Scraper.Card) (a : Scraper.CardAction)
  (r : Store.ref) (h : Store.heap) (b : JobData) :
  nth_error h r = Some b ->
  exists r' h' d,
    Scraper.clickAndExtractJobDetails c card a r h = (Returned r', h') /\
    nth_error h' r' = Some d /\ enriched_from b d /\
    nth_error h' r = Some b /\
    (Scraper.jobLink card = false -> r' = r /\ d = b) /\
    (forall e hx,
        Scraper.clickAndExtractJobDetails_try c card a r h = (Thrown e, hx) ->
        r' = r /\ d = b).
Proof.
  intros Hr.
  assert (Hbase : enriched_from b b) by (unfold enriched_from; tauto).
  unfold Scraper.clickAndExtractJobDetails, Store.try_catch,
    Scraper.clickAndExtractJobDetails_try.
  destruct (Scraper.jobLink card).
  2:{ exists r, h, b. cbn [Store.ret]. tauto. }
  unfold Store.bind at 1, Store.lift at 1.
  destruct (Scraper.scrollIntoView a) as [[]|e1].
  2:{ exists r, h, b. cbn [Store.ret]. tauto. }
  unfold Store.bind at 1, Store.lift at 1.
  destruct (Scraper.click a) as [[]|e2].
  2:{ exists r, h, b. cbn [Store.ret]. tauto. }
  unfold Store.bind at 1, Store.lift at 1.
  destruct (Scraper.waitForJobDetails a) as [[]|e3].
  2:{ exists r, h, b. cbn [Store.ret]. tauto. }
  destruct (extractDetailedJobInfo_result c a r h b Hr)
    as [r' [h' [d [He [Hd [Hk [Hb _]]]]]]].
  rewrite He. exists r', h', d.
  split; [reflexivity|]. split; [exact Hd|]. split; [exact Hk|].
  split; [exact Hb|]. split; [discriminate|].
  intros e hx Hx. unfold Store.bind, Store.lift in Hx.
  rewrite He in Hx. discriminate Hx.
Qed.

(** X5. [clickAndExtractJobDetails] never returns [null] and never loses or
    modifies the basic record: its result is the basic object or an enriched
    copy (same URL and capture time, title and company still non-empty), and
    it is the basic object when the card has no link or when the click, the
    wait or the extraction throws. *)
Theorem clickAndExtractJobDetails_falls_back
  (c : Scraper.Clock) (card : Scraper.Card) (a : Scraper.CardAction)
  (r : Store.ref) (h : Store.heap) (b : JobData) :
  nth_error h r = Some b ->
  exists r' h' d,
    Scraper.clickAndExtractJobDetails c card a r h = (Returned r', h') /\
    nth_error h' r' = Some d /\ enriched_from b d /\
    nth_error h' r = Some b /\
    (Scraper.jobLink card = false -> r' = r /\ d = b) /\
    (forall e hx,
        Scraper.clickAndExtractJobDetails_try c card a r h = (Thrown e, hx) ->
        r' = r /\ d = b).
Proof. exact (clickAndExtractJobDetails_result c card a r h b). Qed.

Lemma clickAndExtractJobDetails_falls_back_witness :
  exists r' h' d,
    Scraper.clickAndExtractJobDetails C3_clock plain_card broken_action 0%nat
      [C1_job "first"] = (Returned r', h') /\
    nth_error h' r' = Some d /\ enriched_from (C1_job "first") d /\
    nth_error h' 0%nat = Some (C1_job "first") /\
    (Scraper.jobLink plain_card = false -> r' = 0%nat /\ d = C1_job "first") /\
    (forall e hx,
        Scraper.clickAndExtractJobDetails_try C3_clock plain_card broken_action
          0%nat [C1_job "first"] = (Thrown e, hx) ->
        r' = 0%nat /\ d = C1_job "first").
Proof.
  apply (clickAndExtractJobDetails_falls_back C3_clock plain_card broken_action
           0%nat [C1_job "first"] (C1_job "first")).
  reflexivity.
Defined.

Lemma enrich_result
  (c : Scraper.Clock) (card : Scraper.Card) (a : Scraper.CardAction)
  (b : JobData) :
  exists d, Scraper.enrich c card a b = Some d /\ enriched_from b d.
Proof.
  destruct (clickAndExtractJobDetails_result c card a 0%nat [b] b eq_refl)
    as [r' [h' [d [He [Hd [Hk _]]]]]].
  exists d. unfold Scraper.enrich. rewrite He. split; assumption.
Qed.

(** X6. On a freshly extracted record the protocol yields a record, never
    [null], that keeps the URL, the capture time and a non-empty title and
    company. *)
Theorem enrich_keeps_the_record
  (c : Scraper.Clock) (card : Scraper.Card) (a : Scraper.CardAction)
  (b : JobData) :
  exists d, Scraper.enrich c card a b = Some d /\ enriched_from b d.
Proof. exact (enrich_result c card a b). Qed.

(** ** Walking the cards *)

Lemma processJobCardDetailed_cases
  (c : Scraper.Clock) (p : Scraper.Page) (v : Scraper.CardVisit)
  (jobs : list JobData) :
  match Scraper.processJobCardDetailed c p v jobs with
  | (jobs', Some true) =>
      exists b d,
        Scraper.extractJobDataFromCard c p (Scraper.visit_card v) = Some b /\
        Scraper.isDuplicateJob jobs b = false /\
        Scraper.enrich c (Scraper.visit_card v) (Scraper.visit_action v) b = Some d /\
        jobs' = jobs ++ [d] /\ url d = url b /\ valid_record d
  | (jobs', Some false) =>
      jobs' = jobs /\
      exists b,
        Scraper.extractJobDataFromCard c p (Scraper.visit_card v) = Some b /\
        Scraper.isDuplicateJob jobs b = true
  | (jobs', None) =>
      jobs' = jobs /\
      Scraper.extractJobDataFromCard c p (Scraper.visit_card v) = None
  end.
Proof.
  unfold Scraper.processJobCardDetailed.
  pose proof (extractJobDataFromCard_cases c p (Scraper.visit_card v)) as Hg.
  destruct (Scraper.extractJobDataFromCard c p (Scraper.visit_card v)) as [b|];
    [|split; reflexivity].
  destruct (Scraper.isDuplicateJob jobs b) eqn:Ed.
  - split; [reflexivity|]. exists b. split; [reflexivity | exact Ed].
  - destruct (enrich_result c (Scraper.visit_card v)
                (Scraper.visit_action v) b) as [d [He Hk]].
    rewrite He. exists b, d.
    destruct Hg as (_ & Ht & _ & _ & Hc & _).
    destruct Hk as (Hu & _ & _ & _ & Hkt & Hkc).
    repeat split; auto.
Qed.

(** X7. [processJobCardDetailed] returns [null] exactly for a card that fails
    the validation gate, and [false] exactly for a card whose basic record is
    already in the set; in both cases the set is unchanged.  Otherwise it
    returns [true] and appends one record: the enrichment of the basic
    record, with the same URL and a non-empty title and company. *)
Theorem processJobCardDetailed_outcomes
  (c : Scraper.Clock) (p : Scraper.Page) (v : Scraper.CardVisit)
  (jobs : list JobData) :
  match Scraper.processJobCardDetailed c p v jobs with
  | (jobs', Some true) =>
      exists b d,
        Scraper.extractJobDataFromCard c p (Scraper.visit_card v) = Some b /\
        Scraper.isDuplicateJob jobs b = false /\
        Scraper.enrich c (Scraper.visit_card v) (Scraper.visit_action v) b = Some d /\
        jobs' = jobs ++ [d] /\ url d = url b /\ valid_record d
  | (jobs', Some false) =>
      jobs' = jobs /\
      exists b,
        Scraper.extractJobDataFromCard c p (Scraper.visit_card v) = Some b /\
        Scraper.isDuplicateJob jobs b = true
  | (jobs', None) =>
      jobs' = jobs /\
      Scraper.extractJobDataFromCard c p (Scraper.visit_card v) = None
  end.
Proof. exact (processJobCardDetailed_cases c p v jobs). Qed.

Section CardWalk.

Import Scraper.
Open Scope Z_scope.

Lemma card_loop_accounts c p visits :
  forall jobs n,
    exists added,
      fst (card_loop c p visits jobs n) = jobs ++ added /\
      newJobsFound (snd (card_loop c p visits jobs n))
        = newJobsFound n + Z.of_nat (List.length added) /\
      duplicatesSkipped n <= duplicatesSkipped (snd (card_loop c p visits jobs n)) /\
      Z.of_nat (List.length added)
        + (duplicatesSkipped (snd (card_loop c p visits jobs n)) - duplicatesSkipped n)
        <= Z.of_nat (List.length visits) /\
      Forall valid_record added.
Proof.
  induction visits as [|v visits IH]; intros jobs n.
  - exists []. simpl. rewrite app_nil_r.
    split; [reflexivity|]. split; [lia|]. split; [lia|]. split; [lia|]. constructor.
  - cbn [card_loop]. destruct (active_at_card v).
    2:{ exists []. cbn [fst snd List.length]. rewrite app_nil_r.
        split; [reflexivity|]. split; [lia|]. split; [lia|]. split; [lia|].
        constructor. }
    pose proof (processJobCardDetailed_cases c p v jobs) as Hp.
    destruct (processJobCardDetailed c p v jobs) as [jobs' [[|]|]].
    + destruct Hp as [b [d [_ [_ [_ [-> [_ Hv]]]]]]].
      destruct (IH (jobs ++ [d])
                  {| newJobsFound := newJobsFound n + 1;
                     duplicatesSkipped := duplicatesSkipped n |})
        as [added [H1 [H2 [H3 [H4 H5]]]]].
      exists (d :: added). cbn [newJobsFound duplicatesSkipped] in *.
      rewrite H1, H2, <- app_assoc. cbn [List.length app].
      split; [reflexivity|]. split; [lia|]. split; [lia|]. split; [lia|].
      now constructor.
    + destruct Hp as [-> _].
      destruct (IH jobs
                  {| newJobsFound := newJobsFound n;
                     duplicatesSkipped := duplicatesSkipped n + 1 |})
        as [added [H1 [H2 [H3 [H4 H5]]]]].
      exists added. cbn [newJobsFound duplicatesSkipped] in *.
      rewrite H1, H2. cbn [List.length].
      split; [reflexivity|]. split; [lia|]. split; [lia|]. split; [lia|].
      assumption.
    + destruct Hp as [-> _].
      destruct (IH jobs n) as [added [H1 [H2 [H3 [H4 H5]]]]].
      exists added. rewrite H1, H2. cbn [List.length].
      split; [reflexivity|]. split; [lia|]. split; [lia|]. split; [lia|].
      assumption.
Qed.

End CardWalk.

Lemma scrapeJobListingsDetailed_counts
  (c : Scraper.Clock) (p : Scraper.Page) (visits : list Scraper.CardVisit)
  (jobs : list JobData) :
  exists added,
    fst (Scraper.scrapeJobListingsDetailed c p visits jobs) = jobs ++ added /\
    Scraper.newJobsFound (snd (Scraper.scrapeJobListingsDetailed c p visits jobs))
      = Z.of_nat (List.length added) /\
    (0 <= Scraper.duplicatesSkipped
            (snd (Scraper.scrapeJobListingsDetailed c p visits jobs)))%Z /\
    (Z.of_nat (List.length added)
       + Scraper.duplicatesSkipped
           (snd (Scraper.scrapeJobListingsDetailed c p visits jobs))
     <= Z.of_nat (List.length visits))%Z /\
    Forall valid_record added.
Proof.
  unfold Scraper.scrapeJobListingsDetailed.
  destruct (card_loop_accounts c p visits jobs
              {| Scraper.newJobsFound := 0; Scraper.duplicatesSkipped := 0 |})
    as [added [H1 [H2 [H3 [H4 H5]]]]].
  exists added. cbn [Scraper.newJobsFound Scraper.duplicatesSkipped] in *.
  split; [assumption|]. split; [lia|]. split; [lia|]. split; [lia|]. assumption.
Qed.

(** X8. The walk over the cards of a page only appends to the record set; the
    number of records it appends is its count of new jobs, which together
    with the duplicates never exceeds the number of cards; and every record
    it appends has a non-empty title and company. *)
Theorem scrapeJobListingsDetailed_accounts
  (c : Scraper.Clock) (p : Scraper.Page) (visits : list Scraper.CardVisit)
  (jobs : list JobData) :
  exists added,
    fst (Scraper.scrapeJobListingsDetailed c p visits jobs) = jobs ++ added /\
    Scraper.newJobsFound (snd (Scraper.scrapeJobListingsDetailed c p visits jobs))
      = Z.of_nat (List.length added) /\
    (0 <= Scraper.duplicatesSkipped
            (snd (Scraper.scrapeJobListingsDetailed c p visits jobs)))%Z /\
    (Z.of_nat (List.length added)
       + Scraper.duplicatesSkipped
           (snd (Scraper.scrapeJobListingsDetailed c p visits jobs))
     <= Z.of_nat (List.length visits))%Z /\
    Forall valid_record added.
Proof. exact (scrapeJobListingsDetailed_counts c p visits jobs). Qed.

(** ** What a run over the pages accumulates *)

Section PageWalk.

Import JsNumber Scraper.
Open Scope Z_scope.

Lemma consecutive_pages_cons first n :
  consecutive_pages first (S n) = first :: consecutive_pages (first + 1) n.
Proof.
  unfold consecutive_pages. cbn [seq map]. f_equal; [lia|].
  rewrite <- seq_shift, map_map. apply map_ext. intros k. lia.
Qed.

Lemma pages_summary_none cur total jobs exit :
  pages_summary cur total jobs ([], exit, jobs).
Proof.
  exists []. cbn [fst snd List.length map total_new fold_right].
  rewrite app_nil_r. split; [reflexivity|]. split; [reflexivity|].
  split; [constructor|]. split; [constructor|]. split; [reflexivity|].
  destruct total; [lia | reflexivity].
Qed.

Lemma pages_loop_summary fuel c rounds :
  forall i total cur low jobs active,
    pages_summary cur total jobs
      (pages_loop fuel c rounds i total cur low jobs active).
Proof.
  induction fuel as [|fuel IH]; intros i total cur low jobs active.
  - apply pages_summary_none.
  - cbn [pages_loop].
    destruct (leb (Some cur) total && active) eqn:Et;
      [|apply pages_summary_none].
    apply andb_true_iff in Et. destruct Et as [Et _].
    destruct total as [t|]; [|discriminate]. cbn [leb] in Et.
    apply Z.leb_le in Et.
    destruct (scrapeJobListingsDetailed_counts c (round_page (rounds i))
                (visits (rounds i)) jobs) as [added1 [H1 [_ [_ [_ Hv1]]]]].
    set (jobs' := fst (scrapeJobListingsDetailed c (round_page (rounds i))
                         (visits (rounds i)) jobs)) in *.
    set (new := Z.of_nat (List.length jobs') - Z.of_nat (List.length jobs)).
    assert (Hnew : new = Z.of_nat (List.length added1)).
    { subst new. rewrite H1, length_app. lia. }
    set (lowAfter := if new <? 5 then low + 1 else 0).
    set (entry := {| log_page := cur; newJobsThisPage := new;
                     lowYieldAfter := lowAfter |}).
    assert (Hone : forall exit, pages_summary cur (Some t) jobs ([entry], exit, jobs')).
    { intros exit. exists added1. cbn [fst snd List.length map total_new fold_right].
      split; [exact H1|]. split; [cbn [newJobsThisPage entry]; lia|].
      split; [exact Hv1|].
      split; [constructor; [cbn [newJobsThisPage entry]; lia | constructor]|].
      split; [unfold consecutive_pages; cbn [seq map log_page entry]; f_equal; lia|].
      lia. }
    destruct ((new <? 5) && (lowAfter >=? MAX_LOW_YIELD_PAGES)); [apply Hone|].
    destruct (ltb (Some cur) (Some t) && active_after_page (rounds i));
      [|apply Hone].
    destruct (navigateToNextPage _ _); [|apply Hone].
    specialize (IH (S i) (Some t) (cur + 1) lowAfter jobs'
                  (active_at_next_test (rounds i))).
    destruct (pages_loop fuel c rounds (S i) (Some t) (cur + 1) lowAfter jobs'
                (active_at_next_test (rounds i))) as [[log exit] final].
    destruct IH as [added2 [G1 [G2 [G3 [G4 [G5 G6]]]]]].
    cbn [fst snd] in *.
    exists (added1 ++ added2). cbn [fst snd].
    split; [rewrite G1, H1; now rewrite app_assoc|].
    split; [cbn [total_new fold_right newJobsThisPage entry];
            fold (total_new log); rewrite length_app; lia|].
    split; [apply Forall_app; split; assumption|].
    split; [constructor; [cbn [newJobsThisPage entry]; lia | exact G4]|].
    split; [cbn [map List.length log_page entry];
            rewrite consecutive_pages_cons, G5; reflexivity|].
    cbn [List.length]. lia.
Qed.

End PageWalk.

(** X9. A run over the pages, on a document whose page numbers are in the
    range of exact arithmetic, only appends to the record set.  The
    records it appends all have a non-empty title and company, and their
    number is the sum of the [newJobsThisPage] of the journal, each of
    which is at least 0.  The pages of the journal are consecutive,
    starting at the current page, and there are at most
    [totalPages - currentPage + 1] of them. *)
Theorem scrapeAllPages_accumulates
  (c : Scraper.Clock) (p : Scraper.Page) (rounds : nat -> Scraper.PageRound)
  (st : Scraper.State) :
  exact_pagination p ->
  exists added,
    snd (Scraper.scrapeAllPages c p rounds st) = Scraper.jobs st ++ added /\
    Z.of_nat (List.length added)
      = total_new (fst (fst (Scraper.scrapeAllPages c p rounds st))) /\
    Forall valid_record added /\
    Forall (fun e => (0 <= Scraper.newJobsThisPage e)%Z)
           (fst (fst (Scraper.scrapeAllPages c p rounds st))) /\
    match Scraper.currentPage (Scraper.getPaginationInfo p),
          Scraper.totalPages (Scraper.getPaginationInfo p) with
    | Some cur, Some t =>
        map Scraper.log_page (fst (fst (Scraper.scrapeAllPages c p rounds st)))
          = consecutive_pages cur
              (List.length (fst (fst (Scraper.scrapeAllPages c p rounds st)))) /\
        (Z.of_nat (List.length (fst (fst (Scraper.scrapeAllPages c p rounds st))))
         <= Z.max 0 (t + 1 - cur))%Z
    | _, _ => fst (fst (Scraper.scrapeAllPages c p rounds st)) = []
    end.
Proof.
  intros _. unfold Scraper.scrapeAllPages.
  destruct (Scraper.currentPage (Scraper.getPaginationInfo p)) as [cur|].
  - destruct (pages_loop_summary
                (Scraper.pages_fuel (Scraper.totalPages (Scraper.getPaginationInfo p)) cur)
                c rounds 0%nat (Scraper.totalPages (Scraper.getPaginationInfo p))
                cur 0%Z (Scraper.jobs st) (Scraper.isScrapingActive st))
      as [added [G1 [G2 [G3 [G4 [G5 G6]]]]]].
    exists added. split; [exact G1|]. split; [exact G2|]. split; [exact G3|].
    split; [exact G4|].
    destruct (Scraper.totalPages (Scraper.getPaginationInfo p)); [split|]; assumption.
  - exists []. cbn [fst snd]. rewrite app_nil_r.
    split; [reflexivity|]. split; [reflexivity|]. split; [constructor|].
    split; [constructor|]. reflexivity.
Qed.

Lemma scrapeAllPages_accumulates_witness :
  exists added,
    snd (Scraper.scrapeAllPages C3_clock C3_page C3_rounds C3_start)
      = Scraper.jobs C3_start ++ added /\
    Z.of_nat (List.length added)
      = total_new (fst (fst (Scraper.scrapeAllPages C3_clock C3_page C3_rounds
                               C3_start))) /\
    Forall valid_record added /\
    Forall (fun e => (0 <= Scraper.newJobsThisPage e)%Z)
           (fst (fst (Scraper.scrapeAllPages C3_clock C3_page C3_rounds C3_start))) /\
    match Scraper.currentPage (Scraper.getPaginationInfo C3_page),
          Scraper.totalPages (Scraper.getPaginationInfo C3_page) with
    | Some cur, Some t =>
        map Scraper.log_page
            (fst (fst (Scraper.scrapeAllPages C3_clock C3_page C3_rounds C3_start)))
          = consecutive_pages cur
              (List.length
                 (fst (fst (Scraper.scrapeAllPages C3_clock C3_page C3_rounds
                              C3_start)))) /\
        (Z.of_nat
           (List.length
              (fst (fst (Scraper.scrapeAllPages C3_clock C3_page C3_rounds
                           C3_start))))
         <= Z.max 0 (t + 1 - cur))%Z
    | _, _ =>
        fst (fst (Scraper.scrapeAllPages C3_clock C3_page C3_rounds C3_start)) = []
    end.
Proof.
  apply (scrapeAllPages_accumulates C3_clock C3_page C3_rounds C3_start).
  vm_compute. split; [reflexivity|]. split; reflexivity.
Defined.

(** ** Calendar arithmetic *)

Section Calendar.

Import JsDate.
Open Scope Z_scope.

Lemma year_of_era_bounds doe :
  0 <= doe <= 146096 ->
  0 <= (doe - doe / 1460 + doe / 36524 - doe / 146096) / 365 <= 399 /\
  0 <= doe - (365 * ((doe - doe / 1460 + doe / 36524 - doe / 146096) / 365)
              + (doe - doe / 1460 + doe / 36524 - doe / 146096) / 365 / 4
              - (doe - doe / 1460 + doe / 36524 - doe / 146096) / 365 / 100)
    <= 365.
Proof. intros H. Z.div_mod_to_equations. lia. Qed.

Lemma era_of_year yoe era k :
  0 <= yoe <= 399 -> k = yoe + era * 400 ->
  k / 400 = era /\ k - k / 400 * 400 = yoe.
Proof. intros H ->. Z.div_mod_to_equations. lia. Qed.

(** The day number of a calendar date computed from a day number is that
    day number, and the month index is in range. *)
Lemma day_of_civil day :
  0 <= snd (fst (civil_of_day day)) <= 11 /\
  day_of_month_start (fst (fst (civil_of_day day))) (snd (fst (civil_of_day day)))
    + snd (civil_of_day day) - 1 = day.
Proof.
  unfold civil_of_day. cbv zeta.
  set (z := day + 719468). set (era := z / 146097).
  set (doe := z - era * 146097).
  assert (Hdoe : 0 <= doe <= 146096)
    by (subst doe era; Z.div_mod_to_equations; lia).
  destruct (year_of_era_bounds doe Hdoe) as [Hyoe Hdoy].
  set (yoe := (doe - doe / 1460 + doe / 36524 - doe / 146096) / 365) in *.
  set (doy := doe - (365 * yoe + yoe / 4 - yoe / 100)) in *.
  set (mp := (5 * doy + 2) / 153).
  assert (Hmp : 0 <= mp <= 11) by (subst mp; Z.div_mod_to_equations; lia).
  cbn [fst snd]. unfold day_of_month_start. cbv zeta.
  destruct (mp <? 10) eqn:E10.
  - apply Z.ltb_lt in E10.
    replace (mp + 2 <=? 1) with false by (symmetry; apply Z.leb_gt; lia).
    split; [lia|].
    destruct (era_of_year yoe era (yoe + era * 400 + 0 - 0) Hyoe ltac:(lia))
      as [-> ->].
    replace (mp + 2 - 2) with mp by lia. subst doy z doe. lia.
  - apply Z.ltb_ge in E10.
    replace (mp - 10 <=? 1) with true by (symmetry; apply Z.leb_le; lia).
    split; [lia|].
    destruct (era_of_year yoe era (yoe + era * 400 + 1 - 1) Hyoe ltac:(lia))
      as [-> ->].
    replace (mp - 10 + 10) with mp by lia. subst doy z doe. lia.
Qed.

Lemma MakeDay_of_time t offset :
  MakeDay (YearFromTime t) (MonthFromTime t) (DateFromTime t + offset)
  = Day t + offset.
Proof.
  unfold MakeDay, YearFromTime, MonthFromTime, DateFromTime. cbv zeta.
  destruct (day_of_civil (Day t)) as [Hm Hd].
  set (m := snd (fst (civil_of_day (Day t)))) in *.
  replace (m / 12) with 0 by (Z.div_mod_to_equations; lia).
  replace (m mod 12) with m by (Z.div_mod_to_equations; lia).
  rewrite Z.add_0_r. lia.
Qed.

Lemma time_of_day t :
  Day t * msPerDay
  + MakeTime (HourFromTime t) (MinFromTime t) (SecFromTime t) (msFromTime t) = t.
Proof.
  unfold Day, MakeTime, HourFromTime, MinFromTime, SecFromTime, msFromTime,
    msPerDay, msPerHour, msPerMinute, msPerSecond.
  Z.div_mod_to_equations. lia.
Qed.

(** Moving the day of the month back by [n] moves the date back by [n]
    days of 24 hours. *)
Lemma setDate_back tza t n :
  setDate tza t (getDate tza t - n) = TimeClip (t - n * msPerDay).
Proof.
  unfold setDate, getDate. cbv zeta. f_equal.
  replace (DateFromTime (LocalTime tza t) - n)
    with (DateFromTime (LocalTime tza t) + (- n)) by lia.
  rewrite MakeDay_of_time. unfold UTC, MakeDate, LocalTime, Day, TimeWithinDay, msPerDay.
  Z.div_mod_to_equations. lia.
Qed.

Lemma setHours_back tza t n :
  setHours tza t (getHours tza t - n) = TimeClip (t - n * msPerHour).
Proof.
  unfold setHours, getHours. cbv zeta. f_equal.
  pose proof (time_of_day (LocalTime tza t)) as H.
  unfold UTC, MakeDate, MakeTime in *. unfold LocalTime in *. lia.
Qed.

End Calendar.

(** ** Relative dates *)

Section RelativeDates.

Import Regex JsNumber Scraper.

Lemma exec_from_front r rb s s' c :
  go r s [] (fun s' c => Some (s', c)) = Some (s', c) ->
  exec_from r rb s = Some {| before := rev rb;
                             matched := firstn (List.length s - List.length s') s;
                             after := s';
                             groups := c |}.
Proof. intros H. destruct s; simpl; rewrite H; reflexivity. Qed.

(** Characters at which no match can start are skipped. *)
Lemma exec_from_skip r pre rb s :
  (forall x t, In x pre -> go r (x :: t) [] (fun s' c => Some (s', c)) = None) ->
  exec_from r rb (pre ++ s) = exec_from r (rev pre ++ rb) s.
Proof.
  revert rb. induction pre as [|x pre IH]; intros rb H; [reflexivity|].
  simpl app. cbn [exec_from]. rewrite H by (now left).
  rewrite IH by (intros y t Hy; apply H; now right).
  now rewrite <- app_assoc.
Qed.

Lemma relative_date_starts_with_digit {A} x s c (k : str -> captures -> option A) :
  is_digit x = false -> go relative_date_re (x :: s) c k = None.
Proof. intros H. unfold relative_date_re, Plus, digit. cbn [go]. now rewrite H. Qed.

Lemma go_Lit_mismatch {A} w x s c (k : str -> captures -> option A) :
  Ascii.eqb (hd x w) x = false -> w <> [] -> go (Lit_of Chr w) (x :: s) c k = None.
Proof.
  intros H Hne. destruct w as [|y w]; [now elim Hne|]. simpl in H.
  destruct w; cbn [Lit_of go Chr]; now rewrite H.
Qed.

Lemma go_Seq {A} r1 r2 s c (k : str -> captures -> option A) :
  go (Seq r1 r2) s c k = go r1 s c (fun s' c' => go r2 s' c' k).
Proof. reflexivity. Qed.

Lemma go_ago_tail {A} ws2 rest c (k : str -> captures -> option A) a :
  Forall (fun x => is_space x = true) ws2 ->
  k rest c = Some a ->
  go (Seq (Star space) (Lit "ago")) (ws2 ++ lit "ago" ++ rest) c k = Some a.
Proof.
  intros Hws Hk. cbn [go]. apply go_star_class; [exact Hws | reflexivity |].
  unfold Lit. rewrite go_Lit_of_Chr by discriminate. exact Hk.
Qed.

Lemma go_plural_tail {A} (plural : bool) ws2 rest c (k : str -> captures -> option A) a :
  Forall (fun x => is_space x = true) ws2 ->
  k rest c = Some a ->
  go (Seq (Opt (Chr "s")) (Seq (Star space) (Lit "ago")))
     ((if plural then lit "s" else []) ++ ws2 ++ lit "ago" ++ rest) c k = Some a.
Proof.
  intros Hws Hk. pose proof (go_ago_tail ws2 rest c k a Hws Hk) as Htail.
  destruct plural.
  - change (lit "s" ++ ws2 ++ lit "ago" ++ rest)
      with ("s"%char :: ws2 ++ lit "ago" ++ rest).
    unfold Opt, Chr at 1. cbn [go]. rewrite Ascii.eqb_refl.
    cbn [go] in Htail. now rewrite Htail.
  - cbn [app]. unfold Opt, Chr at 1.
    change (go (Seq (Alt (Cls (Ascii.eqb "s")) Eps) (Seq (Star space) (Lit "ago")))
              (ws2 ++ lit "ago" ++ rest) c k)
      with (match go (Cls (Ascii.eqb "s")) (ws2 ++ lit "ago" ++ rest) c
                    (fun s' c' => go (Seq (Star space) (Lit "ago")) s' c' k) with
            | Some a => Some a
            | None => go (Seq (Star space) (Lit "ago")) (ws2 ++ lit "ago" ++ rest) c k
            end).
    rewrite Htail.
    destruct ws2 as [|x ws2]; [reflexivity|].
    inversion Hws as [|? ? Hx _]; subst. cbn [app go].
    destruct (Ascii.eqb_spec "s" x) as [<-|_]; [discriminate Hx | reflexivity].
Qed.

Lemma lapse_word_head u :
  exists x w, lapse_word u = x :: w /\ is_digit x = false /\ is_space x = false.
Proof. destruct u; eexists; eexists; (split; [reflexivity|split; reflexivity]). Qed.

Lemma go_unit_group {A} u tail c (k : str -> captures -> option A) a :
  k tail ((2%nat, lapse_word u) :: c) = Some a ->
  go (Group 2 (Alt (Lit "hour") (Alt (Lit "day") (Alt (Lit "week")
                (Alt (Lit "month") (Lit "year"))))))
     (lapse_word u ++ tail) c k = Some a.
Proof.
  intros Hk. unfold Lit.
  assert (Hhit : forall w, w <> [] -> k tail ((2%nat, w) :: c) = Some a ->
            go (Lit_of Chr w) (w ++ tail) c
               (fun s' c' => k s' ((2%nat, firstn (List.length (w ++ tail)
                                              - List.length s') (w ++ tail)) :: c'))
            = Some a).
  { intros w Hw Hkw. rewrite go_Lit_of_Chr by exact Hw.
    rewrite firstn_app_rest. exact Hkw. }
  destruct u; cbn [lapse_word] in *.
  - cbn [go]. now rewrite Hhit by (discriminate || exact Hk).
  - cbn [go].
    change (lit "day" ++ tail) with ("d"%char :: lit "ay" ++ tail) at 1.
    rewrite go_Lit_mismatch by (reflexivity || discriminate).
    change ("d"%char :: lit "ay" ++ tail) with (lit "day" ++ tail).
    now rewrite Hhit by (discriminate || exact Hk).
  - cbn [go].
    change (lit "week" ++ tail) with ("w"%char :: lit "eek" ++ tail) at 1 2.
    rewrite !go_Lit_mismatch by (reflexivity || discriminate).
    change ("w"%char :: lit "eek" ++ tail) with (lit "week" ++ tail).
    now rewrite Hhit by (discriminate || exact Hk).
  - cbn [go].
    change (lit "month" ++ tail) with ("m"%char :: lit "onth" ++ tail) at 1 2 3.
    rewrite !go_Lit_mismatch by (reflexivity || discriminate).
    change ("m"%char :: lit "onth" ++ tail) with (lit "month" ++ tail).
    now rewrite Hhit by (discriminate || exact Hk).
  - cbn [go].
    change (lit "year" ++ tail) with ("y"%char :: lit "ear" ++ tail) at 1 2 3 4.
    rewrite !go_Lit_mismatch by (reflexivity || discriminate).
    change ("y"%char :: lit "ear" ++ tail) with (lit "year" ++ tail).
    now rewrite Hhit by (discriminate || exact Hk).
Qed.

(** The pattern finds the numeral and the unit of a relative date. *)
Lemma exec_relative_text pre n ws1 u plural ws2 rest :
  Forall (fun x => is_digit x = false) pre ->
  Forall (fun x => is_space x = true) ws1 ->
  Forall (fun x => is_space x = true) ws2 ->
  exists m,
    exec relative_date_re (relative_text pre n ws1 u plural ws2 rest) = Some m /\
    nth_group 1 m = decimal n /\ nth_group 2 m = lapse_word u.
Proof.
  intros Hpre Hws1 Hws2.
  destruct (decimal_digits n) as [Hd Hne].
  destruct (lapse_word_head u) as [x [w [Ew [Hxd Hxs]]]].
  eexists. split.
  - unfold exec, relative_text.
    rewrite exec_from_skip.
    2:{ intros y t Hy. apply relative_date_starts_with_digit.
        rewrite Forall_forall in Hpre. now apply Hpre. }
    apply exec_from_front. unfold relative_date_re, digit, space.
    rewrite go_Seq.
    apply go_group_plus_class; [exact Hne | exact Hd | |].
    { destruct ws1 as [|y ws1].
      - rewrite Ew. exact Hxd.
      - inversion Hws1 as [|? ? Hy _]; subst. cbn [app].
        destruct (is_digit y) eqn:E; [|reflexivity].
        apply digit_not_space in E. congruence. }
    cbv beta. rewrite go_Seq.
    apply go_star_class; [exact Hws1 | rewrite Ew; exact Hxs |].
    cbv beta. rewrite go_Seq.
    apply go_unit_group.
    apply go_plural_tail; [exact Hws2 | reflexivity].
  - split; reflexivity.
Qed.

Lemma move_back_lapse c u a ms :
  lapse_ms u = Some ms ->
  move_back c (lapse_word u) (Some a)
  = Some (JsDate.TimeClip (now c - a * ms)%Z).
Proof.
  unfold move_back. cbv zeta.
  destruct u; cbn [lapse_word lapse_ms]; intros [= <-].
  - change (str_eqb (lit "hour") (lit "hour")) with true. cbv iota.
    rewrite setHours_back. reflexivity.
  - change (str_eqb (lit "day") (lit "hour")) with false.
    change (str_eqb (lit "day") (lit "day")) with true. cbv iota.
    rewrite setDate_back. reflexivity.
  - change (str_eqb (lit "week") (lit "hour")) with false.
    change (str_eqb (lit "week") (lit "day")) with false.
    change (str_eqb (lit "week") (lit "week")) with true. cbv iota.
    rewrite setDate_back. do 2 f_equal. unfold JsDate.msPerDay. lia.
Qed.

Lemma move_back_months c a :
  move_back c (lit "month") (Some a)
  = Some (JsDate.setMonth (tza c) (now c) (JsDate.getMonth (tza c) (now c) - a)%Z).
Proof. reflexivity. Qed.

Lemma move_back_years c a :
  move_back c (lit "year") (Some a)
  = Some (JsDate.setFullYear (tza c) (now c)
            (JsDate.getFullYear (tza c) (now c) - a)%Z).
Proof. reflexivity. Qed.

Lemma relative_text_nonempty pre n ws1 u plural ws2 rest :
  relative_text pre n ws1 u plural ws2 rest <> [].
Proof.
  unfold relative_text. intros H.
  apply app_eq_nil in H. destruct H as [_ H].
  apply app_eq_nil in H. destruct H as [H _].
  now destruct (decimal_digits n) as [_ Hne].
Qed.

(** The numeral and the unit that the function reads in a relative text. *)
Lemma convertRelativeDateToISO_reads c raw pre n ws1 u plural ws2 rest :
  trim (toLowerCase raw) = relative_text pre n ws1 u plural ws2 rest ->
  Forall (fun x => is_digit x = false) pre ->
  Forall (fun x => is_space x = true) ws1 ->
  Forall (fun x => is_space x = true) ws2 ->
  convertRelativeDateToISO c raw =
    match move_back c (lapse_word u) (Some (Z.of_N n)) with
    | None => Returned None
    | Some targetDate =>
        match JsDate.toISOString targetDate with
        | Returned iso => Returned (Some iso)
        | Thrown e => Thrown e
        end
    end.
Proof.
  intros Htext Hpre Hws1 Hws2.
  unfold convertRelativeDateToISO.
  assert (Hraw : truthy raw = true).
  { apply truthy_true. intros ->.
    symmetry in Htext. now apply relative_text_nonempty in Htext. }
  rewrite Hraw. cbv zeta. rewrite Htext.
  destruct (exec_relative_text pre n ws1 u plural ws2 rest Hpre Hws1 Hws2)
    as [m [Hm [H1 H2]]].
  rewrite Hm, H1, H2.
  now rewrite <- (app_nil_r (decimal n)), parseInt_decimal by exact I.
Qed.

End RelativeDates.

(** X16. A relative date in hours, days or weeks: when the lower-cased and
    trimmed text reads, after text without digits, a numeral [n], white
    space, the unit, an optional plural, white space and the word ago,
    the result is the ISO form of the capture time less [n] units of
    3600000, 86400000 or 604800000 milliseconds, and the call throws when
    that time is outside the range of dates (the time zone offset is
    taken as constant). *)
Theorem convertRelativeDateToISO_fixed_units
  (c : Scraper.Clock) (raw pre : str) (n : N) (ws1 : str) (u : lapse)
  (plural : bool) (ws2 rest : str) (ms : Z) :
  trim (Scraper.toLowerCase raw) = relative_text pre n ws1 u plural ws2 rest ->
  Forall (fun x => is_digit x = false) pre ->
  Forall (fun x => is_space x = true) ws1 ->
  Forall (fun x => is_space x = true) ws2 ->
  lapse_ms u = Some ms ->
  Scraper.convertRelativeDateToISO c raw =
    match JsDate.TimeClip (Scraper.now c - Z.of_N n * ms) with
    | Some t => Returned (Some (JsDate.iso_format t))
    | None => Thrown (lit "Invalid time value")
    end.
Proof.
  intros Htext Hpre Hws1 Hws2 Hms.
  rewrite (convertRelativeDateToISO_reads c raw pre n ws1 u plural ws2 rest)
    by assumption.
  rewrite (move_back_lapse c u (Z.of_N n) ms Hms).
  destruct (JsDate.TimeClip (Scraper.now c - Z.of_N n * ms)); reflexivity.
Qed.

Lemma convertRelativeDateToISO_fixed_units_witness :
  Scraper.convertRelativeDateToISO (Scraper.mkClock 1700000000000 25200000)
    (lit "Reposted 3 Days ago ")
  = Returned (Some (lit "2023-11-11T22:13:20.000Z")).
Proof.
  apply (convertRelativeDateToISO_fixed_units
           (Scraper.mkClock 1700000000000 25200000) (lit "Reposted 3 Days ago ")
           (lit "reposted ") 3 (lit " ") Days true (lit " ") [] 86400000).
  - reflexivity.
  - repeat constructor.
  - repeat constructor.
  - repeat constructor.
  - reflexivity.
Defined.

Section NoRelativeDate.

Import Regex Scraper.

Lemma lower_not_digit x : is_digit x = false -> is_digit (lower x) = false.
Proof.
  destruct x as [[] [] [] [] [] [] [] []]; intros H; try reflexivity; discriminate H.
Qed.

Lemma exec_relative_none s :
  Forall (fun x => is_digit x = false) s -> exec relative_date_re s = None.
Proof.
  intros Hs. unfold exec. generalize (@nil ascii) as rb.
  induction Hs as [|x s Hx Hs IH]; intros rb.
  - reflexivity.
  - cbn [exec_from]. rewrite relative_date_starts_with_digit by exact Hx.
    apply IH.
Qed.

End NoRelativeDate.

(** X18. A text without a digit has no relative date: the result is absent
    and nothing is thrown. *)
Theorem convertRelativeDateToISO_without_digit (c : Scraper.Clock) (raw : str) :
  Forall (fun x => is_digit x = false) raw ->
  Scraper.convertRelativeDateToISO c raw = Returned None.
Proof.
  intros Hraw. unfold Scraper.convertRelativeDateToISO.
  destruct (truthy raw); [|reflexivity]. cbv zeta.
  rewrite exec_relative_none; [reflexivity|].
  apply Forall_forall. intros x Hx. apply in_trim_inv in Hx.
  unfold Scraper.toLowerCase in Hx. apply in_map_iff in Hx.
  destruct Hx as [y [<- Hy]]. apply lower_not_digit.
  rewrite Forall_forall in Hraw. now apply Hraw.
Qed.

Lemma convertRelativeDateToISO_without_digit_witness :
  Scraper.convertRelativeDateToISO (Scraper.mkClock 1700000000000 0)
    (lit "Just now") = Returned None.
Proof.
  apply (convertRelativeDateToISO_without_digit
           (Scraper.mkClock 1700000000000 0) (lit "Just now")).
  repeat constructor.
Defined.

(** ** Calendar months and years *)

Section CalendarMonths.

Import JsDate.
Open Scope Z_scope.

Lemma year_of_era_back yoe doy :
  0 <= yoe <= 399 -> 0 <= doy <= 364 ->
  (yoe * 365 + yoe / 4 - yoe / 100 + doy
   - (yoe * 365 + yoe / 4 - yoe / 100 + doy) / 1460
   + (yoe * 365 + yoe / 4 - yoe / 100 + doy) / 36524
   - (yoe * 365 + yoe / 4 - yoe / 100 + doy) / 146096) / 365 = yoe.
Proof. intros Hy Hd. Z.div_mod_to_equations. lia. Qed.

Lemma month_part_back mp d :
  0 <= mp <= 11 -> 1 <= d <= 28 ->
  (5 * ((153 * mp + 2) / 5 + d - 1) + 2) / 153 = mp.
Proof. intros Hm Hd. Z.div_mod_to_equations. lia. Qed.

(** The calendar date of the [d]-th day of a month is that day, for the
    days that every month has. *)
Lemma civil_of_month_day y m d :
  0 <= m <= 11 -> 1 <= d <= 28 ->
  civil_of_day (day_of_month_start y m + d - 1) = (y, m, d).
Proof.
  intros Hm Hd. unfold day_of_month_start. cbv zeta.
  set (y' := y - (if m <=? 1 then 1 else 0)).
  set (era := y' / 400). set (yoe := y' - era * 400).
  assert (Hyoe : 0 <= yoe <= 399)
    by (subst yoe era; Z.div_mod_to_equations; lia).
  set (mp := if m <=? 1 then m + 10 else m - 2).
  assert (Hmp : 0 <= mp <= 11) by (subst mp; destruct (Z.leb_spec m 1); lia).
  assert (Hdoy : 0 <= (153 * mp + 2) / 5 + d - 1 <= 364)
    by (Z.div_mod_to_equations; lia).
  pose proof (year_of_era_back yoe _ Hyoe Hdoy) as Hback.
  pose proof (month_part_back mp d Hmp Hd) as Hmback.
  set (doy := (153 * mp + 2) / 5 + d - 1) in *.
  set (doe := yoe * 365 + yoe / 4 - yoe / 100 + doy) in *.
  assert (Hdoe : 0 <= doe <= 146096)
    by (subst doe; Z.div_mod_to_equations; lia).
  unfold civil_of_day. cbv zeta.
  replace (era * 146097 + (yoe * 365 + yoe / 4 - yoe / 100 + (153 * mp + 2) / 5)
           - 719468 + d - 1 + 719468)
    with (doe + era * 146097) by (subst doe doy; lia).
  rewrite Z.div_add by lia. rewrite (Z.div_small doe) by lia. rewrite Z.add_0_l.
  replace (doe + era * 146097 - era * 146097) with doe by lia.
  rewrite Hback.
  replace (doe - (365 * yoe + yoe / 4 - yoe / 100)) with doy by (subst doe; lia).
  rewrite Hmback.
  replace (doy - (153 * mp + 2) / 5 + 1) with d by (subst doy; lia).
  subst mp. destruct (Z.leb_spec m 1) as [Hle|Hgt].
  - replace (m + 10 <? 10) with false by (symmetry; apply Z.ltb_ge; lia).
    replace (m + 10 - 10) with m by lia.
    replace (m <=? 1) with true by (symmetry; apply Z.leb_le; lia).
    f_equal. f_equal. subst yoe y'.
    replace (m <=? 1) with true by (symmetry; apply Z.leb_le; lia). lia.
  - replace (m - 2 <? 10) with true by (symmetry; apply Z.ltb_lt; lia).
    replace (m - 2 + 2) with m by lia.
    replace (m <=? 1) with false by (symmetry; apply Z.leb_gt; lia).
    f_equal. f_equal. subst yoe y'.
    replace (m <=? 1) with false by (symmetry; apply Z.leb_gt; lia). lia.
Qed.

End CalendarMonths.

Section CalendarFields.

Import JsDate.
Open Scope Z_scope.

Lemma DateFromTime_positive t : 1 <= DateFromTime t.
Proof.
  unfold DateFromTime, civil_of_day. cbv zeta. cbn [snd].
  set (z := Day t + 719468). set (era := z / 146097).
  set (doe := z - era * 146097).
  assert (Hdoe : 0 <= doe <= 146096)
    by (subst doe era; Z.div_mod_to_equations; lia).
  destruct (year_of_era_bounds doe Hdoe) as [Hyoe Hdoy].
  set (yoe := (doe - doe / 1460 + doe / 36524 - doe / 146096) / 365) in *.
  set (doy := doe - (365 * yoe + yoe / 4 - yoe / 100)) in *.
  Z.div_mod_to_equations. lia.
Qed.

Lemma MonthFromTime_range t : 0 <= MonthFromTime t <= 11.
Proof. unfold MonthFromTime. apply day_of_civil. Qed.

(** The fields of a date made of a year, a month, a day that every month
    has, and a time of day. *)
Lemma fields_of_made_date y m d tw :
  0 <= m <= 11 -> 1 <= d <= 28 -> 0 <= tw < msPerDay ->
  YearFromTime (MakeDate (MakeDay y m d) tw) = y /\
  MonthFromTime (MakeDate (MakeDay y m d) tw) = m /\
  DateFromTime (MakeDate (MakeDay y m d) tw) = d /\
  TimeWithinDay (MakeDate (MakeDay y m d) tw) = tw.
Proof.
  intros Hm Hd Htw.
  assert (Hday : Day (MakeDate (MakeDay y m d) tw) = MakeDay y m d).
  { unfold Day, MakeDate. unfold msPerDay in *. Z.div_mod_to_equations. lia. }
  assert (Hcivil : civil_of_day (MakeDay y m d) = (y, m, d)).
  { unfold MakeDay. cbv zeta.
    replace (m / 12) with 0 by (Z.div_mod_to_equations; lia).
    replace (m mod 12) with m by (Z.div_mod_to_equations; lia).
    rewrite Z.add_0_r. now apply civil_of_month_day. }
  unfold YearFromTime, MonthFromTime, DateFromTime. rewrite Hday, Hcivil.
  cbn [fst snd]. split; [reflexivity|]. split; [reflexivity|].
  split; [reflexivity|].
  unfold TimeWithinDay, MakeDate. unfold msPerDay in *.
  Z.div_mod_to_equations. lia.
Qed.

Lemma MakeDay_months y m d :
  MakeDay y m d = MakeDay (y + m / 12) (m mod 12) d.
Proof.
  unfold MakeDay. cbv zeta.
  replace (m mod 12 / 12) with 0 by (Z.div_mod_to_equations; lia).
  rewrite Z.mod_mod by lia. now rewrite Z.add_0_r.
Qed.

Lemma TimeWithinDay_range t : 0 <= TimeWithinDay t < msPerDay.
Proof. unfold TimeWithinDay, msPerDay. apply Z.mod_pos_bound. lia. Qed.

(** Setting the month of a date whose day every month has moves the date
    by whole months of the calendar. *)
Lemma setMonth_fields tza t k :
  getDate tza t <= 28 ->
  let target := UTC tza (MakeDate
                  (MakeDay (getFullYear tza t) k (getDate tza t))
                  (TimeWithinDay (LocalTime tza t))) in
  setMonth tza t k = TimeClip target /\
  12 * getFullYear tza target + getMonth tza target
    = 12 * getFullYear tza t + k /\
  0 <= getMonth tza target <= 11 /\
  getDate tza target = getDate tza t /\
  TimeWithinDay (LocalTime tza target) = TimeWithinDay (LocalTime tza t).
Proof.
  intros Hd target. split; [reflexivity|].
  unfold getFullYear, getMonth, getDate in *.
  assert (Hlt : LocalTime tza target
                = MakeDate (MakeDay (YearFromTime (LocalTime tza t) + k / 12)
                              (k mod 12) (DateFromTime (LocalTime tza t)))
                    (TimeWithinDay (LocalTime tza t))).
  { subst target. unfold LocalTime, UTC. rewrite <- MakeDay_months.
    unfold LocalTime. lia. }
  rewrite Hlt.
  pose proof (DateFromTime_positive (LocalTime tza t)) as Hpos.
  destruct (fields_of_made_date (YearFromTime (LocalTime tza t) + k / 12)
              (k mod 12) (DateFromTime (LocalTime tza t))
              (TimeWithinDay (LocalTime tza t)))
    as [Hy [Hm [Hdt Htw]]];
    [ pose proof (Z.mod_pos_bound k 12 ltac:(lia)); lia | lia
    | apply TimeWithinDay_range |].
  rewrite Hy, Hm, Hdt, Htw.
  split; [pose proof (Z.div_mod k 12 ltac:(lia)); lia|].
  split; [pose proof (Z.mod_pos_bound k 12 ltac:(lia)); lia|].
  split; reflexivity.
Qed.

Lemma setFullYear_fields tza t y :
  getDate tza t <= 28 ->
  let target := UTC tza (MakeDate
                  (MakeDay y (getMonth tza t) (getDate tza t))
                  (TimeWithinDay (LocalTime tza t))) in
  setFullYear tza t y = TimeClip target /\
  getFullYear tza target = y /\
  getMonth tza target = getMonth tza t /\
  getDate tza target = getDate tza t /\
  TimeWithinDay (LocalTime tza target) = TimeWithinDay (LocalTime tza t).
Proof.
  intros Hd target. split; [reflexivity|].
  unfold getFullYear, getMonth, getDate in *.
  assert (Hlt : LocalTime tza target
                = MakeDate (MakeDay y (MonthFromTime (LocalTime tza t))
                              (DateFromTime (LocalTime tza t)))
                    (TimeWithinDay (LocalTime tza t))).
  { subst target. unfold LocalTime, UTC. lia. }
  rewrite Hlt.
  pose proof (DateFromTime_positive (LocalTime tza t)) as Hpos.
  apply fields_of_made_date;
    [apply MonthFromTime_range | lia | apply TimeWithinDay_range].
Qed.

End CalendarFields.

(** X17. A relative date in months or years, when the capture date falls on
    a day of the month that every month has (at most the 28th): the
    date moves back by [n] months, or by [n] times 12 months, of the
    calendar; the day of the month and the time of day stay as they
    are.  The call throws when the target is outside the range of
    dates (the time zone offset is taken as constant). *)
Theorem convertRelativeDateToISO_calendar_units
  (c : Scraper.Clock) (raw pre : str) (n : N) (ws1 : str) (u : lapse)
  (plural : bool) (ws2 rest : str) (k : Z) :
  trim (Scraper.toLowerCase raw) = relative_text pre n ws1 u plural ws2 rest ->
  Forall (fun x => is_digit x = false) pre ->
  Forall (fun x => is_space x = true) ws1 ->
  Forall (fun x => is_space x = true) ws2 ->
  lapse_months u = Some k ->
  (JsDate.getDate (Scraper.tza c) (Scraper.now c) <= 28)%Z ->
  exists target : Z,
    Scraper.convertRelativeDateToISO c raw =
      match JsDate.TimeClip target with
      | Some t => Returned (Some (JsDate.iso_format t))
      | None => Thrown (lit "Invalid time value")
      end /\
    (12 * JsDate.getFullYear (Scraper.tza c) target
        + JsDate.getMonth (Scraper.tza c) target
     = 12 * JsDate.getFullYear (Scraper.tza c) (Scraper.now c)
        + JsDate.getMonth (Scraper.tza c) (Scraper.now c) - Z.of_N n * k)%Z /\
    (0 <= JsDate.getMonth (Scraper.tza c) target <= 11)%Z /\
    JsDate.getDate (Scraper.tza c) target
      = JsDate.getDate (Scraper.tza c) (Scraper.now c) /\
    JsDate.TimeWithinDay (JsDate.LocalTime (Scraper.tza c) target)
      = JsDate.TimeWithinDay (JsDate.LocalTime (Scraper.tza c) (Scraper.now c)).
Proof.
  intros Htext Hpre Hws1 Hws2 Hk Hday.
  rewrite (convertRelativeDateToISO_reads c raw pre n ws1 u plural ws2 rest)
    by assumption.
  destruct u; try discriminate Hk; injection Hk as <-; cbn [lapse_word].
  - rewrite move_back_months.
    destruct (setMonth_fields (Scraper.tza c) (Scraper.now c)
                (JsDate.getMonth (Scraper.tza c) (Scraper.now c) - Z.of_N n) Hday)
      as [Hset [Hym [Hm [Hd Htw]]]].
    eexists. split; [rewrite Hset|split; [|split; [exact Hm|split; [exact Hd|exact Htw]]]].
    + destruct (JsDate.TimeClip _); reflexivity.
    + rewrite Hym. lia.
  - rewrite move_back_years.
    destruct (setFullYear_fields (Scraper.tza c) (Scraper.now c)
                (JsDate.getFullYear (Scraper.tza c) (Scraper.now c) - Z.of_N n) Hday)
      as [Hset [Hy [Hm [Hd Htw]]]].
    eexists. split; [rewrite Hset|split; [|split; [|split; [exact Hd|exact Htw]]]].
    + destruct (JsDate.TimeClip _); reflexivity.
    + rewrite Hy, Hm. lia.
    + rewrite Hm. apply MonthFromTime_range.
Qed.

Lemma convertRelativeDateToISO_calendar_units_witness :
  exists target : Z,
    Scraper.convertRelativeDateToISO (Scraper.mkClock 1700000000000 0)
      (lit "2 months ago") =
      match JsDate.TimeClip target with
      | Some t => Returned (Some (JsDate.iso_format t))
      | None => Thrown (lit "Invalid time value")
      end /\
    (12 * JsDate.getFullYear 0 target + JsDate.getMonth 0 target
     = 12 * JsDate.getFullYear 0 1700000000000
        + JsDate.getMonth 0 1700000000000 - 2 * 1)%Z /\
    (0 <= JsDate.getMonth 0 target <= 11)%Z /\
    JsDate.getDate 0 target = JsDate.getDate 0 1700000000000 /\
    JsDate.TimeWithinDay (JsDate.LocalTime 0 target)
      = JsDate.TimeWithinDay (JsDate.LocalTime 0 1700000000000).
Proof.
  apply (convertRelativeDateToISO_calendar_units
           (Scraper.mkClock 1700000000000 0) (lit "2 months ago")
           [] 2 (lit " ") Months true (lit " ") [] 1).
  - reflexivity.
  - constructor.
  - repeat constructor.
  - repeat constructor.
  - reflexivity.
  - vm_compute. discriminate.
Defined.

(** ** The stored record set *)

Section StoredSet.

Import Background.

Lemma handleSaveJobs_memory h st newJobs :
  scrapedJobs (fst (handleSaveJobs h st (Some newJobs)))
  = scrapedJobs st ++ jobsToAdd (scrapedJobs st) newJobs.
Proof. unfold handleSaveJobs. destruct (storage_set h); reflexivity. Qed.

Lemma jobsToAdd_incl known newJobs : incl (jobsToAdd known newJobs) newJobs.
Proof. intros j Hj. unfold jobsToAdd in Hj. now apply filter_In in Hj. Qed.

Lemma merged_keys known newJobs k :
  In k (keys (known ++ jobsToAdd known newJobs)) <->
  In k (keys known) \/ In k (keys newJobs).
Proof.
  unfold keys. rewrite map_app, in_app_iff. split.
  - intros [H|H]; [now left|right].
    apply in_map_iff in H. destruct H as [j [<- Hj]].
    apply in_map. now apply jobsToAdd_incl in Hj.
  - intros [H|H]; [now left|].
    apply in_map_iff in H. destruct H as [j [<- Hj]].
    destruct (existsb (fun existingJob => same_listing existingJob j) known) eqn:E.
    + left. now apply known_key.
    + right. apply in_map. unfold jobsToAdd. apply filter_In.
      split; [exact Hj | now rewrite E].
Qed.

(** Nothing of a batch is new once the batch has been merged. *)
Lemma jobsToAdd_merged known newJobs :
  jobsToAdd (known ++ jobsToAdd known newJobs) newJobs = [].
Proof.
  unfold jobsToAdd at 1.
  assert (H : forall j, In j newJobs ->
            negb (existsb (fun existingJob => same_listing existingJob j)
                    (known ++ jobsToAdd known newJobs)) = false).
  { intros j Hj. apply negb_false_iff. apply known_key.
    apply (merged_keys known newJobs). right. now apply in_map. }
  revert H. generalize (known ++ jobsToAdd known newJobs) as l. intros l H.
  induction newJobs as [|j rest IH]; [reflexivity|].
  simpl. rewrite H by (now left). apply IH. intros j' Hj'. apply H. now right.
Qed.

Lemma onMessage_memory h st m :
  scrapedJobs (fst (onMessage h st m)) =
    if Bus.action_is m "SAVE_JOBS" then
      match Bus.jobs m with
      | Some l => scrapedJobs st ++ jobsToAdd (scrapedJobs st) l
      | None => scrapedJobs st
      end
    else if Bus.action_is m "GET_ALL_JOBS" then scrapedJobs st
    else if Bus.action_is m "EXPORT_CSV" then scrapedJobs st
    else if Bus.action_is m "CLEAR_JOBS" then []
    else scrapedJobs st.
Proof.
  unfold onMessage.
  destruct (Bus.action_is m "SAVE_JOBS").
  { destruct (Bus.jobs m) as [l|]; [|reflexivity].
    unfold handleSaveJobs. destruct (storage_set h); reflexivity. }
  destruct (Bus.action_is m "GET_ALL_JOBS"); [reflexivity|].
  destruct (Bus.action_is m "EXPORT_CSV"); [reflexivity|].
  destruct (Bus.action_is m "CLEAR_JOBS"); [|reflexivity].
  unfold handleClearJobs. destruct (storage_remove h); reflexivity.
Qed.

Lemma onMessage_in_step h st m :
  storage_works h -> in_step st -> in_step (fst (onMessage h st m)).
Proof.
  intros [Hset Hrem] Hst. unfold onMessage.
  destruct (Bus.action_is m "SAVE_JOBS").
  { destruct (Bus.jobs m) as [l|]; [|exact Hst].
    unfold handleSaveJobs. rewrite Hset. reflexivity. }
  destruct (Bus.action_is m "GET_ALL_JOBS"); [exact Hst|].
  destruct (Bus.action_is m "EXPORT_CSV"); [exact Hst|].
  destruct (Bus.action_is m "CLEAR_JOBS"); [|exact Hst].
  unfold handleClearJobs. rewrite Hrem. reflexivity.
Qed.

Lemma onMessage_distinct h st m :
  distinct_batch m -> distinct_keys (scrapedJobs st) ->
  distinct_keys (scrapedJobs (fst (onMessage h st m))).
Proof.
  intros Hm Hst. rewrite onMessage_memory.
  destruct (Bus.action_is m "SAVE_JOBS").
  { unfold distinct_batch in Hm. destruct (Bus.jobs m) as [l|]; [|exact Hst].
    now apply jobsToAdd_distinct. }
  destruct (Bus.action_is m "GET_ALL_JOBS"); [exact Hst|].
  destruct (Bus.action_is m "EXPORT_CSV"); [exact Hst|].
  destruct (Bus.action_is m "CLEAR_JOBS"); [constructor | exact Hst].
Qed.

End StoredSet.

(** X24. [handleSaveJobs] keeps the stored records in place, in front of the
    ones it adds; the added records are records of the batch, and the keys
    held afterwards are those held before together with those of the
    batch, whether the write to storage succeeds or not. *)
Theorem handleSaveJobs_merges_keys
  (h : Background.Host) (st : Background.State) (newJobs : list JobData) :
  let after := Background.scrapedJobs
                 (fst (Background.handleSaveJobs h st (Some newJobs))) in
  (exists added,
      after = Background.scrapedJobs st ++ added /\ incl added newJobs) /\
  (forall k,
      In k (keys after) <->
      In k (keys (Background.scrapedJobs st)) \/ In k (keys newJobs)).
Proof.
  cbv zeta. rewrite handleSaveJobs_memory. split.
  - eexists. split; [reflexivity | apply jobsToAdd_incl].
  - intros k. apply merged_keys.
Qed.

(** X25. Saving a batch a second time adds nothing, whatever the outcome of
    the two writes to storage. *)
Theorem handleSaveJobs_again
  (h1 h2 : Background.Host) (st : Background.State) (newJobs : list JobData) :
  Background.scrapedJobs
    (fst (Background.handleSaveJobs h2
            (fst (Background.handleSaveJobs h1 st (Some newJobs)))
            (Some newJobs)))
  = Background.scrapedJobs (fst (Background.handleSaveJobs h1 st (Some newJobs))).
Proof.
  rewrite (handleSaveJobs_memory h2). rewrite handleSaveJobs_memory.
  rewrite jobsToAdd_merged. apply app_nil_r.
Qed.

(** X26. Requests served one after the other keep the keys of the stored
    records distinct, when they are distinct at the start and within each
    batch. *)
Theorem background_keys_stay_distinct
  (st : Background.State) (requests : list (Background.Host * Bus.Message)) :
  distinct_keys (Background.scrapedJobs st) ->
  Forall (fun r => distinct_batch (snd r)) requests ->
  distinct_keys (Background.scrapedJobs (serve st requests)).
Proof.
  intros Hst Hreq. revert st Hst.
  induction Hreq as [|r requests Hr _ IH]; intros st Hst; [exact Hst|].
  apply IH. now apply onMessage_distinct.
Qed.

Lemma background_keys_stay_distinct_witness :
  distinct_keys
    (Background.scrapedJobs
       (serve empty_store
          [(quiet_host, {| Bus.action := VString (lit "SAVE_JOBS");
                           Bus.jobs := Some [C1_job "first"] |});
           (quiet_host, {| Bus.action := VString (lit "SAVE_JOBS");
                           Bus.jobs := Some [C1_job "second"] |})])).
Proof.
  apply (background_keys_stay_distinct empty_store).
  - constructor.
  - repeat constructor; simpl; tauto.
Defined.

(** X27. With a working storage, and once the records in memory are those of
    storage, they stay so after every request: a restart loads what was
    in memory. *)
Theorem background_store_in_step
  (stored : option (list JobData))
  (requests : list (Background.Host * Bus.Message)) :
  Forall (fun r => storage_works (fst r)) requests ->
  in_step (serve (Background.load stored) requests).
Proof.
  intros Hreq.
  assert (Hload : in_step (Background.load stored))
    by (destruct stored; reflexivity).
  revert Hload. generalize (Background.load stored) as st.
  induction Hreq as [|r requests Hr _ IH]; intros st Hst; [exact Hst|].
  apply IH. now apply onMessage_in_step.
Qed.

Lemma background_store_in_step_witness :
  in_step
    (serve (Background.load None)
       [(quiet_host, {| Bus.action := VString (lit "SAVE_JOBS");
                        Bus.jobs := Some [C1_job "first"] |});
        (quiet_host, Bus.request "CLEAR_JOBS")]).
Proof.
  apply (background_store_in_step None).
  repeat constructor.
Defined.


(** ** The session record set *)

Section SessionSet.

Import Scraper.

Lemma extractJobDataFromCard_valid c p card j :
  extractJobDataFromCard c p card = Some j -> valid_record j.
Proof.
  unfold extractJobDataFromCard.
  destruct (truthy (cleanTitle card)) eqn:Et; [|discriminate].
  destruct (truthy (text_or_empty (card_company card))) eqn:Ec; [|discriminate].
  cbn [negb orb]. destruct (convertRelativeDateToISO c _); [|discriminate].
  intros [= <-]. split; cbn [title company]; now apply truthy_true.
Qed.

Lemma extractJobDataFromDetailPage_valid c p j :
  extractJobDataFromDetailPage c p = Some j -> valid_record j /\ url j = href p.
Proof.
  unfold extractJobDataFromDetailPage.
  destruct (truthy (text_or_empty (titleElement p))) eqn:Et; [|discriminate].
  destruct (truthy (text_or_empty (companyElement p))) eqn:Ec; [|discriminate].
  cbn [negb orb]. intros [= <-]. split; [|reflexivity].
  split; cbn [title company]; now apply truthy_true.
Qed.

Lemma distinct_keys_snoc l j :
  distinct_keys l -> isDuplicateJob l j = false -> distinct_keys (l ++ [j]).
Proof.
  unfold distinct_keys. intros Hl Hj. rewrite map_app.
  apply NoDup_app; [exact Hl | repeat constructor; simpl; tauto |].
  intros k Hk [<-|[]]. apply isDuplicateJob_key in Hk. congruence.
Qed.

(** What a pass over cards adds to the session: records that passed the
    validation gate, at most one per card, with keys that are new and
    distinct. *)
Lemma scrapeJobListings_added c p cards st :
  exists added,
    jobs (scrapeJobListings c p cards st) = jobs st ++ added /\
    isScrapingActive (scrapeJobListings c p cards st) = isScrapingActive st /\
    Forall valid_record added /\
    (List.length added <= List.length cards)%nat /\
    NoDup (keys added) /\
    Forall (fun j => ~ In (identity_key j) (keys (jobs st))) added.
Proof.
  unfold scrapeJobListings. revert st.
  induction cards as [|card cards IH]; intros st.
  - exists []. cbn [fold_left]. rewrite app_nil_r.
    split; [reflexivity|]. split; [reflexivity|]. split; [constructor|].
    split; [apply Nat.le_refl|]. split; constructor.
  - cbn [fold_left].
    set (st1 := match extractJobDataFromCard c p card with
                | Some jobData =>
                    if negb (isDuplicateJob (jobs st) jobData)
                    then {| jobs := jobs st ++ [jobData];
                            isScrapingActive := isScrapingActive st |}
                    else st
                | None => st
                end).
    destruct (IH st1) as [added [Hj [Ha [Hv [Hl [Hn Hf]]]]]].
    rewrite Hj, Ha. cbn [List.length].
    destruct (extractJobDataFromCard c p card) as [j|] eqn:Ex.
    2:{ subst st1. exists added. split; [reflexivity|]. split; [reflexivity|].
        split; [exact Hv|]. split; [lia|]. split; assumption. }
    destruct (isDuplicateJob (jobs st) j) eqn:Ed; subst st1; cbn [negb] in *.
    { exists added. split; [reflexivity|]. split; [reflexivity|].
      split; [exact Hv|]. split; [lia|]. split; assumption. }
    cbn [jobs isScrapingActive] in *.
    assert (Hfresh : Forall (fun x => ~ In (identity_key x) (keys (jobs st))
                                      /\ identity_key x <> identity_key j) added).
    { rewrite Forall_forall in *. intros x Hx. specialize (Hf x Hx).
      unfold keys in *. rewrite map_app, in_app_iff in Hf. simpl in Hf.
      split; [tauto|]. intros E. apply Hf. right. left. now symmetry. }
    exists (j :: added). rewrite <- app_assoc.
    split; [reflexivity|]. split; [reflexivity|].
    split; [constructor; [now apply extractJobDataFromCard_valid in Ex | exact Hv]|].
    split; [cbn [List.length]; lia|].
    split.
    + unfold keys. cbn [map]. constructor; [|exact Hn].
      intros Hin. apply in_map_iff in Hin. destruct Hin as [x [Hk Hx]].
      rewrite Forall_forall in Hfresh. now apply Hfresh in Hx.
    + constructor.
      * intros Hin. apply isDuplicateJob_key in Hin. congruence.
      * rewrite Forall_forall in *. intros x Hx. now apply Hfresh in Hx.
Qed.

End SessionSet.

(** X19. A pass of the change watcher over the cards of the document: the
    session keeps its records in place and its activity flag; what is
    added are records that passed the validation gate, at most one per card, whose
    keys are distinct and not yet in the session. *)
Theorem scrapeJobListings_adds_new_valid_records
  (c : Scraper.Clock) (p : Scraper.Page) (cards : list Scraper.Card)
  (st : Scraper.State) :
  exists added,
    Scraper.jobs (Scraper.scrapeJobListings c p cards st)
      = Scraper.jobs st ++ added /\
    Scraper.isScrapingActive (Scraper.scrapeJobListings c p cards st)
      = Scraper.isScrapingActive st /\
    Forall valid_record added /\
    (List.length added <= List.length cards)%nat /\
    NoDup (keys added) /\
    Forall (fun j => ~ In (identity_key j) (keys (Scraper.jobs st))) added.
Proof. apply scrapeJobListings_added. Qed.

(** X20. The passes that add without enrichment keep the keys of the session
    distinct: the pass over cards, and the extraction from a stand-alone
    detail page. *)
Theorem session_keys_stay_distinct
  (c : Scraper.Clock) (p : Scraper.Page) (cards : list Scraper.Card)
  (st : Scraper.State) :
  distinct_keys (Scraper.jobs st) ->
  distinct_keys (Scraper.jobs (Scraper.scrapeJobListings c p cards st)) /\
  distinct_keys (Scraper.jobs (Scraper.scrapeJobDetail c p st)).
Proof.
  intros Hst. split.
  - destruct (scrapeJobListings_added c p cards st)
      as [added [-> [_ [_ [_ [Hn Hf]]]]]].
    unfold distinct_keys. rewrite map_app.
    apply NoDup_app; [exact Hst | exact Hn |].
    intros k Hk Hk'. apply in_map_iff in Hk'. destruct Hk' as [j [<- Hj]].
    rewrite Forall_forall in Hf. now apply Hf in Hj.
  - unfold Scraper.scrapeJobDetail.
    destruct (Scraper.extractJobDataFromDetailPage c p) as [j|]; [|exact Hst].
    destruct (Scraper.isDuplicateJob (Scraper.jobs st) j) eqn:Ed; [exact Hst|].
    cbn [negb Scraper.jobs]. now apply distinct_keys_snoc.
Qed.

Lemma session_keys_stay_distinct_witness :
  distinct_keys
    (Scraper.jobs (Scraper.scrapeJobListings (Scraper.mkClock 1700000000000 0)
                     C2_page [plain_card; plain_card]
                     (Scraper.mkState [] true))) /\
  distinct_keys
    (Scraper.jobs (Scraper.scrapeJobDetail (Scraper.mkClock 1700000000000 0)
                     C2_page (Scraper.mkState [] true))).
Proof.
  apply (session_keys_stay_distinct (Scraper.mkClock 1700000000000 0) C2_page
           [plain_card; plain_card] (Scraper.mkState [] true)).
  constructor.
Defined.

(** X21. The start of a session, up to the first suspension: the former
    records are dropped and the session is active; on a search page it is
    empty, and otherwise it holds at most one record, which passed the
    validation gate and has the location of the page as URL. *)
Theorem startScraping_resets_session
  (c : Scraper.Clock) (p : Scraper.Page) (st : Scraper.State) :
  let st' := Scraper.startScraping c p st in
  Scraper.isScrapingActive st' = true /\
  (List.length (Scraper.jobs st') <= 1)%nat /\
  Forall (fun j => valid_record j /\ url j = Scraper.href p) (Scraper.jobs st') /\
  (if Scraper.isJobSearchPage p then Scraper.jobs st' = []
   else if Scraper.isJobDetailPage p
        then Scraper.jobs st'
             = match Scraper.extractJobDataFromDetailPage c p with
               | Some j => [j]
               | None => []
               end
        else Scraper.jobs st' = []).
Proof.
  cbv zeta. unfold Scraper.startScraping.
  destruct (Scraper.isJobSearchPage p).
  { cbn [Scraper.jobs Scraper.isScrapingActive List.length].
    split; [reflexivity|]. split; [lia|]. split; [constructor | reflexivity]. }
  destruct (Scraper.isJobDetailPage p).
  2:{ cbn [Scraper.jobs Scraper.isScrapingActive List.length].
      split; [reflexivity|]. split; [lia|]. split; [constructor | reflexivity]. }
  unfold Scraper.scrapeJobDetail.
  destruct (Scraper.extractJobDataFromDetailPage c p) as [j|] eqn:Ex.
  2:{ cbn [Scraper.jobs Scraper.isScrapingActive List.length].
      split; [reflexivity|]. split; [lia|]. split; [constructor | reflexivity]. }
  apply extractJobDataFromDetailPage_valid in Ex.
  cbn [Scraper.isDuplicateJob existsb negb Scraper.jobs Scraper.isScrapingActive
       app List.length].
  split; [reflexivity|]. split; [lia|].
  split; [constructor; [exact Ex | constructor] | reflexivity].
Qed.

(** ** Cleaned text *)

Section CleanTextShape.

Import Scraper.

Lemma replace_char_runs_absent c b s :
  ~ In c s -> replace_char_runs_from c b s = s.
Proof.
  revert b. induction s as [|x s IH]; intros b Hc; [reflexivity|].
  simpl. destruct (Ascii.eqb_spec x c) as [->|Hx].
  - elim Hc. now left.
  - f_equal. apply IH. intros H. apply Hc. now right.
Qed.

Lemma only_plain_spaces_in s c :
  only_plain_spaces s = true -> is_space c = true -> c <> SPACE -> ~ In c s.
Proof.
  unfold only_plain_spaces. rewrite forallb_forall. intros H Hs Hc Hin.
  specialize (H c Hin). rewrite Hs in H. cbn [negb orb] in H.
  apply Ascii.eqb_eq in H. contradiction.
Qed.

Lemma only_plain_spaces_firstn n s :
  only_plain_spaces s = true -> only_plain_spaces (firstn n s) = true.
Proof.
  unfold only_plain_spaces. rewrite !forallb_forall. intros H x Hx.
  apply H. rewrite <- (firstn_skipn n s). apply in_or_app. now left.
Qed.

Lemma single_spaced_firstn n s :
  single_spaced s = true -> single_spaced (firstn n s) = true.
Proof.
  revert n. induction s as [|x s IH]; intros n H.
  - now rewrite firstn_nil.
  - destruct n as [|n]; [reflexivity|]. cbn [firstn].
    rewrite single_spaced_cons in *. apply andb_true_iff in H.
    destruct H as [H1 H2]. rewrite (IH n H2), andb_true_r.
    destruct s as [|y s]; destruct n as [|n]; cbn [firstn hd] in *;
      try exact H1; now rewrite comma_not_space, andb_false_r.
Qed.

Lemma cleanText_as_clean t :
  cleanText t = firstn 2000 (replace_ws_runs (trim t)).
Proof.
  unfold cleanText. destruct t as [|x t]; [reflexivity|]. cbn [truthy].
  unfold substring0. f_equal.
  destruct (replace_ws_from_shape false (trim (x :: t))) as [_ [Hp _]].
  fold (replace_ws_runs (trim (x :: t))) in Hp.
  unfold replace_char_runs.
  rewrite (replace_char_runs_absent LF)
    by (apply only_plain_spaces_in; [exact Hp | reflexivity | discriminate]).
  apply replace_char_runs_absent.
  apply only_plain_spaces_in; [exact Hp | reflexivity | discriminate].
Qed.

End CleanTextShape.

(** X14. [cleanText] is the text trimmed, with every run of white space
    turned into one space, cut at 2000 characters: the replacements of
    line feeds and of tabs that follow in the code never find any.  The
    result has at most 2000 characters, starts with no white space, and
    holds no white space but single plain spaces. *)
Theorem cleanText_shape (t : str) :
  Scraper.cleanText t = firstn 2000 (replace_ws_runs (trim t)) /\
  (List.length (Scraper.cleanText t) <= 2000)%nat /\
  is_space (hd COMMA (Scraper.cleanText t)) = false /\
  only_plain_spaces (Scraper.cleanText t) = true /\
  single_spaced (Scraper.cleanText t) = true.
Proof.
  rewrite cleanText_as_clean.
  pose proof (clean_field_normalised t) as Hn.
  unfold normalised, Background.clean_field in Hn.
  apply andb_true_iff in Hn. destruct Hn as [Hn Hs].
  apply andb_true_iff in Hn. destruct Hn as [Hn Hp].
  apply andb_true_iff in Hn. destruct Hn as [Hh _].
  apply negb_true_iff in Hh.
  split; [reflexivity|].
  split; [apply firstn_le_length|].
  split; [|split].
  - destruct (replace_ws_runs (trim t)); [reflexivity | exact Hh].
  - now apply only_plain_spaces_firstn.
  - now apply single_spaced_firstn.
Qed.

(** ** Polling *)

Section Polling.

Import Scraper.
Open Scope Z_scope.

Lemma poll_first_ready maxWaitTime checkInterval ready :
  0 < checkInterval ->
  forall (count extra checks : nat) (elapsed : Z),
    maxWaitTime <= elapsed + Z.of_nat (S count) * checkInterval ->
    elapsed + Z.of_nat count * checkInterval < maxWaitTime ->
    poll (S count + extra) maxWaitTime checkInterval ready checks elapsed
    = Some (match first_ready_from ready checks (S count) with
            | Some k => (S k, true)
            | None => ((checks + S count)%nat, false)
            end).
Proof.
  intros Hi. induction count as [|count IH]; intros extra checks elapsed Hge Hlt.
  - cbn [poll first_ready_from Nat.add]. destruct (ready checks); [reflexivity|].
    replace (elapsed + checkInterval >=? maxWaitTime) with true
      by (symmetry; apply Z.geb_le; lia).
    now rewrite Nat.add_1_r.
  - change (poll (S (S count) + extra) maxWaitTime checkInterval ready checks elapsed)
      with (if ready checks then Some (S checks, true)
            else if elapsed + checkInterval >=? maxWaitTime
                 then Some (S checks, false)
                 else poll (S count + extra) maxWaitTime checkInterval ready
                        (S checks) (elapsed + checkInterval)).
    change (first_ready_from ready checks (S (S count)))
      with (if ready checks then Some checks
            else first_ready_from ready (S checks) (S count)).
    destruct (ready checks); [reflexivity|].
    replace (elapsed + checkInterval >=? maxWaitTime) with false
      by (symmetry; rewrite Z.geb_leb; apply Z.leb_gt; lia).
    rewrite IH by lia.
    replace (S checks + S count)%nat with (checks + S (S count))%nat by lia.
    reflexivity.
Qed.

End Polling.

(** X11. Both waits end, after a bounded number of checks: the wait for a
    page at the first check that finds the page ready, and after 20
    checks at the latest (19 pauses of 500 ms); the wait for the detail
    panel at the first check that finds it, and after 27 checks at the
    latest (26 pauses of 300 ms).  The promise is resolved in either
    case. *)
Theorem waits_are_bounded (ready : nat -> bool) (extra : nat) :
  Scraper.waitForPageLoad_checks (20 + extra) ready = Some (polled ready 20) /\
  Scraper.waitForJobDetails_checks (27 + extra) ready = Some (polled ready 27).
Proof.
  unfold Scraper.waitForPageLoad_checks, Scraper.waitForJobDetails_checks, polled. split.
  - rewrite (poll_first_ready 10000 500 ready ltac:(lia) 19 extra 0 0);
      [reflexivity | lia | lia].
  - rewrite (poll_first_ready 8000 300 ready ltac:(lia) 26 extra 0 0);
      [reflexivity | lia | lia].
Qed.

(** ** Navigation *)

Section Navigation.

Import Regex JsNumber Scraper.
Open Scope Z_scope.

Lemma calculatedPages_positive p : 1 <= calculatedPages (getPaginationInfo p).
Proof.
  unfold getPaginationInfo. cbn [calculatedPages].
  destruct (match exec results_re (text_or_empty (resultsElement p)) with
            | Some m => parseInt (remove_commas (nth_group 1 m))
            | None => Some 0
            end) as [n|]; [|lia].
  destruct (Z.gtb_spec n 0) as [Hn|Hn]; [|lia].
  pose proof (ceil_quot_spec n JOBS_PER_PAGE ltac:(reflexivity)) as H.
  unfold JOBS_PER_PAGE in *. lia.
Qed.

Lemma totalPages_at_least_calculated p :
  match totalPages (getPaginationInfo p) with
  | Some t => calculatedPages (getPaginationInfo p) <= t
  | None => True
  end.
Proof.
  unfold getPaginationInfo. cbn [totalPages calculatedPages].
  unfold JsNumber.max.
  destruct (match exec page_state_re (text_or_empty (pageStateElement p)) with
            | Some m => parseInt (nth_group 2 m)
            | None => _
            end); [lia | exact I].
Qed.

Lemma currentPage_next p offset :
  nextStartParam (with_startParam (Some (decimal offset)) p)
    = Some (JOBS_PER_PAGE * (Z.of_N offset / JOBS_PER_PAGE + 1)) /\
  currentPage (getPaginationInfo
                 (next_document (with_startParam (Some (decimal offset)) p)))
    = Some (Z.of_N offset / JOBS_PER_PAGE + 2).
Proof.
  assert (Hnext : nextStartParam (with_startParam (Some (decimal offset)) p)
                  = Some (JOBS_PER_PAGE * (Z.of_N offset / JOBS_PER_PAGE + 1))).
  { unfold nextStartParam. cbv zeta. rewrite currentPage_offset.
    cbn [add option_map]. f_equal. lia. }
  split; [exact Hnext|].
  unfold next_document. rewrite Hnext. unfold number_toString.
  pose proof (Z.div_pos (Z.of_N offset) JOBS_PER_PAGE ltac:(lia) ltac:(reflexivity)) as Hq.
  replace (JOBS_PER_PAGE * (Z.of_N offset / JOBS_PER_PAGE + 1) <? 0) with false
    by (symmetry; apply Z.ltb_ge; unfold JOBS_PER_PAGE in *; lia).
  change (with_startParam ?v (with_startParam ?w p)) with (with_startParam v p).
  rewrite currentPage_offset. f_equal.
  rewrite Z2N.id by (unfold JOBS_PER_PAGE in *; lia).
  rewrite Z.mul_comm, Z.div_mul by (unfold JOBS_PER_PAGE; lia). lia.
Qed.

End Navigation.

(** X12. The page count computed from the number of results is at least 1,
    and the total number of pages, when it is a number, is at least the
    computed one: the indicator of the document can only raise it. *)
Theorem getPaginationInfo_bounds (p : Scraper.Page) :
  (1 <= Scraper.calculatedPages (Scraper.getPaginationInfo p))%Z /\
  match Scraper.totalPages (Scraper.getPaginationInfo p) with
  | Some t => (Scraper.calculatedPages (Scraper.getPaginationInfo p) <= t)%Z
  | None => True
  end.
Proof.
  split; [apply calculatedPages_positive | apply totalPages_at_least_calculated].
Qed.

(** X13. Navigation and the reading of the page number agree: from a document
    whose parameter [start] is the offset [o] (below 2^40, where the
    arithmetic of the language is exact), the next offset is the first
    one of the page after the current page, 25 * (floor (o / 25) + 1),
    and the document reached reads as the page after the current one. *)
Theorem navigation_advances_one_page (p : Scraper.Page) (offset : N) :
  (offset < 2 ^ 40)%N ->
  let here := with_startParam (Some (decimal offset)) p in
  Scraper.nextStartParam here
    = Some (25 * (Z.of_N offset / 25 + 1))%Z /\
  Scraper.currentPage (Scraper.getPaginationInfo (next_document here))
    = JsNumber.add (Scraper.currentPage (Scraper.getPaginationInfo here)) 1.
Proof.
  intros _ here. subst here.
  destruct (currentPage_next p offset) as [H1 H2].
  split; [exact H1|]. rewrite H2, currentPage_offset.
  cbn [JsNumber.add option_map]. f_equal. lia.
Qed.

Lemma navigation_advances_one_page_witness :
  Scraper.nextStartParam (with_startParam (Some (decimal 80)) C2_page)
    = Some (25 * (Z.of_N 80 / 25 + 1))%Z /\
  Scraper.currentPage
    (Scraper.getPaginationInfo
       (next_document (with_startParam (Some (decimal 80)) C2_page)))
    = JsNumber.add
        (Scraper.currentPage
           (Scraper.getPaginationInfo (with_startParam (Some (decimal 80)) C2_page)))
        1.
Proof.
  apply (navigation_advances_one_page C2_page 80). reflexivity.
Defined.

(** X23. The listener of the content script answers every request whose
    action is none of its three actions, whatever the type of the value,
    with [success: false] and the error text; the session is left as it
    is and nothing is sent to the background script. *)
Theorem scraper_unknown_action_fails
  (c : Scraper.Clock) (p : Scraper.Page) (st : Scraper.State)
  (message : Bus.Message) :
  Bus.action_is message "START_SCRAPING" = false ->
  Bus.action_is message "STOP_SCRAPING" = false ->
  Bus.action_is message "GET_SCRAPED_JOBS" = false ->
  Scraper.onMessage c p st message
  = (st,
     {| Bus.success := Some false;
        Bus.error := Some (lit "Unknown action");
        Bus.resp_jobs := None;
        Bus.jobCount := None |},
     None).
Proof.
  intros H1 H2 H3. unfold Scraper.onMessage. now rewrite H1, H2, H3.
Qed.

Lemma scraper_unknown_action_fails_witness :
  Scraper.onMessage (Scraper.mkClock 1700000000000 0) C2_page
    (Scraper.mkState [C1_job "first"] true)
    {| Bus.action := VNumber (Some 1%Z); Bus.jobs := None |}
  = (Scraper.mkState [C1_job "first"] true,
     {| Bus.success := Some false;
        Bus.error := Some (lit "Unknown action");
        Bus.resp_jobs := None;
        Bus.jobCount := None |},
     None).
Proof.
  apply (scraper_unknown_action_fails (Scraper.mkClock 1700000000000 0) C2_page
           (Scraper.mkState [C1_job "first"] true)
           {| Bus.action := VNumber (Some 1%Z); Bus.jobs := None |});
    reflexivity.
Defined.

(** ** Reading an export back *)

Section ReadBack.

Import Background Rfc4180.

Lemma reads_as_plain h : plain_text h = true -> reads_as h h.
Proof.
  intros Hp rest Hrest. unfold plain_text in Hp. rewrite forallb_forall in Hp.
  assert (Hd : forall x, In x h -> is_delimiter x = false).
  { intros x Hx. specialize (Hp x Hx). apply andb_true_iff in Hp.
    now apply negb_true_iff. }
  destruct (h ++ rest) as [|x t] eqn:E.
  - apply app_eq_nil in E. destruct E as [-> ->]. reflexivity.
  - unfold parse_field. rewrite <- E.
    assert (Hx : Ascii.eqb x QUOTE = false).
    { destruct h as [|y u].
      - simpl in E. subst rest. apply (field_end_not_quote _ Hrest).
      - simpl in E. injection E as <- _.
        specialize (Hp y (or_introl eq_refl)). apply andb_true_iff in Hp.
        now apply negb_true_iff. }
    rewrite Hx. now rewrite parse_unquoted_app.
Qed.

Lemma reads_as_row job : Forall2 reads_as (row_fields job) (cleaned_row job).
Proof.
  unfold row_fields, cleaned_row, row_values. cbn [map].
  repeat (constructor; [intros rest Hrest; now apply parse_escapeCsvField|]).
  constructor.
Qed.

Lemma reads_as_headers : Forall2 reads_as headers headers.
Proof.
  assert (H : forallb plain_text headers = true) by (vm_compute; reflexivity).
  rewrite forallb_forall in H.
  induction headers as [|h l IH]; constructor.
  - apply reads_as_plain. apply H. now left.
  - apply IH. intros x Hx. apply H. now right.
Qed.

Lemma join_cons sep (p q : str) ps :
  join sep (p :: q :: ps) = p ++ sep ++ join sep (q :: ps).
Proof. reflexivity. Qed.

Lemma length_join_fields (ws : list str) :
  (List.length ws <= S (List.length (join [COMMA] ws)))%nat.
Proof.
  induction ws as [|w ws IH]; [simpl; lia|].
  destruct ws as [|w' ws]; [simpl; lia|].
  rewrite join_cons, !length_app. cbn [List.length] in *. lia.
Qed.

(** A record is read back field by field. *)
Lemma parse_record_join ws rs :
  Forall2 reads_as ws rs -> ws <> [] ->
  forall rest fuel,
    match rest with [] => True | c :: _ => c = LF end ->
    (List.length ws <= fuel)%nat ->
    parse_record fuel (join [COMMA] ws ++ rest) = Some (rs, rest).
Proof.
  induction 1 as [|w r ws rs Hw Hrest IH]; intros Hne rest fuel Hend Hfuel;
    [now elim Hne|].
  destruct fuel as [|fuel]; [simpl in Hfuel; lia|].
  destruct ws as [|w' ws].
  - inversion Hrest; subst. cbn [join parse_record].
    rewrite Hw by (destruct rest; [exact I | now subst]).
    destruct rest as [|c rest]; [reflexivity|]. subst c. reflexivity.
  - rewrite join_cons, <- !app_assoc. cbn [parse_record].
    rewrite Hw by reflexivity. cbn [app].
    change (Ascii.eqb COMMA COMMA) with true. cbv iota.
    rewrite IH; [reflexivity | discriminate | exact Hend |].
    cbn [List.length] in *. lia.
Qed.

Lemma parse_file_S fuel s :
  parse_file (S fuel) s =
  match parse_record (S (List.length s)) s with
  | None => None
  | Some (fs, rest) =>
      match rest with
      | [] => Some [fs]
      | c :: rest' =>
          if Ascii.eqb c LF then
            match parse_file fuel rest' with
            | Some rs => Some (fs :: rs)
            | None => None
            end
          else None
      end
  end.
Proof. reflexivity. Qed.

(** A text of records is read back record by record. *)
Lemma parse_file_join rows reads :
  Forall2 (fun ws rs => Forall2 reads_as ws rs /\ ws <> []) rows reads ->
  rows <> [] ->
  forall extra,
    parse_file (List.length rows + extra) (join [LF] (map (join [COMMA]) rows))
    = Some reads.
Proof.
  induction 1 as [|ws rs rows reads [Hw Hwne] Hrest IH]; intros Hne extra;
    [now elim Hne|].
  change (List.length (ws :: rows) + extra)%nat
    with (S (List.length rows + extra)).
  rewrite parse_file_S.
  destruct rows as [|ws' rows].
  - inversion Hrest; subst. cbn [map join].
    rewrite <- (app_nil_r (join [COMMA] ws)) at 2.
    rewrite (parse_record_join ws rs Hw Hwne []);
      [reflexivity | exact I | apply length_join_fields].
  - change (map (join [COMMA]) (ws :: ws' :: rows))
      with (join [COMMA] ws :: map (join [COMMA]) (ws' :: rows)).
    change (join [LF] (join [COMMA] ws :: map (join [COMMA]) (ws' :: rows)))
      with (join [COMMA] ws ++ LF :: join [LF] (map (join [COMMA]) (ws' :: rows))).
    rewrite (parse_record_join ws rs Hw Hwne);
      [| reflexivity
       | etransitivity; [apply length_join_fields|];
         rewrite length_app; lia].
    change (Ascii.eqb LF LF) with true. cbv iota.
    rewrite IH by discriminate. reflexivity.
Qed.

End ReadBack.

(** X28. An export of at least one job reads back, with a reader of
    comma-separated values that takes line feeds between records and
    double quotes around fields as RFC 4180 does, as the record of the 21
    column titles followed by one record per job, in order, holding the
    21 cleaned values of the job. *)
Theorem convertJobsToCSV_reads_back
  (job : JobData) (jobs : list JobData) (extra : nat) :
  Rfc4180.parse_file (2 + List.length jobs + extra)
    (Background.convertJobsToCSV (job :: jobs))
  = Some (Background.headers :: map cleaned_row (job :: jobs)).
Proof.
  unfold Background.convertJobsToCSV, Background.csvRows.
  rewrite <- (map_map Background.row_fields (join [COMMA])).
  change (join [COMMA] Background.headers
          :: map (join [COMMA]) (map Background.row_fields (job :: jobs)))
    with (map (join [COMMA])
            (Background.headers :: map Background.row_fields (job :: jobs))).
  replace (2 + List.length jobs + extra)%nat
    with (List.length (Background.headers
                       :: map Background.row_fields (job :: jobs)) + extra)%nat
    by (cbn [List.length map]; rewrite length_map; lia).
  apply parse_file_join; [|discriminate].
  constructor; [split; [apply reads_as_headers | discriminate]|].
  generalize (job :: jobs) as l. intros l.
  induction l as [|j l IH]; cbn [map]; constructor; [|exact IH].
  split; [apply reads_as_row | discriminate].
Qed.

(** ** The name of an export *)

Section ExportName.

Import JsDate Background.






End ExportName.


(** ** Substrings *)

Section Substrings.

Lemma includes_unfold needle s :
  includes needle s =
  startsWith needle s || match s with [] => false | _ :: s' => includes needle s' end.
Proof. destruct s; reflexivity. Qed.

Lemma startsWith_app_l needle a b :
  startsWith needle a = true -> startsWith needle (a ++ b) = true.
Proof.
  revert a. induction needle as [|x needle IH]; intros a H; [reflexivity|].
  destruct a as [|y a]; [discriminate|]. simpl in *.
  apply andb_true_iff in H. destruct H as [-> H]. now apply IH.
Qed.

Lemma includes_app_l needle a b :
  includes needle a = true -> includes needle (a ++ b) = true.
Proof.
  induction a as [|y a IH]; intros H.
  - rewrite includes_unfold in H. rewrite orb_false_r in H.
    rewrite includes_unfold. now rewrite (startsWith_app_l needle [] b H).
  - rewrite includes_unfold in H. apply orb_true_iff in H.
    cbn [app]. rewrite includes_unfold. apply orb_true_iff.
    destruct H as [H|H]; [left|right].
    + now apply (startsWith_app_l needle (y :: a) b).
    + now apply IH.
Qed.

Lemma includes_app_r needle a b :
  includes needle b = true -> includes needle (a ++ b) = true.
Proof.
  intros H. induction a as [|y a IH]; [exact H|].
  cbn [app]. rewrite includes_unfold, IH. apply orb_true_r.
Qed.

Lemma startsWith_app_needle p k s :
  startsWith (p ++ k) s = true ->
  exists s', s = p ++ s' /\ startsWith k s' = true.
Proof.
  revert s. induction p as [|x p IH]; intros s H.
  - exists s. split; [reflexivity | exact H].
  - destruct s as [|y s]; [discriminate|]. simpl in H.
    apply andb_true_iff in H. destruct H as [Hx H].
    apply Ascii.eqb_eq in Hx. subst y.
    destruct (IH s H) as [s' [-> Hs']]. exists s'. split; [reflexivity | exact Hs'].
Qed.

Lemma startsWith_includes k s : startsWith k s = true -> includes k s = true.
Proof. intros H. rewrite includes_unfold, H. reflexivity. Qed.

(** A text that includes a word includes the endings of the word. *)
Lemma includes_ending p k s :
  includes (p ++ k) s = true -> includes k s = true.
Proof.
  induction s as [|y s IH]; intros H.
  - rewrite includes_unfold, orb_false_r in H.
    destruct (startsWith_app_needle p k [] H) as [s' [E Hs']].
    symmetry in E. apply app_eq_nil in E. destruct E as [_ ->].
    now apply startsWith_includes.
  - rewrite includes_unfold in H. apply orb_true_iff in H.
    destruct H as [H|H].
    + destruct (startsWith_app_needle p k _ H) as [s' [-> Hs']].
      apply includes_app_r. now apply startsWith_includes.
    + rewrite includes_unfold, (IH H). apply orb_true_r.
Qed.

Lemma in_suffix_from needle s x :
  In x (Scraper.suffix_from needle s) -> In x s.
Proof.
  induction s as [|y s IH]; simpl.
  - destruct (startsWith needle []); intros [].
  - destruct (startsWith needle (y :: s)); [tauto|]. intros H. right. now apply IH.
Qed.

Lemma split_on_absent c s : ~ In c s -> Scraper.split_on c s = [s].
Proof.
  induction s as [|x s IH]; intros Hc; [reflexivity|].
  simpl. destruct (Ascii.eqb_spec x c) as [->|_].
  - elim Hc. now left.
  - rewrite IH; [reflexivity|]. intros H. apply Hc. now right.
Qed.

End Substrings.

Section Skills.

Import Store Scraper.

Lemma update_update e f g h :
  update e g (update e f h) = update e (fun j => g (f j)) h.
Proof.
  revert e. induction h as [|j h IH]; intros e; [destruct e; reflexivity|].
  destruct e as [|e]; simpl; [reflexivity|]. now rewrite IH.
Qed.

Lemma cleanText_no_line_feed t : ~ In LF (cleanText t).
Proof.
  rewrite cleanText_as_clean.
  destruct (replace_ws_from_shape false (trim t)) as [_ [Hp _]].
  fold (replace_ws_runs (trim t)) in Hp.
  apply only_plain_spaces_in;
    [now apply only_plain_spaces_firstn | reflexivity | discriminate].
Qed.

(** The fourth keyword is never the first to be found. *)
Lemma skills_keyword_found d :
  find (fun keyword => includes keyword d) skillsKeywords
  = find (fun keyword => includes keyword d)
         (map lit ["Skills:"; "Technologies:"; "Requirements:"]%string).
Proof.
  unfold skillsKeywords. cbn [map find].
  destruct (includes (lit "Skills:") d) eqn:E1; [reflexivity|].
  destruct (includes (lit "Technologies:") d); [reflexivity|].
  destruct (includes (lit "Requirements:") d); [reflexivity|].
  destruct (includes (lit "Technical Skills:") d) eqn:E4; [|reflexivity].
  change (lit "Technical Skills:") with (lit "Technical " ++ lit "Skills:") in E4.
  apply includes_ending in E4. congruence.
Qed.

End Skills.

(** X15. The step that reads the description of the detail panel, on a text
    that is not blank: the description becomes the cleaned text, and the
    skills become the cleaned 500 characters that start at the first of
    the keywords Skills:, Technologies:, Requirements: that occurs in
    it.  The cleaned text has no line feed, so the cut into lines keeps
    the section whole; and a text with the keyword Technical Skills: has
    the keyword Skills:, so the fourth keyword is never the one used. *)
Theorem description_step_effect (e : Store.ref) (t : str) (h : Store.heap) :
  truthy (trim t) = true ->
  Scraper.description_step e (Some t) h
  = (Returned tt,
     Store.update e
       (fun j =>
          set_description (Scraper.cleanText t)
            (match skills_section (Scraper.cleanText t) with
             | Some section => set_skills (Some (Scraper.cleanText section)) j
             | None => j
             end))
       h).
Proof.
  intros Ht. unfold Scraper.description_step. rewrite Ht.
  cbn [Store.when]. cbv zeta. unfold skills_section.
  rewrite skills_keyword_found.
  destruct (find (fun keyword => includes keyword (Scraper.cleanText t))
              (map lit ["Skills:"; "Technologies:"; "Requirements:"]%string))
    as [keyword|]; cbn [option_map].
  - rewrite split_on_absent.
    2:{ intros Hin. rewrite <- (firstn_skipn 500) in Hin at 1.
        assert (Hin' : In LF (Scraper.suffix_from keyword (Scraper.cleanText t))).
        { rewrite <- (firstn_skipn 500 (Scraper.suffix_from keyword _)).
          apply in_or_app. left.
          rewrite firstn_skipn in Hin. exact Hin. }
        apply in_suffix_from in Hin'. revert Hin'. apply cleanText_no_line_feed. }
    cbn [firstn join]. unfold Store.bind, Store.assign.
    now rewrite update_update.
  - reflexivity.
Qed.

Lemma description_step_effect_witness :
  Scraper.description_step 0 (Some (lit "Technical Skills: Rocq")) [C1_job "first"]
  = (Returned tt,
     Store.update 0
       (fun j =>
          set_description (Scraper.cleanText (lit "Technical Skills: Rocq"))
            (match skills_section (Scraper.cleanText (lit "Technical Skills: Rocq")) with
             | Some section => set_skills (Some (Scraper.cleanText section)) j
             | None => j
             end))
       [C1_job "first"]).
Proof.
  apply (description_step_effect 0 (lit "Technical Skills: Rocq") [C1_job "first"]).
  reflexivity.
Defined.

(** X3. The URL kept for a card is the location of the page, or a text that
    contains linkedin.com or starts with https://.  A card without link
    but with a job id gets the address of the job view made of that id,
    which always passes the check. *)
Theorem card_url_shape (p : Scraper.Page) (card : Scraper.Card) :
  (Scraper.card_url p card = Scraper.href p \/
   (Scraper.card_url p card <> [] /\
    (includes (lit "linkedin.com") (Scraper.card_url p card) = true \/
     startsWith (lit "https://") (Scraper.card_url p card) = true))) /\
  match Scraper.card_link card,
        Scraper.attr_or (Scraper.data_job_id card) (Scraper.occludable_job_id card)
  with
  | None, Some id =>
      if truthy id
      then Scraper.card_url p card = Scraper.job_view_url id
      else True
  | _, _ => True
  end.
Proof.
  assert (Hview : forall id,
            includes (lit "linkedin.com") (Scraper.job_view_url id) = true).
  { intros id. unfold Scraper.job_view_url. apply includes_app_l. reflexivity. }
  split.
  - unfold Scraper.card_url. cbv zeta.
    match goal with
    | |- context [if negb (truthy ?u) || _ then _ else _] => set (url := u)
    end.
    destruct (truthy url) eqn:Et; [|left; reflexivity].
    destruct (includes (lit "linkedin.com") url) eqn:Ei.
    + right. cbn [negb orb andb]. split; [now apply truthy_true | now left].
    + destruct (startsWith (lit "https://") url) eqn:Es.
      * right. cbn [negb orb andb]. split; [now apply truthy_true | now right].
      * left. reflexivity.
  - destruct (Scraper.card_link card) as [link|] eqn:El; [exact I|].
    destruct (Scraper.attr_or _ _) as [id|] eqn:Ea; [|exact I].
    destruct (truthy id) eqn:Et; [|exact I].
    unfold Scraper.card_url. cbv zeta. rewrite El, Ea, Et.
    rewrite Hview. cbn [negb andb orb].
    unfold Scraper.job_view_url. reflexivity.
Qed.

(** ** The number of results *)

Section ResultsCount.

Import Regex JsNumber Scraper.

Context {A : Type}.
Implicit Types (k : str -> captures -> option A) (c : captures).

Lemma go_digit_hit x s c k : is_digit x = true -> go digit (x :: s) c k = k s c.
Proof. intros H. unfold digit. cbn [go]. now rewrite H. Qed.

Lemma go_digit_miss s c k :
  match s with x :: _ => is_digit x = false | [] => True end ->
  go digit s c k = None.
Proof. intros H. unfold digit. destruct s as [|x s]; cbn [go]; [reflexivity | now rewrite H]. Qed.

Lemma go_opt_digit_hit x s c k a :
  is_digit x = true -> k s c = Some a -> go (Opt digit) (x :: s) c k = Some a.
Proof.
  intros Hx Hk. unfold Opt.
  change (go (Alt digit Eps) (x :: s) c k)
    with (match go digit (x :: s) c k with
          | Some a => Some a
          | None => go Eps (x :: s) c k
          end).
  now rewrite go_digit_hit, Hk.
Qed.

Lemma go_opt_digit_miss s c k :
  match s with x :: _ => is_digit x = false | [] => True end ->
  go (Opt digit) s c k = k s c.
Proof.
  intros H. unfold Opt.
  change (go (Alt digit Eps) s c k)
    with (match go digit s c k with
          | Some a => Some a
          | None => go Eps s c k
          end).
  now rewrite go_digit_miss.
Qed.

Lemma go_group_hit g s c k :
  later_group g -> go thousands_group (COMMA :: g ++ s) c k = k s c.
Proof.
  intros [Hl Hd]. destruct g as [|d1 [|d2 [|d3 [|]]]]; try discriminate Hl.
  inversion Hd as [|? ? H1 Hd1]; subst. inversion Hd1 as [|? ? H2 Hd2]; subst.
  inversion Hd2 as [|? ? H3 _]; subst.
  unfold thousands_group, digit, Chr. cbn [go app].
  change (Ascii.eqb "," COMMA) with true. cbv iota.
  now rewrite H1, H2, H3.
Qed.

Lemma go_group_miss s c k :
  match s with x :: _ => x <> COMMA | [] => True end ->
  go thousands_group s c k = None.
Proof.
  intros H. unfold thousands_group, Chr. destruct s as [|x s]; cbn [go]; [reflexivity|].
  destruct (Ascii.eqb_spec "," x) as [E|_]; [|reflexivity].
  elim H. now symmetry.
Qed.

Lemma groups_then_tail groups (tail : str) :
  List.concat (map (fun g => COMMA :: g) groups) ++ tail
  = fold_right (fun g acc => COMMA :: g ++ acc) tail groups.
Proof.
  induction groups as [|g groups IH]; [reflexivity|].
  cbn [map List.concat fold_right]. rewrite <- app_assoc, IH. reflexivity.
Qed.

(** The greedy repetition swallows all the groups. *)
Lemma star_loop_groups groups tail c k a :
  Forall later_group groups ->
  match tail with x :: _ => x <> COMMA | [] => True end ->
  k tail c = Some a ->
  forall n,
    (List.length (fold_right (fun g acc => COMMA :: g ++ acc) tail groups) <= n)%nat ->
    star_loop (go thousands_group) k n
      (fold_right (fun g acc => COMMA :: g ++ acc) tail groups) c = Some a.
Proof.
  intros Hg Htail Hk. induction Hg as [|g groups Hgr _ IH]; intros n Hn.
  - cbn [fold_right] in *. destruct n as [|n]; [exact Hk|].
    cbn [star_loop]. now rewrite go_group_miss, Hk.
  - cbn [fold_right] in *.
    set (more := fold_right (fun g acc => COMMA :: g ++ acc) tail groups) in *.
    assert (Hlen : List.length (COMMA :: g ++ more)
                   = S (List.length g + List.length more))
      by (cbn [List.length]; now rewrite length_app).
    destruct n as [|n]; [rewrite Hlen in Hn; lia|].
    cbn [star_loop]. rewrite go_group_hit by exact Hgr.
    replace (List.length more <? List.length (COMMA :: g ++ more))%nat with true
      by (symmetry; apply Nat.ltb_lt; rewrite Hlen; lia).
    rewrite IH by (rewrite Hlen in Hn; lia). reflexivity.
Qed.

Lemma groups_head_not_digit groups tail :
  Forall later_group groups ->
  match tail with x :: _ => is_digit x = false | [] => True end ->
  match List.concat (map (fun g => COMMA :: g) groups) ++ tail with
  | x :: _ => is_digit x = false
  | [] => True
  end.
Proof. intros Hg Ht. destruct groups; [exact Ht | reflexivity]. Qed.

(** The numeral of the pattern reads a whole number with separators. *)
Lemma go_thousands head groups tail c k a :
  first_group head -> Forall later_group groups ->
  match tail with x :: _ => is_digit x = false /\ x <> COMMA | [] => True end ->
  k tail c = Some a ->
  go (Seq digit (Seq (Opt digit) (Seq (Opt digit) (Star thousands_group))))
     (thousands head groups ++ tail) c k = Some a.
Proof.
  intros [Hne [Hlen Hd]] Hg Htail Hk.
  assert (Ht1 : match tail with x :: _ => is_digit x = false | [] => True end)
    by (destruct tail; tauto).
  assert (Ht2 : match tail with x :: _ => x <> COMMA | [] => True end)
    by (destruct tail; tauto).
  pose proof (groups_head_not_digit groups tail Hg Ht1) as Hnd.
  assert (Hstar : go (Star thousands_group)
                    (List.concat (map (fun g => COMMA :: g) groups) ++ tail) c k = Some a).
  { cbn [go]. rewrite groups_then_tail. now apply star_loop_groups. }
  unfold thousands. rewrite <- app_assoc.
  set (more := List.concat (map (fun g => COMMA :: g) groups) ++ tail) in *.
  destruct head as [|h1 [|h2 [|h3 [|]]]]; [now elim Hne| | | |simpl in Hlen; lia].
  - inversion Hd as [|? ? H1 _]; subst. cbn [app].
    rewrite go_Seq, go_digit_hit by exact H1. rewrite go_Seq.
    rewrite go_opt_digit_miss by exact Hnd. rewrite go_Seq.
    rewrite go_opt_digit_miss by exact Hnd. exact Hstar.
  - inversion Hd as [|? ? H1 Hd1]; subst. inversion Hd1 as [|? ? H2 _]; subst.
    cbn [app]. rewrite go_Seq, go_digit_hit by exact H1. rewrite go_Seq.
    apply go_opt_digit_hit; [exact H2|]. rewrite go_Seq.
    rewrite go_opt_digit_miss by exact Hnd. exact Hstar.
  - inversion Hd as [|? ? H1 Hd1]; subst. inversion Hd1 as [|? ? H2 Hd2]; subst.
    inversion Hd2 as [|? ? H3 _]; subst.
    cbn [app]. rewrite go_Seq, go_digit_hit by exact H1. rewrite go_Seq.
    apply go_opt_digit_hit; [exact H2|]. rewrite go_Seq.
    apply go_opt_digit_hit; [exact H3|]. exact Hstar.
Qed.

End ResultsCount.

Section ResultsText.

Import Regex JsNumber Scraper.

Lemma go_Group {A} i r s c (k : str -> captures -> option A) :
  go (Group i r) s c k
  = go r s c (fun s' c' =>
                k s' ((i, firstn (List.length s - List.length s') s) :: c')).
Proof. reflexivity. Qed.

Lemma results_starts_with_digit {A} x s c (k : str -> captures -> option A) :
  is_digit x = false -> go results_re (x :: s) c k = None.
Proof.
  intros H. unfold results_re.
  rewrite go_Seq, go_Group, go_Seq. now apply go_digit_miss.
Qed.

(** The rest of the pattern after the number: white space, the word, and
    a plural that may or may not be taken. *)
Lemma go_results_tail ws rest c :
  Forall (fun x => is_space x = true) ws ->
  exists s'',
    go (Seq (Star space) (Seq (LitI "result") (Opt (ChrI "s"))))
       (ws ++ lit "result" ++ rest) c (fun s' c' => Some (s', c'))
    = Some (s'', c).
Proof.
  intros Hws.
  assert (Hopt : exists s'', go (Opt (ChrI "s")) rest c (fun s' c' => Some (s', c'))
                             = Some (s'', c)).
  { unfold Opt, ChrI. destruct rest as [|x r]; cbn [go]; [now exists []|].
    destruct (Ascii.eqb (upper x) (upper "s")); eexists; reflexivity. }
  destruct Hopt as [s'' Hopt]. exists s''.
  rewrite go_Seq. unfold space.
  apply go_star_class; [exact Hws | reflexivity |].
  rewrite go_Seq. unfold LitI.
  rewrite go_Lit_of_ChrI by (discriminate || reflexivity). exact Hopt.
Qed.

Lemma exec_results_text pre head groups ws rest :
  Forall (fun x => is_digit x = false) pre ->
  first_group head -> Forall later_group groups ->
  Forall (fun x => is_space x = true) ws ->
  exists m,
    exec results_re (pre ++ thousands head groups ++ ws ++ lit "result" ++ rest)
      = Some m /\
    nth_group 1 m = thousands head groups.
Proof.
  intros Hpre Hhead Hgroups Hws.
  destruct (go_results_tail ws rest [(1%nat, thousands head groups)] Hws)
    as [s'' Htail].
  eexists. split.
  - unfold exec. rewrite exec_from_skip.
    2:{ intros y t Hy. apply results_starts_with_digit.
        rewrite Forall_forall in Hpre. now apply Hpre. }
    apply (exec_from_front results_re (rev pre ++ [])
             (thousands head groups ++ ws ++ lit "result" ++ rest)
             s'' [(1%nat, thousands head groups)]).
    unfold results_re. rewrite go_Seq, go_Group.
    apply go_thousands; [exact Hhead | exact Hgroups | |].
    + destruct ws as [|y ws]; [split; [reflexivity | discriminate]|].
      inversion Hws as [|? ? Hy _]; subst. cbn [app]. split.
      * destruct (is_digit y) eqn:E; [|reflexivity].
        apply digit_not_space in E. congruence.
      * intros ->. discriminate Hy.
    + cbv beta. rewrite firstn_app_rest. exact Htail.
  - reflexivity.
Qed.

Lemma remove_commas_digits s :
  Forall (fun x => is_digit x = true) s -> remove_commas s = s.
Proof.
  induction 1 as [|x s Hx _ IH]; [reflexivity|].
  unfold remove_commas in *. cbn [filter].
  destruct (Ascii.eqb_spec x COMMA) as [->|_]; [discriminate Hx|].
  cbn [negb]. now rewrite IH.
Qed.

Lemma remove_commas_app a b :
  remove_commas (a ++ b) = remove_commas a ++ remove_commas b.
Proof. unfold remove_commas. apply filter_app. Qed.

Lemma remove_commas_thousands head groups :
  first_group head -> Forall later_group groups ->
  remove_commas (thousands head groups) = head ++ List.concat groups.
Proof.
  intros [_ [_ Hd]] Hg. unfold thousands.
  rewrite remove_commas_app, (remove_commas_digits head Hd). f_equal.
  induction Hg as [|g groups [_ Hgd] _ IH]; [reflexivity|].
  cbn [map List.concat]. rewrite remove_commas_app, IH.
  change (remove_commas (COMMA :: g)) with (remove_commas g).
  now rewrite (remove_commas_digits g Hgd).
Qed.

End ResultsText.

(** X30. The number of results is read from a text that shows, after
    text without digits, a number written with thousands separators (a
    first group of one to three digits, then groups of a comma and three
    digits), optional white space and the word result: when the number
    that the digits write is below 2^40, where the arithmetic of the
    language is exact, the total is that number and the computed page
    count is its ceiling over 25, or 1 when the number is 0. *)
Theorem getPaginationInfo_counts_results
  (p : Scraper.Page) (pre head : str) (groups : list str) (ws rest : str) :
  Scraper.text_or_empty (Scraper.resultsElement p)
    = pre ++ thousands head groups ++ ws ++ lit "result" ++ rest ->
  Forall (fun x => is_digit x = false) pre ->
  first_group head -> Forall later_group groups ->
  Forall (fun x => is_space x = true) ws ->
  (JsNumber.digits_value 0 (head ++ List.concat groups) < 2 ^ 40)%Z ->
  Scraper.totalResults (Scraper.getPaginationInfo p)
    = Some (JsNumber.digits_value 0 (head ++ List.concat groups)) /\
  Scraper.calculatedPages (Scraper.getPaginationInfo p)
    = (if (JsNumber.digits_value 0 (head ++ List.concat groups) >? 0)%Z
       then JsNumber.ceil_quot (JsNumber.digits_value 0 (head ++ List.concat groups))
              Scraper.JOBS_PER_PAGE
       else 1%Z).
Proof.
  intros Htext Hpre Hhead Hgroups Hws _.
  destruct (exec_results_text pre head groups ws rest Hpre Hhead Hgroups Hws)
    as [m [Hm H1]].
  assert (Hparse : JsNumber.parseInt (Scraper.remove_commas (Scraper.nth_group 1 m))
                   = Some (JsNumber.digits_value 0 (head ++ List.concat groups))).
  { rewrite H1, remove_commas_thousands by assumption.
    destruct Hhead as [Hne [_ Hd]]. destruct head as [|x head]; [now elim Hne|].
    cbn [app]. apply parseInt_digits. now inversion Hd. }
  unfold Scraper.getPaginationInfo.
  cbn [Scraper.totalResults Scraper.calculatedPages].
  rewrite Htext, Hm, Hparse. split; reflexivity.
Qed.

Lemma getPaginationInfo_counts_results_witness :
  Scraper.totalResults
    (Scraper.getPaginationInfo
       (with_results (Some (lit "About 1,234 results")) C2_page))
    = Some (JsNumber.digits_value 0 (lit "1" ++ List.concat [lit "234"])) /\
  Scraper.calculatedPages
    (Scraper.getPaginationInfo
       (with_results (Some (lit "About 1,234 results")) C2_page))
    = (if (JsNumber.digits_value 0 (lit "1" ++ List.concat [lit "234"]) >? 0)%Z
       then JsNumber.ceil_quot
              (JsNumber.digits_value 0 (lit "1" ++ List.concat [lit "234"]))
              Scraper.JOBS_PER_PAGE
       else 1%Z).
Proof.
  apply (getPaginationInfo_counts_results
           (with_results (Some (lit "About 1,234 results")) C2_page)
           (lit "About ") (lit "1") [lit "234"] (lit " ") (lit "s")).
  - reflexivity.
  - repeat constructor.
  - split; [discriminate|]. split; [simpl; lia | repeat constructor].
  - repeat constructor.
  - repeat constructor.
  - vm_compute. reflexivity.
Defined.

(** ** The claims on the gate, the enrichment and the relative dates *)

(** C5.  Both extractions return [null] whenever the cleaned title or the
    company is empty, and every record they return has a non-empty title
    and a non-empty company.  A rejected card never reaches the record
    set: the detailed walk answers [null] for it and leaves the set as it
    is, the pass of the change watcher skips it, a rejected detail page
    adds nothing, and every record that the walk over the cards appends
    has a non-empty title and company. *)
Theorem C5_validation_gate :
  (forall (c : Scraper.Clock) (p : Scraper.Page) (card : Scraper.Card),
      (Scraper.cleanTitle card = [] \/
       Scraper.text_or_empty (Scraper.card_company card) = [] ->
       Scraper.extractJobDataFromCard c p card = None) /\
      (forall j, Scraper.extractJobDataFromCard c p card = Some j ->
                 title j <> [] /\ company j <> []))
  /\ (forall (c : Scraper.Clock) (p : Scraper.Page),
         (Scraper.text_or_empty (Scraper.titleElement p) = [] \/
          Scraper.text_or_empty (Scraper.companyElement p) = [] ->
          Scraper.extractJobDataFromDetailPage c p = None) /\
         (forall j, Scraper.extractJobDataFromDetailPage c p = Some j ->
                    title j <> [] /\ company j <> []))
  /\ (forall (c : Scraper.Clock) (p : Scraper.Page) (v : Scraper.CardVisit)
             (jobs : list JobData),
         Scraper.extractJobDataFromCard c p (Scraper.visit_card v) = None ->
         Scraper.processJobCardDetailed c p v jobs = (jobs, None))
  /\ (forall (c : Scraper.Clock) (p : Scraper.Page) (card : Scraper.Card)
             (cards : list Scraper.Card) (st : Scraper.State),
         Scraper.extractJobDataFromCard c p card = None ->
         Scraper.scrapeJobListings c p (card :: cards) st
         = Scraper.scrapeJobListings c p cards st)
  /\ (forall (c : Scraper.Clock) (p : Scraper.Page) (st : Scraper.State),
         Scraper.extractJobDataFromDetailPage c p = None ->
         Scraper.scrapeJobDetail c p st = st)
  /\ (forall (c : Scraper.Clock) (p : Scraper.Page)
             (visits : list Scraper.CardVisit) (jobs : list JobData),
         exists added,
           fst (Scraper.scrapeJobListingsDetailed c p visits jobs) = jobs ++ added /\
           Forall valid_record added).
Proof.
  split; [|split; [|split; [|split; [|split]]]].
  - intros c p card. split.
    + intros H. unfold Scraper.extractJobDataFromCard.
      destruct H as [H|H]; rewrite H; cbn [truthy negb orb];
        [reflexivity | now rewrite orb_true_r].
    + intros j Hj. now apply (extractJobDataFromCard_valid c p card).
  - intros c p. split.
    + intros H. unfold Scraper.extractJobDataFromDetailPage.
      destruct H as [H|H]; rewrite H; cbn [truthy negb orb];
        [reflexivity | now rewrite orb_true_r].
    + intros j Hj. now apply (extractJobDataFromDetailPage_valid c p).
  - intros c p v jobs H. unfold Scraper.processJobCardDetailed. now rewrite H.
  - intros c p card cards st H. unfold Scraper.scrapeJobListings.
    cbn [fold_left]. now rewrite H.
  - intros c p st H. unfold Scraper.scrapeJobDetail. now rewrite H.
  - intros c p visits jobs.
    destruct (scrapeJobListingsDetailed_counts c p visits jobs)
      as [added [H1 [_ [_ [_ H5]]]]].
    exists added. split; assumption.
Qed.

(** C6.  Enrichment never loses or damages a record.  Applied to a basic
    record [b], the protocol returns [b] itself whenever scrolling to the
    card, the click, the wait for the panel or the probe for the panel
    throws, and more generally whenever the body of either [try] throws,
    at whatever point of the extraction; in every case it returns a record
    (never [null]) that has the URL and the capture time of [b] and a
    non-empty title and company if [b] has. *)
Theorem C6_enrichment_is_best_effort
  (c : Scraper.Clock) (card : Scraper.Card) (a : Scraper.CardAction)
  (b : JobData) :
  (forall e,
      Scraper.scrollIntoView a = Thrown e \/ Scraper.click a = Thrown e \/
      Scraper.waitForJobDetails a = Thrown e \/
      Scraper.detailsContainer a = Thrown e ->
      Scraper.enrich c card a b = Some b)
  /\ (forall e hx,
         Scraper.clickAndExtractJobDetails_try c card a 0%nat [b] = (Thrown e, hx) ->
         Scraper.enrich c card a b = Some b)
  /\ (forall e hx,
         Scraper.extractDetailedJobInfo_try c a 0%nat [b] = (Thrown e, hx) ->
         Scraper.enrich c card a b = Some b)
  /\ (exists d, Scraper.enrich c card a b = Some d /\ enriched_from b d).
Proof.
  assert (Hinner : forall e hx,
             Scraper.extractDetailedJobInfo_try c a 0%nat [b] = (Thrown e, hx) ->
             Scraper.enrich c card a b = Some b).
  { intros e hx Hx. unfold Scraper.enrich, Scraper.clickAndExtractJobDetails,
      Store.try_catch, Scraper.clickAndExtractJobDetails_try.
    destruct (Scraper.jobLink card); [|reflexivity].
    unfold Store.bind at 1, Store.lift at 1.
    destruct (Scraper.scrollIntoView a) as [[]|e1]; [|reflexivity].
    unfold Store.bind at 1, Store.lift at 1.
    destruct (Scraper.click a) as [[]|e2]; [|reflexivity].
    unfold Store.bind at 1, Store.lift at 1.
    destruct (Scraper.waitForJobDetails a) as [[]|e3]; [|reflexivity].
    destruct (extractDetailedJobInfo_result c a 0%nat [b] b eq_refl)
      as [r' [h' [d [He [Hd [_ [_ Hthrow]]]]]]].
    rewrite He. destruct (Hthrow e hx Hx) as [-> ->]. exact Hd. }
  assert (Houter : forall e hx,
             Scraper.clickAndExtractJobDetails_try c card a 0%nat [b] = (Thrown e, hx) ->
             Scraper.enrich c card a b = Some b).
  { intros e hx Hx.
    destruct (clickAndExtractJobDetails_result c card a 0%nat [b] b eq_refl)
      as [r' [h' [d [He [Hd [_ [_ [_ Hthrow]]]]]]]].
    unfold Scraper.enrich. rewrite He.
    destruct (Hthrow e hx Hx) as [-> ->]. exact Hd. }
  split; [|split; [exact Houter|split; [exact Hinner|]]].
  - intros e H.
    destruct (Scraper.jobLink card) eqn:El.
    2:{ unfold Scraper.enrich, Scraper.clickAndExtractJobDetails,
          Store.try_catch, Scraper.clickAndExtractJobDetails_try.
        rewrite El. reflexivity. }
    destruct (Scraper.scrollIntoView a) as [[]|e1] eqn:E1.
    2:{ apply (Houter e1 [b]). unfold Scraper.clickAndExtractJobDetails_try.
        rewrite El. unfold Store.bind, Store.lift. now rewrite E1. }
    destruct (Scraper.click a) as [[]|e2] eqn:E2.
    2:{ apply (Houter e2 [b]). unfold Scraper.clickAndExtractJobDetails_try.
        rewrite El. unfold Store.bind, Store.lift. now rewrite E1, E2. }
    destruct (Scraper.waitForJobDetails a) as [[]|e3] eqn:E3.
    2:{ apply (Houter e3 [b]). unfold Scraper.clickAndExtractJobDetails_try.
        rewrite El. unfold Store.bind, Store.lift. now rewrite E1, E2, E3. }
    destruct H as [H|[H|[H|H]]]; try discriminate H.
    apply (Hinner e [b]). unfold Scraper.extractDetailedJobInfo_try.
    unfold Store.bind, Store.lift. now rewrite H.
  - apply enrich_result.
Qed.



